(** * The job-orchestration core of [src/components/data-generation.tsx]

  A shallow embedding of the status poller ([pollUntilDone]), of the
  weighted progress arithmetic and of the pipeline driver
  ([runGenerationPipeline]) of the React component [DataGeneration],
  followed by the properties established about them.

  Conventions of the embedding:
  - a JavaScript [number] is [Js.number]: NaN, the two infinities, or a
    finite value held as an exact rational (rounding and the sign of zero
    are not modelled);
  - an [async] function is a resumable machine: a program counter names
    the [await] at which the function is suspended, and [resume] runs it
    from the answer of that [await] to the next one;
  - React state and refs of the component form one shared [Store]; a
    state setter is applied to the store at once;
  - the debug log and the three display-only status strings are left out:
    no control flow reads them. *)

From Stdlib Require Import ZArith QArith Qminmax Lqa Lia List String Ascii Bool.
Import ListNotations.
Local Open Scope Q_scope.

(** ** JavaScript values *)

Module Js.

Inductive number : Type :=
| NaN
| NegInf
| Fin (q : Q)
| PosInf.

(** [Math.min] and [Math.max] on two arguments: NaN is contagious. *)
Definition Math_min (a b : number) : number :=
  match a, b with
  | NaN, _ | _, NaN => NaN
  | NegInf, _ | _, NegInf => NegInf
  | PosInf, x | x, PosInf => x
  | Fin x, Fin y => if Qle_bool x y then Fin x else Fin y
  end.

Definition Math_max (a b : number) : number :=
  match a, b with
  | NaN, _ | _, NaN => NaN
  | PosInf, _ | _, PosInf => PosInf
  | NegInf, x | x, NegInf => x
  | Fin x, Fin y => if Qle_bool x y then Fin y else Fin x
  end.

Definition sign (q : Q) : comparison := q ?= 0.

Definition add (a b : number) : number :=
  match a, b with
  | NaN, _ | _, NaN => NaN
  | PosInf, NegInf | NegInf, PosInf => NaN
  | PosInf, _ | _, PosInf => PosInf
  | NegInf, _ | _, NegInf => NegInf
  | Fin x, Fin y => Fin (x + y)
  end.

Definition inf_of (c : comparison) : number :=
  match c with
  | Gt => PosInf
  | Lt => NegInf
  | Eq => NaN
  end.

Definition flip (c : comparison) : comparison := CompOpp c.

Definition mul (a b : number) : number :=
  match a, b with
  | NaN, _ | _, NaN => NaN
  | PosInf, PosInf | NegInf, NegInf => PosInf
  | PosInf, NegInf | NegInf, PosInf => NegInf
  | PosInf, Fin y | Fin y, PosInf => inf_of (sign y)
  | NegInf, Fin y | Fin y, NegInf => inf_of (flip (sign y))
  | Fin x, Fin y => Fin (x * y)
  end.

Definition div (a b : number) : number :=
  match a, b with
  | NaN, _ | _, NaN => NaN
  | (PosInf | NegInf), (PosInf | NegInf) => NaN
  | PosInf, Fin y => match sign y with Lt => NegInf | _ => PosInf end
  | NegInf, Fin y => match sign y with Lt => PosInf | _ => NegInf end
  | Fin _, (PosInf | NegInf) => Fin 0
  | Fin x, Fin y =>
      match sign y with
      | Eq => inf_of (sign x)
      | _ => Fin (x / y)
      end
  end.

Definition of_Z (z : Z) : number := Fin (inject_Z z).

(** Numeric equality and order; both are false on NaN, as [===] and
    [<=] are. *)
Definition eq (a b : number) : Prop :=
  match a, b with
  | Fin x, Fin y => x == y
  | PosInf, PosInf | NegInf, NegInf => True
  | _, _ => False
  end.

Definition le (a b : number) : Prop :=
  match a, b with
  | NaN, _ | _, NaN => False
  | NegInf, _ | _, PosInf => True
  | Fin x, Fin y => x <= y
  | _, _ => False
  end.

(** The closed interval the progress values are meant to live in. *)
Definition in_0_100 (a : number) : Prop :=
  match a with
  | Fin x => 0 <= x <= 100
  | _ => False
  end.

(** [String.prototype.toLowerCase], on the ASCII letters.  Other code
    units are kept; none of them lower-cases to a string equal to one of
    the status words the code compares with. *)
Definition lower_ascii (c : ascii) : ascii :=
  let n := nat_of_ascii c in
  if (65 <=? n)%nat && (n <=? 90)%nat then ascii_of_nat (n + 32) else c.

Fixpoint toLowerCase (s : string) : string :=
  match s with
  | EmptyString => EmptyString
  | String c rest => String (lower_ascii c) (toLowerCase rest)
  end.

(** A value of type [any] / [unknown], as [JSON.parse] or a caller may
    hand it over. *)
#[local] Unset Elimination Schemes.
Inductive value : Type :=
| Undefined
| Null
| Bool (b : bool)
| Num (n : number)
| Str (s : string)
| Arr (items : list value)
| Obj (fields : list (string * value)).
#[local] Set Elimination Schemes.

(** Normal completion or a thrown [Error] with its message. *)
Inductive completion (A : Type) : Type :=
| Normal (a : A)
| Throws (msg : string).
Arguments Normal {A} a.
Arguments Throws {A} msg.

Fixpoint lookup (k : string) (fields : list (string * value)) : value :=
  match fields with
  | [] => Undefined
  | (k', v) :: rest => if String.eqb k k' then v else lookup k rest
  end.

(** Property read [v.k] for a key that no prototype defines: a
    [TypeError] on [null] and [undefined], the own property of an object,
    [undefined] otherwise. *)
Definition get (v : value) (k : string) : completion value :=
  match v with
  | Undefined | Null => Throws "TypeError"
  | Obj fields => Normal (lookup k fields)
  | _ => Normal Undefined
  end.

(** What a [fetch] followed by [res.json()] can come to: the request
    rejects, or a response arrives with its [ok] flag and a body that
    parses ([Some]) or not ([None]). *)
Inductive response (A : Type) : Type :=
| NetworkError
| Http (ok : bool) (body : option A).
Arguments NetworkError {A}.
Arguments Http {A} ok body.

End Js.

Import Js.

(** ** Helpers of the module (lines 38-47) *)

Definition safeLower (x : value) : string :=
  match x with
  | Str s => toLowerCase s
  | _ => EmptyString
  end.

Module Remote.

(** The declared result type of the status capability:
    [{ status: string; percent?: number }]. *)
Record StatusPayload : Type := mkPayload {
  status : string;
  percent : option number
}.

End Remote.

Definition fetchStatus (res : response Remote.StatusPayload)
    : completion Remote.StatusPayload :=
  match res with
  | NetworkError => Throws "fetch rejected"
  | Http false _ => Throws "Status fetch failed"
  | Http true None => Throws "SyntaxError"
  | Http true (Some raw) => Normal raw
  end.

(** ** The status poller (lines 49-110) *)

Module Poller.

Record Opts : Type := mkOpts {
  requireRunning : bool;
  intervalMs : Z;
  maxConsecutiveErrors : Z;
  hasDebug : bool
}.

(** The defaults of the destructuring at lines 59-68. *)
Definition defaults : Opts :=
  {| requireRunning := false;
     intervalMs := 3000;
     maxConsecutiveErrors := 5;
     hasDebug := false |}.

(** The three [let] variables of the loop. *)
Record State : Type := mkState {
  errors : Z;
  seenRunning : bool;
  tick : Z
}.

Definition initial (o : Opts) : State :=
  {| errors := 0; seenRunning := negb (requireRunning o); tick := 0 |}.

(** One call of [onTick]: the clamped percent and the normalised status. *)
Record Tick : Type := mkTick {
  tick_percent : number;
  tick_status : string
}.

Inductive Result : Type :=
| Completed
| Aborted.

(** Line 84: [Math.max(0, Math.min(100, Number(raw.percent ?? 0)))]. *)
Definition clampPercent (p : option number) : number :=
  Math_max (of_Z 0) (Math_min (of_Z 100)
    (match p with Some n => n | None => of_Z 0 end)).

(** How the [try] block (lines 82-98) ends: the tick it delivered, the
    loop variables as it left them, and whether it fell off its end
    ([Normal None]), returned, or threw. *)
Record TryEnd : Type := mkTryEnd {
  delivered : list Tick;
  vars : State;
  ending : completion (option Result)
}.

Definition try_block (o : Opts) (st : State)
    (fetched : completion Remote.StatusPayload) : TryEnd :=
  match fetched with
  | Throws m => mkTryEnd [] st (Throws m)
  | Normal raw =>
      let status := safeLower (Str (Remote.status raw)) in
      let percent := clampPercent (Remote.percent raw) in
      let st1 :=
        if hasDebug o
        then {| errors := errors st; seenRunning := seenRunning st;
                tick := (tick st + 1)%Z |}
        else st in
      let out := [mkTick percent status] in
      if String.eqb status "failed" || String.eqb status "error"
      then mkTryEnd out st1 (Throws "Job failed on server")
      else
        let seen :=
          if String.eqb status "running" then true else seenRunning st1 in
        let st2 :=
          {| errors := errors st1; seenRunning := seen; tick := tick st1 |} in
        if String.eqb status "completed" && seen
        then mkTryEnd out st2 (Normal (Some Completed))
        else mkTryEnd out
               {| errors := 0; seenRunning := seen; tick := tick st1 |}
               (Normal None)
  end.

(** Where one iteration leaves the loop: at the sleep of line 108, at a
    [return], or with an exception leaving [pollUntilDone]. *)
Inductive Next : Type :=
| Sleep (st : State)
| Return (r : Result)
| Raise (msg : string).

(** The [catch] block (lines 99-106). *)
Definition catch_block (o : Opts) (st : State) : Next :=
  let st' :=
    {| errors := (errors st + 1)%Z; seenRunning := seenRunning st;
       tick := tick st |} in
  if (maxConsecutiveErrors o <=? errors st')%Z
  then Raise "Too many polling errors"
  else Sleep st'.

(** The [try]/[catch] statement of one iteration, from the settled
    [fetchStatus] promise to the sleep. *)
Definition iteration (o : Opts) (st : State)
    (fetched : completion Remote.StatusPayload) : list Tick * Next :=
  let t := try_block o st fetched in
  (delivered t,
   match ending t with
   | Normal (Some r) => Return r
   | Normal None => Sleep (vars t)
   | Throws _ => catch_block o (vars t)
   end).

(** What the poller has come to after a finite run of observations. *)
Inductive Outcome : Type :=
| Done (r : Result)
| Failed (msg : string)
| Polling (st : State).

(** One pass of the loop as its environment sees it: the value of
    [abortRef.current] at the loop head, and what the status capability
    answers if it is called. *)
Record Observation : Type := mkObs {
  abort_set : bool;
  fetched : completion Remote.StatusPayload
}.

Fixpoint loop (o : Opts) (st : State) (script : list Observation)
    : list Tick * Outcome :=
  match script with
  | [] => ([], Polling st)
  | ob :: rest =>
      if abort_set ob then ([], Done Aborted)
      else
        let (ts, next) := iteration o st (fetched ob) in
        match next with
        | Sleep st' =>
            let (ts', out) := loop o st' rest in (ts ++ ts', out)
        | Return r => (ts, Done r)
        | Raise m => (ts, Failed m)
        end
  end.

Definition pollUntilDone (o : Opts) (script : list Observation)
    : list Tick * Outcome :=
  loop o (initial o) script.

(** Script builders. *)
Definition ok (s : string) (p : option number) : Observation :=
  mkObs false (Normal (Remote.mkPayload s p)).

Definition failure : Observation :=
  mkObs false (Throws "Status fetch failed").

End Poller.

(** ** The pipeline driver (lines 112-340) *)

Module Driver.

Inductive StepStatus : Type :=
| pending
| running
| completed
| error.

Record GenerationStep : Type := mkStep {
  id : string;
  name : string;
  description : string;
  status : StepStatus;
  progress : number
}.

Definition pendingSteps : list GenerationStep :=
  [ mkStep "preprocessing" "Data Preprocessing"
      "Analyzing and preparing your data for training" pending (of_Z 0);
    mkStep "training" "Model Training"
      "Training the AI model on your data patterns" pending (of_Z 0);
    mkStep "generation" "Synthetic Generation"
      "Generating synthetic samples with your parameters" pending (of_Z 0);
    mkStep "validation" "Quality Validation"
      "Validating the quality and privacy of generated data" pending (of_Z 0) ].

(** Line 144. *)
Record Weights : Type := mkWeights {
  preprocessing : Z;
  training : Z;
  generation : Z;
  validation : Z
}.

Definition weights : Weights :=
  {| preprocessing := 25; training := 35; generation := 30; validation := 10 |}.

(** The object handed to [setGeneratedData] (lines 280-285). *)
Record Artifact : Type := mkArtifact {
  job_id : value;
  synthetic_data : value
}.

(** The state the runs share: the component's [useState] cells and
    [useRef] boxes, the parent's generated data and the calls of [onNext]. *)
Record Store : Type := mkStore {
  steps : list GenerationStep;
  overallProgress : number;
  jobIdRef : option string;
  abortRef : bool;
  runIdRef : Z;
  generatedData : option Artifact;
  nextCalls : nat
}.

(** The component as mounted (lines 113-141). *)
Definition mounted : Store :=
  {| steps := pendingSteps;
     overallProgress := of_Z 0;
     jobIdRef := None;
     abortRef := false;
     runIdRef := 0;
     generatedData := None;
     nextCalls := 0 |}.

(** The props a run snapshots (lines 173-175). *)
Record Props : Type := mkProps {
  dataset_id : option string;
  samples : number
}.

(** *** State setters *)

Fixpoint mapi_from {A B : Type} (i : nat) (f : A -> nat -> B) (l : list A)
    : list B :=
  match l with
  | [] => []
  | x :: rest => f x i :: mapi_from (S i) f rest
  end.

(** [prev.map((s, i) => ...)]. *)
Definition mapi {A B : Type} (f : A -> nat -> B) (l : list A) : list B :=
  mapi_from 0 f l.

Definition setSteps (f : GenerationStep -> nat -> GenerationStep) (s : Store)
    : Store :=
  {| steps := mapi f (steps s);
     overallProgress := overallProgress s;
     jobIdRef := jobIdRef s;
     abortRef := abortRef s;
     runIdRef := runIdRef s;
     generatedData := generatedData s;
     nextCalls := nextCalls s |}.

Definition setOverallProgress (v : number) (s : Store) : Store :=
  {| steps := steps s;
     overallProgress := v;
     jobIdRef := jobIdRef s;
     abortRef := abortRef s;
     runIdRef := runIdRef s;
     generatedData := generatedData s;
     nextCalls := nextCalls s |}.

Definition setJobIdRef (j : option string) (s : Store) : Store :=
  {| steps := steps s;
     overallProgress := overallProgress s;
     jobIdRef := j;
     abortRef := abortRef s;
     runIdRef := runIdRef s;
     generatedData := generatedData s;
     nextCalls := nextCalls s |}.

Definition setGeneratedData (a : Artifact) (s : Store) : Store :=
  {| steps := steps s;
     overallProgress := overallProgress s;
     jobIdRef := jobIdRef s;
     abortRef := abortRef s;
     runIdRef := runIdRef s;
     generatedData := Some a;
     nextCalls := nextCalls s |}.

Definition onNext (s : Store) : Store :=
  {| steps := steps s;
     overallProgress := overallProgress s;
     jobIdRef := jobIdRef s;
     abortRef := abortRef s;
     runIdRef := runIdRef s;
     generatedData := generatedData s;
     nextCalls := S (nextCalls s) |}.

(** [{ ...s, status: x }] and [{ ...s, progress: p }]. *)
Definition with_status (x : StepStatus) (st : GenerationStep) : GenerationStep :=
  mkStep (id st) (name st) (description st) x (progress st).

Definition with_progress (p : number) (st : GenerationStep) : GenerationStep :=
  mkStep (id st) (name st) (description st) (status st) p.

(** The updater [(s, i) => (i === k ? g(s) : s)]. *)
Definition at_index (k : nat) (g : GenerationStep -> GenerationStep)
    : GenerationStep -> nat -> GenerationStep :=
  fun st i => if Nat.eqb i k then g st else st.

(** *** The three places where overall progress is computed from a phase's
    local progress (lines 186, 232 and 333) *)

Definition overallInPreprocessing (p : number) : number :=
  mul (div p (of_Z 100)) (of_Z (preprocessing weights)).

Definition overallInTraining (percent : number) : number :=
  add (of_Z (preprocessing weights))
      (mul (div percent (of_Z 100)) (of_Z (training weights))).

Definition overallInValidation (p : number) : number :=
  add (add (add (of_Z (preprocessing weights)) (of_Z (training weights)))
           (of_Z (generation weights)))
      (mul (div p (of_Z 100)) (of_Z (validation weights))).

(** *** The run as a resumable machine *)

(** The [await] at which [runGenerationPipeline] is suspended.  A request
    that is under way is kept with its arguments. *)
Inductive Pc : Type :=
| PreDelay (p : Z)                          (* line 184, loop variable [p] *)
| PrePause                                  (* line 191 *)
| TrainPost (model_name dataset : string)   (* lines 204-213 *)
| TrainPollFetch (st : Poller.State)        (* line 82, called from 225 *)
| TrainPollSleep (st : Poller.State)        (* line 108 *)
| TrainPause                                (* line 245 *)
| SanityFetch (job : option string)         (* line 148, called from 254 *)
| GenFetch (job : option string) (count : number)   (* lines 277-279 *)
| ValDelay (p : Z)                          (* line 331 *)
| ValPause                                  (* line 338 *)
| Returned.

(** The locals of one invocation. *)
Record Run : Type := mkRun {
  myRun : Z;
  datasetId : string;
  modelName : string;
  sampleCount : number;
  jobId : option string;
  pc : Pc
}.

Definition goto (r : Run) (l : Pc) : Run :=
  mkRun (myRun r) (datasetId r) (modelName r) (sampleCount r) (jobId r) l.

Definition with_jobId (r : Run) (j : string) : Run :=
  mkRun (myRun r) (datasetId r) (modelName r) (sampleCount r) (Some j) (pc r).

(** What settles the pending [await]. *)
Inductive Event : Type :=
| Timer
| TrainResponse (res : response value)
| StatusResponse (res : response Remote.StatusPayload)
| GenerateResponse (res : response value).

(** The guard [abortRef.current || runIdRef.current !== myRun]
    (lines 183, 265 and 330). *)
Definition cancelled (r : Run) (s : Store) : bool :=
  abortRef s || negb (runIdRef s =? myRun r)%Z.

(** The options of the call at lines 225-237. *)
Definition trainingPoll : Poller.Opts :=
  {| Poller.requireRunning := false;
     Poller.intervalMs := Poller.intervalMs Poller.defaults;
     Poller.maxConsecutiveErrors := Poller.maxConsecutiveErrors Poller.defaults;
     Poller.hasDebug := true |}.

(** Lines 154-170: the reset at the start of every run. *)
Definition reset (s : Store) : Store :=
  {| steps := pendingSteps;
     overallProgress := of_Z 0;
     jobIdRef := None;
     abortRef := false;
     runIdRef := (runIdRef s + 1)%Z;
     generatedData := generatedData s;
     nextCalls := nextCalls s |}.

(** Head of the loop of lines 182-187 and the code after it, up to the
    next [await]. *)
Definition preprocessingLoop (r : Run) (p : Z) (s : Store) : Run * Store :=
  if (p <=? 100)%Z then
    if cancelled r s then (goto r Returned, s)
    else (goto r (PreDelay p), s)
  else
    let s1 :=
      setSteps
        (at_index 0 (fun st => with_progress (of_Z 100) (with_status completed st)))
        s in
    let s2 := setOverallProgress (of_Z (preprocessing weights)) s1 in
    (goto r PrePause, s2).

(** Lines 172-184: from the reset to the first [await]. *)
Definition enter (props : Props) (s : Store) : Run * Store :=
  let r :=
    {| myRun := runIdRef s;
       datasetId := match dataset_id props with Some d => d | None => EmptyString end;
       modelName := "adsgan";
       sampleCount := samples props;
       jobId := None;
       pc := Returned |} in
  let s1 :=
    setSteps
      (fun st i =>
         mkStep (id st) (name st) (description st)
           (if Nat.eqb i 0 then running else pending)
           (if Nat.eqb i 0 then of_Z 0 else progress st))
      s in
  preprocessingLoop r 0 s1.

(** [runGenerationPipeline()] up to its first [await]. *)
Definition runGenerationPipeline (props : Props) (s : Store) : Run * Store :=
  enter props (reset s).

(** Head of the poller's loop (lines 74-82) inside the call of line 225,
    and lines 238-241 when it returns ["aborted"]. *)
Definition pollHead (r : Run) (st : Poller.State) (s : Store) : Run * Store :=
  if abortRef s then (goto r Returned, s)
  else (goto r (TrainPollFetch st), s).

(** The [onTick] callback of lines 228-233. *)
Definition onTick (s : Store) (t : Poller.Tick) : Store :=
  let percent := Poller.tick_percent t in
  setOverallProgress (overallInTraining percent)
    (setSteps (at_index 1 (with_progress percent)) s).

(** Lines 147-150. *)
Definition assertCompleted (res : response Remote.StatusPayload)
    : completion bool :=
  match fetchStatus res with
  | Normal s => Normal (String.eqb (safeLower (Str (Remote.status s))) "completed")
  | Throws m => Throws m
  end.

(** Lines 265-277: the guard after the sanity re-check and the start of
    generation. *)
Definition startGeneration (r : Run) (s : Store) : Run * Store :=
  if cancelled r s then (goto r Returned, s)
  else
    let s1 :=
      setSteps
        (fun st i =>
           mkStep (id st) (name st) (description st)
             (if Nat.eqb i 2 then running else status st)
             (if Nat.eqb i 2 then of_Z 0 else progress st))
        s in
    let count := Math_min (of_Z 100000) (sampleCount r) in
    (goto r (GenFetch (jobIdRef s1) count), s1).

(** Head of the loop of lines 329-334 and the code after it. *)
Definition validationLoop (r : Run) (p : Z) (s : Store) : Run * Store :=
  if (p <=? 100)%Z then
    if cancelled r s then (goto r Returned, s)
    else (goto r (ValDelay p), s)
  else
    let s1 :=
      setSteps
        (at_index 3 (fun st => with_progress (of_Z 100) (with_status completed st)))
        s in
    let s2 := setOverallProgress (of_Z 100) s1 in
    (goto r ValPause, s2).

(** The [try] block of lines 204-216. *)
Definition trainingJobId (res : response value) : completion string :=
  match res with
  | NetworkError => Throws "fetch rejected"
  | Http false _ => Throws "Failed to start model training"
  | Http true None => Throws "SyntaxError"
  | Http true (Some data) =>
      match get data "job_id" with
      | Throws m => Throws m
      | Normal (Str j) => Normal j
      | Normal _ => Normal EmptyString
      end
  end.

(** The [try] block of lines 277-285. *)
Definition generationArtifact (res : response value) : completion Artifact :=
  match res with
  | NetworkError => Throws "fetch rejected"
  | Http false _ => Throws "Failed to start generation"
  | Http true None => Throws "SyntaxError"
  | Http true (Some data) =>
      match get data "job_id", get data "synthetic_data" with
      | Normal j, Normal d => Normal (mkArtifact j d)
      | Throws m, _ | _, Throws m => Throws m
      end
  end.

Definition markError (k : nat) (s : Store) : Store :=
  setSteps (at_index k (with_status error)) s.

(** The run from the settlement of its pending [await] to the next one.
    An event that does not answer the pending [await] is not delivered to
    the run and leaves everything as it is. *)
Definition resume (r : Run) (e : Event) (s : Store) : Run * Store :=
  match pc r, e with
  | PreDelay p, Timer =>
      let s1 := setSteps (at_index 0 (with_progress (of_Z p))) s in
      let s2 := setOverallProgress (overallInPreprocessing (of_Z p)) s1 in
      preprocessingLoop r (p + 20) s2
  | PrePause, Timer =>
      let s1 :=
        setSteps
          (fun st i =>
             mkStep (id st) (name st) (description st)
               (if Nat.eqb i 1 then running else status st)
               (if Nat.eqb i 1 then of_Z 0 else progress st))
          s in
      (goto r (TrainPost (modelName r) (datasetId r)), s1)
  | TrainPost _ _, TrainResponse res =>
      match trainingJobId res with
      | Normal j =>
          pollHead (with_jobId r j) (Poller.initial trainingPoll)
            (setJobIdRef (Some j) s)
      | Throws _ => (goto r Returned, markError 1 s)
      end
  | TrainPollFetch st, StatusResponse res =>
      let (ticks, next) := Poller.iteration trainingPoll st (fetchStatus res) in
      let s1 := fold_left onTick ticks s in
      match next with
      | Poller.Sleep st' => (goto r (TrainPollSleep st'), s1)
      | Poller.Return Poller.Aborted => (goto r Returned, s1)
      | Poller.Return Poller.Completed =>
          let s2 :=
            setSteps
              (at_index 1
                 (fun st => with_progress (of_Z 100) (with_status completed st)))
              s1 in
          let s3 :=
            setOverallProgress
              (add (of_Z (preprocessing weights)) (of_Z (training weights))) s2 in
          (goto r TrainPause, s3)
      | Poller.Raise _ => (goto r Returned, markError 1 s1)
      end
  | TrainPollSleep st, Timer => pollHead r st s
  | TrainPause, Timer => (goto r (SanityFetch (jobIdRef s)), s)
  | SanityFetch _, StatusResponse res =>
      match assertCompleted res with
      | Normal false => (goto r Returned, markError 1 s)
      | Normal true => startGeneration r s
      | Throws _ => startGeneration r s
      end
  | GenFetch _ _, GenerateResponse res =>
      match generationArtifact res with
      | Normal a => validationLoop r 0 (setGeneratedData a s)
      | Throws _ => (goto r Returned, markError 2 s)
      end
  | ValDelay p, Timer =>
      let s1 := setSteps (at_index 3 (with_progress (of_Z p))) s in
      let s2 := setOverallProgress (overallInValidation (of_Z p)) s1 in
      validationLoop r (p + 20) s2
  | ValPause, Timer => (goto r Returned, onNext s)
  | _, _ => (r, s)
  end.

(** The stores a run leaves behind at its successive suspensions when it is
    the only one to touch the store. *)
Fixpoint trace (r : Run) (s : Store) (events : list Event) : list Store :=
  match events with
  | [] => []
  | e :: rest =>
      let (r', s') := resume r e s in
      s' :: trace r' s' rest
  end.

(** The run and the store after a list of events. *)
Fixpoint feed (r : Run) (s : Store) (events : list Event) : Run * Store :=
  match events with
  | [] => (r, s)
  | e :: rest =>
      let (r', s') := resume r e s in
      feed r' s' rest
  end.

(** The stores of one whole run: after the reset, at the first suspension,
    and after every event. *)
Definition history (props : Props) (s : Store) (events : list Event)
    : list Store :=
  let s0 := reset s in
  let (r, s1) := enter props s0 in
  s0 :: s1 :: trace r s1 events.

Definition statusOf (k : nat) (s : Store) : StepStatus :=
  match nth_error (steps s) k with
  | Some st => status st
  | None => pending
  end.

Definition progressOf (k : nat) (s : Store) : option number :=
  option_map progress (nth_error (steps s) k).

End Driver.

(** ** The progress aggregator, as the specification words it

    The sum of the weights of the phases before phase [k], plus the
    fraction [p / 100] of the weight of phase [k].  The source has no such
    function: it writes the sum out at each of its three call sites
    ([Driver.overallInPreprocessing] and its two siblings). *)

Module Aggregator.

Definition phaseWeights : list Z :=
  [ Driver.preprocessing Driver.weights;
    Driver.training Driver.weights;
    Driver.generation Driver.weights;
    Driver.validation Driver.weights ].

Definition weightOf (k : nat) : Q := inject_Z (nth k phaseWeights 0%Z).

Definition cumulative (k : nat) : Q :=
  inject_Z (fold_right Z.add 0%Z (firstn k phaseWeights)).

Definition overall (k : nat) (p : Q) : Q :=
  cumulative k + (p / 100) * weightOf k.

End Aggregator.

(** ** Concrete inputs *)

Module Scenario.
Import Driver.

Definition props : Props := mkProps (Some "d1"%string) (of_Z 250000).

Definition timers (n : nat) : list Event := repeat Timer n.

(** A successful answer [{ job_id: j }] to the training request. *)
Definition trainOk (j : string) : Event :=
  TrainResponse (Http true (Some (Obj [("job_id"%string, Str j)]))).

(** A successful answer [{}]: no [job_id] at all. *)
Definition trainNoId : Event :=
  TrainResponse (Http true (Some (Obj []))).

(** A successful answer [{ status: s, percent: p }] of the status endpoint. *)
Definition statusIs (s : string) (p : Z) : Event :=
  StatusResponse (Http true (Some (Remote.mkPayload s (Some (of_Z p))))).

Definition generateOk (j : string) : Event :=
  GenerateResponse
    (Http true
       (Some (Obj [("job_id"%string, Str j);
                   ("synthetic_data"%string, Arr [])]))).

(** The six increments of preprocessing and the pause after them, then a
    training job [j1] that is started. *)
Definition toPolling : list Event := timers 7 ++ [trainOk "j1"].

(** A backend that reports 80 percent and then 40 percent. *)
Definition backwards : list Event :=
  toPolling ++ [statusIs "running" 80; Timer; statusIs "running" 40].

(** Training completed at the first poll, and the pause after it. *)
Definition toSanity : list Event :=
  toPolling ++ [statusIs "completed" 100; Timer].

(** A run in which everything succeeds. *)
Definition happy : list Event :=
  toPolling
    ++ [statusIs "pending" 0; Timer; statusIs "running" 40; Timer;
        statusIs "running" 80; Timer; statusIs "completed" 100; Timer;
        statusIs "completed" 100; generateOk "j1"]
    ++ timers 7.

End Scenario.

(** ** Vocabulary of the properties *)

Module Spec.
Import Driver.

(** The training request did not yield a readable answer: the request was
    rejected, the response was not a success, or its body was not JSON or
    was [null]. *)
Definition startRejected (res : response value) : bool :=
  match res with
  | Http true (Some (Undefined | Null)) => true
  | Http true (Some _) => false
  | _ => true
  end.

(** Each value is at most the next one. *)
Fixpoint nondecreasing (l : list number) : Prop :=
  match l with
  | [] => True
  | a :: rest =>
      match rest with
      | [] => True
      | b :: _ => Js.le a b /\ nondecreasing rest
      end
  end.

(** The percents that the status endpoint reports in a list of events, as
    the poller clamps them. *)
Fixpoint percentsOf (events : list Event) : list number :=
  match events with
  | [] => []
  | StatusResponse res :: rest =>
      match fetchStatus res with
      | Normal raw => Poller.clampPercent (Remote.percent raw) :: percentsOf rest
      | Throws _ => percentsOf rest
      end
  | _ :: rest => percentsOf rest
  end.

(** The backend never reports NaN and never reports less than it did
    before. *)
Definition steadyPercents (events : list Event) : Prop :=
  nondecreasing (of_Z 0 :: percentsOf events).

Definition terminal (x : StepStatus) : bool :=
  match x with
  | completed | error => true
  | _ => false
  end.

(** Phase [k] was running in one of the stores before position [n]. *)
Definition ranBefore (k : nat) (h : list Store) (n : nat) : Prop :=
  exists m st,
    (m < n)%nat /\ nth_error h m = Some st /\ statusOf k st = running.

(** Phase [k] is completed or in error only after it was running. *)
Definition lifecycle (k : nat) (h : list Store) : Prop :=
  forall n st,
    nth_error h n = Some st ->
    terminal (statusOf k st) = true ->
    ranBefore k h n.

(** Phase [k], once it has left [pending], is not pending again. *)
Definition neverPendingAgain (k : nat) (h : list Store) : Prop :=
  forall n m a b,
    (n <= m)%nat ->
    nth_error h n = Some a ->
    nth_error h m = Some b ->
    statusOf k a <> pending ->
    statusOf k b <> pending.

(** Phase [k] is never shown as running. *)
Definition neverRunning (k : nat) (h : list Store) : Prop :=
  forall st, In st h -> statusOf k st <> running.

(** A bound on the overall progress [v] of a run suspended at [l], below
    everything the run can set it to next, when the status endpoint will
    report no less than [lo]. *)
Definition ceiling (lo : Q) (l : Pc) (v : Q) : Prop :=
  match l with
  | PreDelay p => (0 <= p <= 100)%Z /\ v <= inject_Z p / 100 * 25
  | PrePause | TrainPost _ _ => v <= 25
  | TrainPollFetch _ | TrainPollSleep _ => v <= 25 + lo / 100 * 35
  | TrainPause | SanityFetch _ | GenFetch _ _ => v <= 90
  | ValDelay p => (0 <= p <= 100)%Z /\ v <= 90 + inject_Z p / 100 * 10
  | ValPause | Returned => True
  end.

(** The statuses that a run suspended at [l] has set so far. *)
Definition shape (l : Pc) (a b c : StepStatus) : Prop :=
  match l with
  | PreDelay _ => a = running
  | TrainPost _ _ | TrainPollFetch _ | TrainPollSleep _ => b = running
  | TrainPause | SanityFetch _ => b = completed
  | GenFetch _ _ => c = running
  | _ => True
  end.

Definition fourSteps (r : Run) (s : Store) : Prop :=
  exists a b c d,
    steps s = [a; b; c; d] /\ shape (pc r) (status a) (status b) (status c).

(** What one resumption may do to the status of phase [k]. *)
Definition statusStep (k : nat) (s s' : Store) : Prop :=
  ((k < 3)%nat ->
   terminal (statusOf k s') = true ->
   terminal (statusOf k s) = true \/ statusOf k s = running)
  /\ (statusOf k s <> pending -> statusOf k s' <> pending)
  /\ (statusOf 3 s' = running -> statusOf 3 s = running).

End Spec.

(** ** Vocabulary for the poller's loop *)

Module PollerSpec.
Import Poller.

(** The iteration on this observation ends in the [catch] block: the fetch
    threw, or the status read [failed] or [error]. *)
Definition endsInCatch (ob : Observation) : bool :=
  match fetched ob with
  | Throws _ => true
  | Normal raw =>
      String.eqb (safeLower (Str (Remote.status raw))) "failed"
      || String.eqb (safeLower (Str (Remote.status raw))) "error"
  end.

(** The number of iterations in a row, up to the end of the script, that
    ended in the [catch] block, counted on from [n]. *)
Definition consecutive (script : list Observation) (n : Z) : Z :=
  fold_left (fun k ob => if endsInCatch ob then (k + 1)%Z else 0%Z) script n.

(** An observation that ends the poll in no way: the abort flag is down,
    the fetch succeeds, and the status is none of failed, error and
    completed. *)
Definition quiet (ob : Observation) : bool :=
  negb (abort_set ob)
  && match fetched ob with
     | Throws _ => false
     | Normal raw =>
         negb (String.eqb (safeLower (Str (Remote.status raw))) "failed")
         && negb (String.eqb (safeLower (Str (Remote.status raw))) "error")
         && negb (String.eqb (safeLower (Str (Remote.status raw))) "completed")
     end.

(** The ticks that the successful fetches of a script give rise to. *)
Fixpoint ticksOf (script : list Observation) : list Tick :=
  match script with
  | [] => []
  | ob :: rest =>
      match fetched ob with
      | Normal raw =>
          mkTick (clampPercent (Remote.percent raw))
            (safeLower (Str (Remote.status raw))) :: ticksOf rest
      | Throws _ => ticksOf rest
      end
  end.

(** No payload of the script carries NaN as its percent. *)
Definition noNaN (script : list Observation) : Prop :=
  forall ob raw,
    In ob script -> fetched ob = Normal raw -> Remote.percent raw <> Some NaN.

End PollerSpec.

(** ** Vocabulary for one run of the driver on its own *)

Module RunSpec.
Import Driver.

Definition statuses (s : Store) : list StepStatus := map status (steps s).

Definition ids (s : Store) : list string := map id (steps s).

Definition phaseIds : list string :=
  ["preprocessing"; "training"; "generation"; "validation"]%string.

(** The status vectors a run shows at its awaits. *)
Definition shapes : list (list StepStatus) :=
  [ [running; pending; pending; pending];
    [completed; pending; pending; pending];
    [completed; running; pending; pending];
    [completed; error; pending; pending];
    [completed; completed; pending; pending];
    [completed; completed; running; pending];
    [completed; completed; error; pending];
    [completed; completed; running; completed] ].

(** Among the events so far, the training request was answered with the
    job id [j]. *)
Definition trained (past : list Event) (j : string) : Prop :=
  exists res, In (TrainResponse res) past /\ trainingJobId res = Normal j.

(** Among the events so far, the generation request was answered with the
    artifact [a]. *)
Definition generated (past : list Event) (a : Artifact) : Prop :=
  exists res, In (GenerateResponse res) past /\ generationArtifact res = Normal a.

Definition jobKnown (past : list Event) (r : Run) (s : Store) : Prop :=
  exists j, jobId r = Some j /\ jobIdRef s = Some j /\ trained past j.

(** The run has not yet touched what it hands to its parent. *)
Definition untouched (s0 s : Store) : Prop :=
  nextCalls s = nextCalls s0 /\ generatedData s = generatedData s0.

(** The run has handed over the artifact of its generation request. *)
Definition handed (past : list Event) (s : Store) : Prop :=
  exists a, generatedData s = Some a /\ generated past a.

(** What holds of the store of a run suspended at each of its awaits, when
    the run started from the store [s0] with the props [p], has received
    the events [past], and no other run touches the store. *)
Definition atAwait (p : Props) (s0 : Store) (past : list Event)
    (r : Run) (s : Store) : Prop :=
  match pc r with
  | PreDelay _ =>
      statuses s = [running; pending; pending; pending]
      /\ untouched s0 s
  | PrePause =>
      statuses s = [completed; pending; pending; pending]
      /\ untouched s0 s
      /\ Js.eq (overallProgress s) (Fin 25)
  | TrainPost _ _ =>
      statuses s = [completed; running; pending; pending]
      /\ untouched s0 s
      /\ Js.eq (overallProgress s) (Fin 25)
  | TrainPollFetch _ | TrainPollSleep _ =>
      statuses s = [completed; running; pending; pending]
      /\ untouched s0 s
      /\ jobKnown past r s
  | TrainPause =>
      statuses s = [completed; completed; pending; pending]
      /\ untouched s0 s
      /\ jobKnown past r s
      /\ Js.eq (overallProgress s) (Fin 60)
  | SanityFetch job =>
      statuses s = [completed; completed; pending; pending]
      /\ untouched s0 s
      /\ jobKnown past r s
      /\ job = jobId r
      /\ Js.eq (overallProgress s) (Fin 60)
  | GenFetch job count =>
      statuses s = [completed; completed; running; pending]
      /\ untouched s0 s
      /\ jobKnown past r s
      /\ job = jobId r
      /\ count = Math_min (of_Z 100000) (samples p)
      /\ Js.eq (overallProgress s) (Fin 60)
  | ValDelay _ =>
      statuses s = [completed; completed; running; pending]
      /\ nextCalls s = nextCalls s0
      /\ handed past s
  | ValPause =>
      statuses s = [completed; completed; running; completed]
      /\ nextCalls s = nextCalls s0
      /\ handed past s
      /\ Js.eq (overallProgress s) (Fin 100)
  | Returned =>
      (statuses s = [completed; error; pending; pending] /\ untouched s0 s)
      \/ (statuses s = [completed; completed; error; pending]
          /\ untouched s0 s)
      \/ (statuses s = [completed; completed; running; completed]
          /\ nextCalls s = S (nextCalls s0)
          /\ handed past s
          /\ Js.eq (overallProgress s) (Fin 100))
  end.

Definition aloneInv (p : Props) (s0 : Store) (past : list Event)
    (r : Run) (s : Store) : Prop :=
  ids s = phaseIds
  /\ abortRef s = false
  /\ runIdRef s = myRun r
  /\ sampleCount r = samples p
  /\ atAwait p s0 past r s.

(** The run of [runGenerationPipeline] from the store [s0], after the
    events [events]. *)
Definition runAlone (p : Props) (s0 : Store) (events : list Event)
    : Run * Store :=
  let (r, s) := runGenerationPipeline p s0 in feed r s events.

(** Every step's progress and the overall progress lie in [0,100]. *)
Definition inRange (s : Store) : Prop :=
  Forall (fun st => in_0_100 (progress st)) (steps s)
  /\ in_0_100 (overallProgress s).

(** The status endpoint does not answer with NaN as its percent. *)
Definition numeric (e : Event) : Prop :=
  forall res raw,
    e = StatusResponse res ->
    fetchStatus res = Normal raw ->
    Remote.percent raw <> Some NaN.

(** The loop variable of a simulated phase is within its bounds. *)
Definition loopBound (r : Run) : Prop :=
  match pc r with
  | PreDelay z | ValDelay z => (0 <= z <= 100)%Z
  | _ => True
  end.

(** Line 383: the flag that shows the "finished without ever seeing a
    running state" alert. *)
Definition suspiciousFastGeneration (st : list GenerationStep)
    (seenRunningGeneration : bool) : bool :=
  match find (fun x => String.eqb (id x) "generation") st with
  | Some x =>
      match status x with
      | completed => true
      | _ => false
      end
  | None => false
  end
  && negb seenRunningGeneration.

End RunSpec.

(** ** The debug log (lines 130-136) *)

Module DebugLog.

(** [pushLog(line)] when [nowISO()] answers [now]: the updater handed to
    [setDebugLog], applied to the log so far. *)
Definition pushLog (now line : string) (prev : list string) : list string :=
  (now ++ " | " ++ line)%string :: firstn 199 prev.

(** The text of one entry. *)
Definition entry (call : string * string) : string :=
  (fst call ++ " | " ++ snd call)%string.

(** A series of calls, each with the time it is made at. *)
Definition pushAll (calls : list (string * string)) (log : list string)
    : list string :=
  fold_left (fun l c => pushLog (fst c) (snd c) l) calls log.

End DebugLog.

(** ** The wizard ([src/components/synthetic-data-platform.tsx]) *)

Module Wizard.

Inductive WorkflowStep : Type :=
| upload
| model
| parameters
| generate
| results.

Definition eqb (a b : WorkflowStep) : bool :=
  match a, b with
  | upload, upload | model, model | parameters, parameters
  | generate, generate | results, results => true
  | _, _ => false
  end.

Inductive DataType : Type :=
| tabular
| text
| image.

Record UploadedFile : Type := mkFile {
  file_name : string;
  file_size : Z;
  file_type : string;
  file_content : string;
  dataset_id : option string
}.

Record ModelConfig : Type := mkModel {
  model_id : string;
  model_name : string;
  model_description : string;
  model_type : DataType;
  model_details : option (list string)
}.

Record GenerationParameters : Type := mkParams {
  samples : number;
  privacy : number;
  quality : number;
  diversity : number
}.

Record State : Type := mkState {
  currentStep : WorkflowStep;
  uploadedFile : option UploadedFile;
  selectedModel : option ModelConfig;
  params : GenerationParameters;
  generatedData : option Driver.Artifact;
  isGenerating : bool
}.

(** Lines 49-59. *)
Definition initial : State :=
  {| currentStep := upload;
     uploadedFile := None;
     selectedModel := None;
     params := mkParams (of_Z 1000) (of_Z 50) (of_Z 75) (of_Z 60);
     generatedData := None;
     isGenerating := false |}.

(** The array [steps] of lines 109, 115 and 125. *)
Definition order : list WorkflowStep :=
  [upload; model; parameters; generate; results].

(** [Array.prototype.indexOf]: the first position, or -1. *)
Fixpoint indexOf_from (i : Z) (x : WorkflowStep) (l : list WorkflowStep) : Z :=
  match l with
  | [] => (-1)%Z
  | y :: rest => if eqb y x then i else indexOf_from (i + 1) x rest
  end.

Definition indexOf (l : list WorkflowStep) (x : WorkflowStep) : Z :=
  indexOf_from 0 x l.

(** Lines 108-112. *)
Definition getProgressPercentage (st : State) : number :=
  let currentIndex := indexOf order (currentStep st) in
  mul (div (of_Z (currentIndex + 1)) (of_Z (Z.of_nat (List.length order))))
      (of_Z 100).

Inductive StepState : Type :=
| completed
| active
| pending.

(** Lines 114-122. *)
Definition getStepStatus (st : State) (step : WorkflowStep) : StepState :=
  let currentIndex := indexOf order (currentStep st) in
  let stepIndex := indexOf order step in
  if (stepIndex <? currentIndex)%Z then completed
  else if (stepIndex =? currentIndex)%Z then active
  else pending.

Definition setCurrentStep (x : WorkflowStep) (st : State) : State :=
  mkState x (uploadedFile st) (selectedModel st) (params st)
    (generatedData st) (isGenerating st).

(** Lines 124-133. *)
Definition handleStepClick (step : WorkflowStep) (st : State) : State :=
  let currentIndex := indexOf order (currentStep st) in
  let targetIndex := indexOf order step in
  if (targetIndex <=? currentIndex)%Z then setCurrentStep step st else st.

(** The [onClick] of a sidebar entry (lines 174-186). *)
Definition sidebarClick (step : WorkflowStep) (st : State) : State :=
  match getStepStatus st step with
  | completed | active => handleStepClick step st
  | pending => st
  end.

(** Lines 61-78. *)
Definition handleFileUpload (f : UploadedFile) (st : State) : State :=
  mkState model (Some f) (selectedModel st) (params st)
    (generatedData st) (isGenerating st).

Definition handleModelSelect (m : ModelConfig) (st : State) : State :=
  mkState parameters (uploadedFile st) (Some m) (params st)
    (generatedData st) (isGenerating st).

Definition setParameters (p : GenerationParameters) (st : State) : State :=
  mkState (currentStep st) (uploadedFile st) (selectedModel st) p
    (generatedData st) (isGenerating st).

Definition handleParametersSet (p : GenerationParameters) (st : State) : State :=
  setCurrentStep generate (setParameters p st).

Definition handleResultsView (st : State) : State :=
  setCurrentStep results st.

Definition setGeneratedData (d : Driver.Artifact) (st : State) : State :=
  mkState (currentStep st) (uploadedFile st) (selectedModel st) (params st)
    (Some d) (isGenerating st).

(** Lines 100-106. *)
Definition resetWorkflow (st : State) : State :=
  mkState upload None None (params st) None false.

(** What the main pane renders (lines 234-303): each page with the props
    its guard requires, or nothing. *)
Inductive Page : Type :=
| FileUploadPage
| ModelSelectionPage (f : UploadedFile)
| ParameterControlsPage (m : ModelConfig)
| DataGenerationPage (f : option UploadedFile) (m : option ModelConfig)
| ResultsDisplayPage (d : Driver.Artifact)
| Blank.

Definition shown (st : State) : Page :=
  match currentStep st with
  | upload => FileUploadPage
  | model =>
      match uploadedFile st with
      | Some f => ModelSelectionPage f
      | None => Blank
      end
  | parameters =>
      match selectedModel st with
      | Some m => ParameterControlsPage m
      | None => Blank
      end
  | generate => DataGenerationPage (uploadedFile st) (selectedModel st)
  | results =>
      match generatedData st with
      | Some d => ResultsDisplayPage d
      | None => Blank
      end
  end.

(** The callbacks the component hands to its children and to its own
    buttons. *)
Inductive Action : Type :=
| OnFileUpload (f : UploadedFile)
| OnModelSelect (m : ModelConfig)
| OnParametersChange (p : GenerationParameters)
| OnParametersSet (p : GenerationParameters)
| SetGeneratedData (d : Driver.Artifact)
| OnNext
| SidebarClick (step : WorkflowStep)
| NewProject.

Definition apply (a : Action) (st : State) : State :=
  match a with
  | OnFileUpload f => handleFileUpload f st
  | OnModelSelect m => handleModelSelect m st
  | OnParametersChange p => setParameters p st
  | OnParametersSet p => handleParametersSet p st
  | SetGeneratedData d => setGeneratedData d st
  | OnNext => handleResultsView st
  | SidebarClick step => sidebarClick step st
  | NewProject => resetWorkflow st
  end.

End Wizard.

(** ** The step bar ([src/components/workflow-progress.tsx]) *)

Module StepBar.

(** The ids of the array [steps] (lines 9-15). *)
Definition stepIds : list Wizard.WorkflowStep :=
  [Wizard.upload; Wizard.model; Wizard.parameters; Wizard.generate;
   Wizard.results].

(** [steps.findIndex((step) => step.id === currentStep)]. *)
Definition currentIndex (currentStep : Wizard.WorkflowStep) : Z :=
  Wizard.indexOf stepIds currentStep.

(** Lines 24-26, for the step at [index]. *)
Definition isCompleted (currentStep : Wizard.WorkflowStep) (index : Z) : bool :=
  (index <? currentIndex currentStep)%Z.

Definition isCurrent (currentStep : Wizard.WorkflowStep) (index : Z) : bool :=
  (index =? currentIndex currentStep)%Z.

Definition isUpcoming (currentStep : Wizard.WorkflowStep) (index : Z) : bool :=
  (currentIndex currentStep <? index)%Z.

End StepBar.

(** ** The CSV export ([src/components/results-display.tsx], lines 38-65) *)

Module Csv.

Definition quote : ascii := "034"%char.
Definition comma : ascii := ","%char.
Definition LF : ascii := "010"%char.
Definition CR : ascii := "013"%char.


(** A row: a plain object, as the declared type [Record<string, any>]
    says and as [JSON.parse] builds them, given by its own properties in
    the order in which [Object.keys] lists them. *)
Definition Row : Type := list (string * value).

Definition keys (r : Row) : list string := map fst r.

(** The own property [k] of a row, when the row has one. *)
Fixpoint own (k : string) (r : Row) : option value :=
  match r with
  | [] => None
  | (k', v) :: rest => if String.eqb k k' then Some v else own k rest
  end.

(** What a property read can yield: a value as JSON data holds them, or a
    function, which a row can only inherit. *)
Inductive any : Type :=
| Data (v : value)
| Function (name : string).

Section Text.

(** The conversions of [escapeCell] that are the platform's: [String(n)]
    for a number, [JSON.stringify(v)] for an object and [String(f)] for a
    function. *)
Variable numberToString : number -> string.
Variable JSON_stringify : value -> string.
Variable functionToString : string -> string.

(** [Object.prototype], the prototype of every row: the property it holds
    under a name, if any ([constructor], [toString], [hasOwnProperty] and
    the like are functions; the accessor [__proto__] yields an object). *)
Variable prototype : string -> option any.

(** The read [r[h]] of line 60: the own property of the row, or else the
    property that the row inherits, or else [undefined]. *)
Definition readProp (r : Row) (h : string) : any :=
  match own h r with
  | Some v => Data v
  | None =>
      match prototype h with
      | Some x => x
      | None => Data Undefined
      end
  end.

(** Line 50: [typeof val === "object" ? JSON.stringify(val) : String(val)]. *)
Definition rawText (val : any) : string :=
  match val with
  | Data Undefined => "undefined"
  | Data ((Null | Arr _ | Obj _) as v) => JSON_stringify v
  | Data (Bool true) => "true"
  | Data (Bool false) => "false"
  | Data (Num n) => numberToString n
  | Data (Str s) => s
  | Function f => functionToString f
  end.

(** Line 53: every quote of [raw] is replaced by two. *)
Fixpoint doubleQuotes (s : string) : string :=
  match s with
  | EmptyString => EmptyString
  | String c rest =>
      if Ascii.eqb c quote
      then String quote (String quote (doubleQuotes rest))
      else String c (doubleQuotes rest)
  end.

Definition special (c : ascii) : bool :=
  Ascii.eqb c quote || Ascii.eqb c comma || Ascii.eqb c LF || Ascii.eqb c CR.

(** The test of line 54: a quote, a comma, a line feed or a carriage
    return occurs in the string. *)
Fixpoint needsQuotes (s : string) : bool :=
  match s with
  | EmptyString => false
  | String c rest => special c || needsQuotes rest
  end.

(** Lines 53-55, from [raw] on. *)
Definition escapeText (raw : string) : string :=
  let withEscapedQuotes := doubleQuotes raw in
  if needsQuotes withEscapedQuotes
  then String quote (withEscapedQuotes ++ String quote EmptyString)
  else withEscapedQuotes.


(** [headerSet.add(k)]: a [Set] keeps its elements in insertion order. *)
Definition addKey (set : list string) (k : string) : list string :=
  if existsb (String.eqb k) set then set else set ++ [k].

(** Lines 42-44. *)
Definition headers (rows : list Row) : list string :=
  fold_left (fun set r => fold_left addKey (keys r) set) rows [].



(** The text a cell stands for: nothing for [null] and [undefined]. *)
Definition cellText (val : any) : string :=
  match val with
  | Data (Null | Undefined) => EmptyString
  | _ => rawText val
  end.

(** The cell texts of a row, one per column: of the row's own value, or
    where the row has no such key, of what it inherits under that name. *)
Definition cells (hs : list string) (r : Row) : list string :=
  map (fun h => cellText (readProp r h)) hs.

End Text.

(** One line of escaped cells. *)
Definition line (cells : list string) : string :=
  String.concat "," (map escapeText cells).

(** *** A reader of CSV text

    Records are separated by CR LF and fields by commas; a field that
    starts with a quote runs to its closing quote, and inside it two
    quotes stand for one. *)









End Csv.

(** ** The model catalog and the model page (model-selection, in
    [src/unnamed/part_001]) *)

Module Catalog.
Import Wizard.

(** [String.prototype.includes] and [String.prototype.endsWith]. *)
Fixpoint includes (needle s : string) : bool :=
  String.prefix needle s
  || match s with
     | EmptyString => false
     | String _ rest => includes needle rest
     end.

Fixpoint endsWith (suffix s : string) : bool :=
  String.eqb s suffix
  || match s with
     | EmptyString => false
     | String _ rest => endsWith suffix rest
     end.

Definition availableModels : list ModelConfig :=
  [ mkModel "tabular-finetune" "Everyday Table Synthesizer"
      "Best for most tabular data! Create realistic, privacy-safe tables for analytics, sharing, or product demos. Handles numbers, categories, text, and more."
      tabular
      (Some ["Works with: Numbers, categories, text, JSON, events";
             "Privacy: Optional, you choose"]%string);
    mkModel "text-finetune" "Story Spinner"
      "Turn your text into new, privacy-friendly stories, notes, or documents. Great for anonymizing sensitive text or creating training data."
      text
      (Some ["Works with: Text"; "Privacy: Optional, you choose"]%string);
    mkModel "tabular-gan" "Big Data Mixer"
      "For large, complex tables! Quickly remix big datasets (50+ columns) while keeping important relationships between columns intact."
      tabular
      (Some ["Works with: Numbers, categories";
             "Privacy: Not supported"]%string);
    mkModel "tabular-dp" "Privacy Guardian"
      "Need maximum privacy? This model creates safe, basic tables for analytics and reporting—perfect when privacy is your top concern."
      tabular
      (Some ["Works with: Numbers, categories";
             "Privacy: Always on, required"]%string) ].

Definition getDataType (file : UploadedFile) : DataType :=
  if includes "csv" (file_type file)
     || includes "excel" (file_type file)
     || endsWith ".csv" (file_name file)
     || endsWith ".xlsx" (file_name file)
  then tabular
  else if includes "text" (file_type file)
          || endsWith ".txt" (file_name file)
          || endsWith ".json" (file_name file)
  then text
  else image.

Definition sameType (a b : DataType) : bool :=
  match a, b with
  | tabular, tabular | text, text | image, image => true
  | _, _ => false
  end.

(** [availableModels.filter((model) => model.type === detectedType)]. *)
Definition recommendedModels (file : UploadedFile) : list ModelConfig :=
  filter (fun m => sameType (model_type m) (getDataType file)) availableModels.




(** The [accept] table of the dropzone (file-upload, in
    [src/unnamed/part_001]): MIME types and their extensions. *)
Definition accept : list (string * list string) :=
  [ ("text/csv", [".csv"]);
    ("application/json", [".json"]);
    ("text/plain", [".txt"]);
    ("application/vnd.ms-excel", [".xls"]);
    ("application/vnd.openxmlformats-officedocument.spreadsheetml.sheet",
     [".xlsx"]) ]%string.

End Catalog.

(** ** The sample count ([src/components/parameter-controls.tsx]) *)

Module Controls.

Section ParseInt.

(** [Number.parseInt], the platform's. *)
Variable parseInt : string -> number.

(** [n || 0] for a number [n]: 0 when [n] is NaN or zero. *)
Definition orZero (n : number) : number :=
  match n with
  | NaN => of_Z 0
  | Fin q => if Qeq_bool q 0 then of_Z 0 else n
  | _ => n
  end.

(** Lines 29-34: the new parameters, handed to [setLocalParams] and to
    [onParametersChange]. *)
Definition handleSamplesChange (value : string)
    (localParams : Wizard.GenerationParameters)
    : Wizard.GenerationParameters :=
  Wizard.mkParams (orZero (parseInt value))
    (Wizard.privacy localParams) (Wizard.quality localParams)
    (Wizard.diversity localParams).

End ParseInt.

(** The props [DataGeneration] gets from the wizard (lines 282-288 of
    synthetic-data-platform.tsx), as far as the run reads them. *)
Definition propsOf (st : Wizard.State) : Driver.Props :=
  Driver.mkProps
    (match Wizard.uploadedFile st with
     | Some f => Wizard.dataset_id f
     | None => None
     end)
    (Wizard.samples (Wizard.params st)).

End Controls.

(** ** The component around the run (lines 112-141, 343-360 and 487-520) *)

Module Component.
Import Driver.

(** One mounted [DataGeneration]: its state and refs, its [isGenerating]
    and the invocations of [runGenerationPipeline] it has made, each with
    its locals and the [await] it is suspended at. *)
Record Instance : Type := mkInstance {
  store : Store;
  isGenerating : bool;
  runs : list Run
}.

(** Lines 343-360: the effect that follows the mount and every change of
    [isGenerating]. *)
Definition resetWhenIdle (i : Instance) : Instance :=
  if isGenerating i then i
  else
    mkInstance
      {| steps := pendingSteps;
         overallProgress := of_Z 0;
         jobIdRef := None;
         abortRef := false;
         runIdRef := runIdRef (store i);
         generatedData := generatedData (store i);
         nextCalls := nextCalls (store i) |}
      false (runs i).

(** The component after its mount: the initial state and refs of lines
    113-141, and the effect. *)
Definition mount : Instance := resetWhenIdle (mkInstance mounted false []).

(** The [onClick] of lines 511-514, [setIsGenerating(true)] and
    [runGenerationPipeline()], with the props of the render the button
    belongs to.  The button is rendered under [!isGenerating] (line 487):
    once [isGenerating] holds there is no button, and nothing sets
    [isGenerating] back. *)
Definition clickStart (props : Props) (i : Instance) : Instance :=
  if isGenerating i then i
  else
    let (r, s) := runGenerationPipeline props (store i) in
    resetWhenIdle (mkInstance s true (runs i ++ [r])).

Fixpoint replace {A : Type} (k : nat) (x : A) (l : list A) : list A :=
  match l, k with
  | [], _ => []
  | _ :: rest, O => x :: rest
  | y :: rest, S k' => y :: replace k' x rest
  end.

(** The pending [await] of the run at position [k] settles with [e]. *)
Definition settle (k : nat) (e : Event) (i : Instance) : Instance :=
  match nth_error (runs i) k with
  | Some r =>
      let (r', s') := resume r e (store i) in
      mkInstance s' (isGenerating i) (replace k r' (runs i))
  | None => i
  end.

(** What happens to a mounted component: a click on Start Generation, or
    the settlement of an [await] of one of its runs. *)
Inductive Input : Type :=
| ClickStart (props : Props)
| Settle (k : nat) (e : Event).

Definition step (i : Instance) (x : Input) : Instance :=
  match x with
  | ClickStart props => clickStart props i
  | Settle k e => settle k e i
  end.

(** The component after a sequence of such inputs. *)
Definition exec (inputs : list Input) : Instance :=
  fold_left step inputs mount.

(** What holds of a mounted component throughout: the abort flag is down,
    there is no run before the click and one run after it, and the run id
    is that of the run. *)
Definition oneLiveRun (i : Instance) : Prop :=
  abortRef (store i) = false
  /\ (isGenerating i = false -> runs i = [])
  /\ (List.length (runs i) <= 1)%nat
  /\ Forall (fun r => myRun r = runIdRef (store i)) (runs i).

(** A click, the run up to its first poll, a second attempt to click, and
    the answer of the poll. *)
Definition clickedTwice : list Input :=
  [ClickStart Scenario.props] ++ map (Settle 0) Scenario.toPolling
    ++ [ClickStart Scenario.props; Settle 0 (Scenario.statusIs "running" 50)].

End Component.

(** ** The wizard and the generation pages it mounts

    [DataGeneration] is rendered while the current step is [generate]
    (line 274 of synthetic-data-platform.tsx): it is mounted, with fresh
    state and refs, when the step becomes [generate], and unmounted when
    the step becomes another one.  A run that is under way when its page
    is unmounted is not stopped: it goes on with the refs and the
    callbacks it has closed over, [setGeneratedData] and [onNext], and
    they act on the wizard's state at the time they are called.  The
    state of an unmounted component is shown nowhere; the model goes on
    updating it, and only the run itself reads it, through its refs.  In
    the same way [onFileUpload] is called when the reader of [onDrop] has
    loaded, wherever the wizard is by then. *)

Module App.
Import Wizard.

Record World : Type := mkWorld {
  ui : State;
  uploads : nat;                       (* calls of [onDrop] under way *)
  page : option Component.Instance;    (* the mounted [DataGeneration] *)
  gone : list Component.Instance       (* the unmounted ones, latest first *)
}.

Definition start : World := mkWorld initial 0 None [].

(** The mounts and unmounts that a change of the current step brings. *)
Definition render (w : World) : World :=
  match currentStep (ui w), page w with
  | generate, Some _ => w
  | generate, None => mkWorld (ui w) (uploads w) (Some Component.mount) (gone w)
  | _, Some i => mkWorld (ui w) (uploads w) None (i :: gone w)
  | _, None => w
  end.

(** A callback of the wizard is called, and the wizard renders. *)
Definition act (a : Action) (w : World) : World :=
  render (mkWorld (apply a (ui w)) (uploads w) (page w) (gone w)).

(** The callbacks a user can set off: those of the controls on the
    screen.  The model page, the configuration page and the results page
    call theirs from click handlers; the sidebar is always there; the
    button of line 204 is there past the upload step, and the other caller
    of [resetWorkflow], the results page, is past it too. *)
Definition offered (st : State) (a : Action) : bool :=
  match a, shown st with
  | OnModelSelect _, ModelSelectionPage _ => true
  | (OnParametersChange _ | OnParametersSet _), ParameterControlsPage _ => true
  | SidebarClick _, _ => true
  | NewProject, _ => negb (eqb (currentStep st) upload)
  | _, _ => false
  end.

(** The calls of the parent's callbacks that a resumption of a run makes:
    [setGeneratedData] at line 280 and [onNext] at line 339 of
    data-generation.tsx. *)
Definition parentCalls (r : Driver.Run) (e : Driver.Event) : list Action :=
  match Driver.pc r, e with
  | Driver.GenFetch _ _, Driver.GenerateResponse res =>
      match Driver.generationArtifact res with
      | Normal a => [SetGeneratedData a]
      | Throws _ => []
      end
  | Driver.ValPause, Driver.Timer => [OnNext]
  | _, _ => []
  end.

(** The pending [await] of the run at position [k] of a component
    settles: the component afterwards, and the calls made to the parent. *)
Definition settleIn (k : nat) (e : Driver.Event) (i : Component.Instance)
    : Component.Instance * list Action :=
  match nth_error (Component.runs i) k with
  | Some r => (Component.settle k e i, parentCalls r e)
  | None => (i, [])
  end.

Inductive Input : Type :=
| User (a : Action)
| DropFile                          (* a file is dropped and its upload starts *)
| Uploaded (f : UploadedFile)   (* an upload under way calls [onFileUpload] *)
| Start                         (* the Start Generation button *)
| Settle (unmounted : option nat) (k : nat) (e : Driver.Event).

Definition step (w : World) (x : Input) : World :=
  match x with
  | User a => if offered (ui w) a then act a w else w
  | DropFile =>
      match shown (ui w) with
      | FileUploadPage => mkWorld (ui w) (S (uploads w)) (page w) (gone w)
      | _ => w
      end
  | Uploaded f =>
      match uploads w with
      | O => w
      | S n => act (OnFileUpload f) (mkWorld (ui w) n (page w) (gone w))
      end
  | Start =>
      match page w with
      | Some i =>
          mkWorld (ui w) (uploads w)
            (Some (Component.clickStart (Controls.propsOf (ui w)) i)) (gone w)
      | None => w
      end
  | Settle None k e =>
      match page w with
      | Some i =>
          let (i', calls) := settleIn k e i in
          fold_left (fun w' a => act a w') calls
            (mkWorld (ui w) (uploads w) (Some i') (gone w))
      | None => w
      end
  | Settle (Some n) k e =>
      match nth_error (gone w) n with
      | Some i =>
          let (i', calls) := settleIn k e i in
          fold_left (fun w' a => act a w') calls
            (mkWorld (ui w) (uploads w) (page w)
               (Component.replace n i' (gone w)))
      | None => w
      end
  end.

Definition exec (inputs : list Input) : World := fold_left step inputs start.

Definition returned (r : Driver.Run) : bool :=
  match Driver.pc r with
  | Driver.Returned => true
  | _ => false
  end.

(** The components that exist, mounted or not. *)
Definition components (w : World) : list Component.Instance :=
  match page w with
  | Some i => i :: gone w
  | None => gone w
  end.

(** The run has not returned. *)
Definition underWay (r : Driver.Run) : bool := negb (returned r).

(** The run has called [setGeneratedData] and has yet to call [onNext]:
    it is in the loop of lines 329-334 or in the pause of line 338. *)
Definition handedOver (r : Driver.Run) : bool :=
  match Driver.pc r with
  | Driver.ValDelay _ | Driver.ValPause => true
  | _ => false
  end.

(** A run is under way. *)
Definition busy (w : World) : bool :=
  existsb (fun i => existsb underWay (Component.runs i)) (components w).

(** The input is a call of [resetWorkflow]. *)
Definition resets (w : World) (x : Input) : bool :=
  match x with
  | User NewProject => offered (ui w) NewProject
  | _ => false
  end.

(** The workflow is not reset while a run is under way. *)
Fixpoint calm (w : World) (inputs : list Input) : Prop :=
  match inputs with
  | [] => True
  | x :: rest =>
      (resets w x = true -> busy w = false) /\ calm (step w x) rest
  end.

(** One of the runs of the components satisfies [P]. *)
Definition someRun (P : Driver.Run -> bool)
    (comps : list Component.Instance) : Prop :=
  exists i r, In i comps /\ In r (Component.runs i) /\ P r = true.

(** What holds of the wizard's state and of the runs as long as the
    workflow is not reset under a run: the steps past the upload have a
    file and those past the model step a model, a run under way has both,
    and the data of a run that has handed it over is there, as it is on
    the results step. *)
Definition sound (st : State) (comps : list Component.Instance) : Prop :=
  (currentStep st <> upload -> uploadedFile st <> None)
  /\ (currentStep st <> upload -> currentStep st <> model ->
      selectedModel st <> None)
  /\ (someRun underWay comps ->
      uploadedFile st <> None /\ selectedModel st <> None)
  /\ (someRun handedOver comps -> generatedData st <> None)
  /\ (currentStep st = results -> generatedData st <> None).

(** The invariant of the wizard with its generation pages: the above, and
    a mounted generation page means the generate step. *)
Definition settled (w : World) : Prop :=
  sound (ui w) (components w)
  /\ (page w <> None -> currentStep (ui w) = generate).

(** *** Concrete sessions *)

Definition aFile : UploadedFile :=
  mkFile "a.csv" 10 "text/csv" EmptyString (Some "d1"%string).

Definition aModel : ModelConfig :=
  mkModel "tabular-gan" "Big Data Mixer" EmptyString tabular None.

(** From the upload to the click on Start Generation. *)
Definition toStart : list Input :=
  [DropFile; Uploaded aFile; User (OnModelSelect aModel);
   User (OnParametersSet (params initial)); Start].

(** A whole session: the run succeeds on the mounted page, the results
    are shown, and a new project is begun. *)
Definition session : list Input :=
  toStart ++ map (Settle None 0) Scenario.happy ++ [User NewProject].

(** A new project is begun right after the click on Start Generation;
    the run goes on and succeeds with its page unmounted. *)
Definition orphaning : list Input :=
  toStart ++ [User NewProject] ++ map (Settle (Some 0%nat) 0) Scenario.happy.

End App.

(** * Properties *)

(** ** Numbers *)

Lemma Qle_bool_false (x y : Q) : Qle_bool x y = false -> y < x.
Proof.
  intros H. apply Qnot_le_lt. intros Hle.
  apply Qle_bool_iff in Hle. congruence.
Qed.

Lemma in_0_100_fin (a : number) :
  in_0_100 a -> exists q, a = Fin q /\ 0 <= q <= 100.
Proof. destruct a; simpl; try tauto. intros H. eauto. Qed.

(** ** The poller *)

Module PollerFacts.
Import Poller.

(** The clamp does its work on every percent except NaN. *)
Lemma clampPercent_in_range (p : option number) :
  p <> Some NaN -> in_0_100 (clampPercent p).
Proof.
  intros Hp. unfold clampPercent.
  destruct p as [[| |q|]|]; try congruence; simpl.
  - split; [apply Qle_refl | discriminate].
  - destruct (Qle_bool (inject_Z 100) q) eqn:H100; simpl.
    + split; discriminate.
    + apply Qle_bool_false in H100.
      destruct (Qle_bool (inject_Z 0) q) eqn:H0; simpl.
      * apply Qle_bool_iff in H0. split; [exact H0 | apply Qlt_le_weak; exact H100].
      * split; discriminate.
  - split; discriminate.
  - split; discriminate.
Qed.

Lemma clampPercent_fixes_range (q : Q) :
  0 <= q <= 100 -> Js.eq (clampPercent (Some (Fin q))) (Fin q).
Proof.
  intros [H0 H100]. unfold clampPercent. simpl.
  destruct (Qle_bool (inject_Z 100) q) eqn:Hb; simpl.
  - apply Qle_bool_iff in Hb. apply Qle_antisym; assumption.
  - destruct (Qle_bool (inject_Z 0) q) eqn:Hc; simpl.
    + apply Qeq_refl.
    + apply Qle_bool_false in Hc. apply Qle_antisym; [exact H0 | apply Qlt_le_weak; exact Hc].
Qed.

(** The only exception that leaves an iteration is the one of the [catch]
    block. *)
Lemma iteration_raise (o : Opts) (st : State)
    (f : completion Remote.StatusPayload) (ts : list Tick) (m : string) :
  iteration o st f = (ts, Raise m) -> m = "Too many polling errors"%string.
Proof.
  unfold iteration, try_block, catch_block.
  destruct f as [raw | msg]; simpl.
  - repeat match goal with
           | |- context [if ?c then _ else _] => destruct c; simpl
           end; intros H; inversion H; reflexivity.
  - destruct (_ <=? _)%Z; intros H; inversion H; reflexivity.
Qed.

Lemma loop_failure_message (o : Opts) (script : list Observation) :
  forall st ts m, loop o st script = (ts, Failed m) ->
                  m = "Too many polling errors"%string.
Proof.
  induction script as [|ob rest IH]; intros st ts m; cbn [loop].
  - discriminate.
  - destruct (abort_set ob); [discriminate|].
    destruct (iteration o st (fetched ob)) as [ts1 next] eqn:Hit.
    destruct next as [st'| r | m'].
    + destruct (loop o st' rest) as [ts' out] eqn:Hl.
      intros H; inversion H; subst. eapply IH; eassumption.
    + discriminate.
    + intros H; inversion H; subst. eapply iteration_raise; eassumption.
Qed.

(** What an iteration that answers [Return] or [Sleep] has seen. *)
Lemma iteration_return (o : Opts) (st : State)
    (f : completion Remote.StatusPayload) (ts : list Tick) (r : Result) :
  iteration o st f = (ts, Return r) ->
  r = Completed /\ seenRunning st = true /\
  exists p, ts = [mkTick p "completed"].
Proof.
  unfold iteration, try_block, catch_block.
  destruct f as [raw | msg]; simpl.
  - set (s := toLowerCase (Remote.status raw)).
    destruct (String.eqb s "failed" || String.eqb s "error"); simpl.
    + destruct (_ <=? _)%Z; discriminate.
    + destruct (String.eqb s "running") eqn:Hrun.
      * apply String.eqb_eq in Hrun. rewrite Hrun. simpl. discriminate.
      * destruct (String.eqb s "completed") eqn:Hc; simpl; [|discriminate].
        apply String.eqb_eq in Hc.
        destruct (hasDebug o); simpl;
          destruct (seenRunning st) eqn:Hseen; simpl; try discriminate;
          intros H; inversion H; subst; rewrite Hc; eauto.
  - destruct (_ <=? _)%Z; discriminate.
Qed.

Lemma iteration_sleep (o : Opts) (st st' : State)
    (f : completion Remote.StatusPayload) (ts : list Tick) :
  iteration o st f = (ts, Sleep st') ->
  seenRunning st' = seenRunning st \/
  exists p, ts = [mkTick p "running"].
Proof.
  unfold iteration, try_block, catch_block.
  destruct f as [raw | msg]; simpl.
  - set (s := toLowerCase (Remote.status raw)).
    destruct (String.eqb s "failed" || String.eqb s "error"); simpl.
    + destruct (_ <=? _)%Z; [discriminate|].
      destruct (hasDebug o); intros H; inversion H; subst; simpl; auto.
    + destruct (String.eqb s "running") eqn:Hrun.
      * apply String.eqb_eq in Hrun. rewrite Hrun. simpl.
        intros H; inversion H; subst. right. eauto.
      * destruct (String.eqb s "completed" && _); simpl; [discriminate|].
        destruct (hasDebug o); intros H; inversion H; subst; simpl; auto.
  - destruct (_ <=? _)%Z; [discriminate|].
    intros H; inversion H; subst; simpl; auto.
Qed.

Lemma loop_completed (o : Opts) (script : list Observation) :
  forall st ts,
    loop o st script = (ts, Done Completed) ->
    exists before p,
      ts = before ++ [mkTick p "completed"] /\
      (seenRunning st = true \/ exists q, In (mkTick q "running") before).
Proof.
  induction script as [|ob rest IH]; intros st ts; cbn [loop].
  - discriminate.
  - destruct (abort_set ob); [discriminate|].
    destruct (iteration o st (fetched ob)) as [ts1 next] eqn:Hit.
    destruct next as [st'| r | m'].
    + destruct (loop o st' rest) as [ts' out] eqn:Hl.
      intros H; inversion H; subst.
      destruct (IH _ _ Hl) as (before & p & Hts & Hseen).
      exists (ts1 ++ before), p. split.
      * rewrite Hts. apply app_assoc.
      * destruct Hseen as [Hseen | [q Hq]].
        -- destruct (iteration_sleep _ _ _ _ _ Hit) as [Hsame | [q Hq]].
           ++ left. congruence.
           ++ right. exists q. subst ts1. simpl. auto.
        -- right. exists q. apply in_or_app. auto.
    + intros H; inversion H; subst.
      destruct (iteration_return _ _ _ _ _ Hit) as (_ & Hseen & p & Hts).
      exists [], p. auto.
    + discriminate.
Qed.

(** Feeding more observations to a poller that is still polling. *)
Lemma loop_app (o : Opts) (script more : list Observation) :
  forall st ts st',
    loop o st script = (ts, Polling st') ->
    loop o st (script ++ more) =
      (ts ++ fst (loop o st' more), snd (loop o st' more)).
Proof.
  induction script as [|ob rest IH]; intros st ts st'; cbn [loop app].
  - intros H; inversion H; subst. simpl. destruct (loop o st' more); reflexivity.
  - destruct (abort_set ob); [discriminate|].
    destruct (iteration o st (fetched ob)) as [ts1 next] eqn:Hit.
    destruct next as [st1| r | m'].
    + destruct (loop o st1 rest) as [ts' out] eqn:Hl.
      intros H; inversion H; subst.
      rewrite (IH _ _ _ Hl). simpl. rewrite app_assoc. reflexivity.
    + discriminate.
    + discriminate.
Qed.

(** Without [requireRunning] the flag [seenRunning] is set from the start
    and stays set. *)
Lemma loop_keeps_seenRunning (o : Opts) (script : list Observation) :
  forall st ts st',
    seenRunning st = true ->
    loop o st script = (ts, Polling st') ->
    seenRunning st' = true.
Proof.
  induction script as [|ob rest IH]; intros st ts st' Hseen; cbn [loop].
  - intros H; inversion H; subst. exact Hseen.
  - destruct (abort_set ob); [discriminate|].
    destruct (iteration o st (fetched ob)) as [ts1 next] eqn:Hit.
    destruct next as [st1| r | m'].
    + destruct (loop o st1 rest) as [ts' out] eqn:Hl.
      intros H; inversion H; subst.
      eapply IH; [|eassumption].
      revert Hit. unfold iteration, try_block, catch_block.
      destruct (fetched ob) as [raw | msg]; simpl.
      * repeat match goal with
               | |- context [if ?c then _ else _] => destruct c; simpl
               end; intros H1; inversion H1; subst; simpl; auto.
      * destruct (_ <=? _)%Z; intros H1; inversion H1; subst; simpl; auto.
    + discriminate.
    + discriminate.
Qed.

Lemma iteration_on_completed (o : Opts) (st : State)
    (raw : Remote.StatusPayload) :
  seenRunning st = true ->
  safeLower (Str (Remote.status raw)) = "completed"%string ->
  iteration o st (Normal raw) =
    ([mkTick (clampPercent (Remote.percent raw)) "completed"], Return Completed).
Proof.
  intros Hseen Hc. unfold iteration, try_block. rewrite Hc. simpl.
  destruct (hasDebug o); simpl; rewrite Hseen; reflexivity.
Qed.

(** C2.  With [requireRunning] set, the poller answers [completed] only
    after a [running] status was observed before the final [completed] one;
    on the statuses completed, running, completed it is still polling
    after the first and the second observation and answers [completed] on
    the third.  Without [requireRunning], a poller that is still polling
    answers [completed] on the first [completed] status it is shown. *)
Theorem completed_only_after_running :
  (forall o script ticks,
      requireRunning o = true ->
      pollUntilDone o script = (ticks, Done Completed) ->
      exists before p q,
        ticks = before ++ [mkTick p "completed"] /\
        In (mkTick q "running") before)
  /\
  (forall o p1 p2 p3,
      requireRunning o = true ->
      (exists st, snd (pollUntilDone o [ok "completed" p1]) = Polling st) /\
      (exists st,
          snd (pollUntilDone o [ok "completed" p1; ok "running" p2])
          = Polling st) /\
      snd (pollUntilDone o
             [ok "completed" p1; ok "running" p2; ok "completed" p3])
      = Done Completed)
  /\
  (forall o script ticks st raw more,
      requireRunning o = false ->
      pollUntilDone o script = (ticks, Polling st) ->
      safeLower (Str (Remote.status raw)) = "completed"%string ->
      pollUntilDone o (script ++ mkObs false (Normal raw) :: more) =
        (ticks ++ [mkTick (clampPercent (Remote.percent raw)) "completed"],
         Done Completed)).
Proof.
  split; [|split].
  - intros o script ticks Hreq Hrun.
    destruct (loop_completed _ _ _ _ Hrun) as (before & p & Hts & Hseen).
    destruct Hseen as [Hseen | [q Hq]].
    + unfold initial in Hseen. simpl in Hseen. rewrite Hreq in Hseen. discriminate.
    + exists before, p, q. auto.
  - intros [req ms mx dbg] p1 p2 p3 Hreq. simpl in Hreq. subst req.
    unfold pollUntilDone, initial; destruct dbg; cbv - [clampPercent];
      repeat split; eauto.
  - intros o script ticks st raw more Hreq Hrun Hc.
    unfold pollUntilDone in *.
    rewrite (loop_app _ _ _ _ _ _ Hrun).
    assert (Hseen : seenRunning st = true).
    { eapply loop_keeps_seenRunning; [|exact Hrun].
      unfold initial. simpl. rewrite Hreq. reflexivity. }
    cbn [loop abort_set fetched].
    rewrite (iteration_on_completed _ _ _ Hseen Hc). reflexivity.
Qed.

Lemma completed_only_after_running_witness :
  (exists before p q,
      [mkTick (of_Z 0) "completed"; mkTick (of_Z 0) "running";
       mkTick (of_Z 0) "completed"]
      = before ++ [mkTick p "completed"] /\
      In (mkTick q "running") before)
  /\ snd (pollUntilDone (mkOpts true 3000 5 false)
            [ok "completed" None; ok "running" None; ok "completed" None])
     = Done Completed
  /\ pollUntilDone defaults ([ok "pending" None] ++ [ok "completed" None])
     = ([mkTick (of_Z 0) "pending"; mkTick (of_Z 0) "completed"],
        Done Completed).
Proof.
  split; [|split].
  - apply (proj1 completed_only_after_running
             (mkOpts true 3000 5 false)
             [ok "completed" None; ok "running" None; ok "completed" None]);
      reflexivity.
  - apply (proj1 (proj2 completed_only_after_running)
             (mkOpts true 3000 5 false) None None None).
    reflexivity.
  - apply (proj2 (proj2 completed_only_after_running)
             defaults [ok "pending" None] [mkTick (of_Z 0) "pending"]
             (mkState 0 true 0) (Remote.mkPayload "completed" None) []);
      reflexivity.
Defined.

(** No run of the poller ends with the message of line 90. *)
Lemma never_fails_with_job_failed (o : Opts) (script : list Observation) :
  snd (pollUntilDone o script) <> Failed "Job failed on server".
Proof.
  intros Hf. unfold pollUntilDone in Hf.
  destruct (loop o (initial o) script) as [ts out] eqn:Hl.
  simpl in Hf. subst out.
  apply loop_failure_message in Hl. discriminate.
Qed.

(** C3 (the code departs from it).  A [failed] or [error] status does not
    end the poll: the exception raised for it at line 90 is caught by the
    [catch] of line 99 and counted as one more polling error, and the
    poller goes on polling.  Five such statuses in a row end the poll, with
    the message of line 103. *)
Theorem failed_status_is_counted_as_polling_error :
  pollUntilDone defaults [ok "failed" None]
  = ([mkTick (of_Z 0) "failed"], Polling (mkState 1 true 0))
  /\ pollUntilDone defaults [ok "error" None]
     = ([mkTick (of_Z 0) "error"], Polling (mkState 1 true 0))
  /\ snd (pollUntilDone defaults (repeat (ok "failed" None) 5))
     = Failed "Too many polling errors".
Proof.
  split; [|split]; reflexivity.
Qed.

(** C6 (the code departs from it).  A percent of NaN passes through the
    clamp of line 84 and reaches the tick callback as NaN, which is not in
    [0,100].  An absent percent is delivered as 0. *)
Theorem NaN_percent_is_delivered_raw :
  clampPercent (Some NaN) = NaN
  /\ fst (pollUntilDone defaults [ok "running" (Some NaN)])
     = [mkTick NaN "running"]
  /\ in_0_100 NaN = False
  /\ clampPercent None = of_Z 0.
Proof.
  split; [|split; [|split]]; reflexivity.
Qed.

(** C7.  With the threshold at 5, five fetch failures in a row end the
    poll with the message of line 103; four failures followed by a fetch
    that succeeds with a status other than failed, error and completed
    leave the poller polling with its error count back at 0, so that four
    more failures still do not end it. *)
Theorem five_errors_fail_four_then_success_continue :
  forall o,
    maxConsecutiveErrors o = 5%Z ->
    pollUntilDone o (repeat failure 5) = ([], Failed "Too many polling errors")
    /\
    forall raw,
      safeLower (Str (Remote.status raw)) <> "failed"%string ->
      safeLower (Str (Remote.status raw)) <> "error"%string ->
      safeLower (Str (Remote.status raw)) <> "completed"%string ->
      (exists st,
          pollUntilDone o (repeat failure 4 ++ [mkObs false (Normal raw)])
          = ([mkTick (clampPercent (Remote.percent raw))
                (safeLower (Str (Remote.status raw)))],
             Polling st)
          /\ errors st = 0%Z)
      /\
      (exists st,
          snd (pollUntilDone o
                 (repeat failure 4 ++ [mkObs false (Normal raw)]
                    ++ repeat failure 4))
          = Polling st
          /\ errors st = 4%Z).
Proof.
  intros [req ms mx dbg] Hmx. simpl in Hmx. subst mx. split.
  - reflexivity.
  - intros raw Hf He Hc.
    apply String.eqb_neq in Hf, He, Hc.
    unfold pollUntilDone, initial, iteration, try_block, catch_block.
    cbn - [safeLower clampPercent String.eqb].
    unfold iteration, try_block, catch_block.
    cbn - [safeLower clampPercent String.eqb].
    rewrite Hf, He, Hc.
    destruct dbg; cbn - [safeLower clampPercent String.eqb];
      split; eexists; split; reflexivity.
Qed.

Lemma five_errors_fail_four_then_success_continue_witness :
  pollUntilDone defaults (repeat failure 5)
  = ([], Failed "Too many polling errors")
  /\ exists st,
      pollUntilDone defaults (repeat failure 4 ++ [ok "running" None])
      = ([mkTick (of_Z 0) "running"], Polling st)
      /\ errors st = 0%Z.
Proof.
  split.
  - apply (five_errors_fail_four_then_success_continue defaults eq_refl).
  - apply (proj2 (five_errors_fail_four_then_success_continue defaults eq_refl)
             (Remote.mkPayload "running" None));
      discriminate.
Defined.

End PollerFacts.

(** ** The weighted progress *)

Module AggregatorFacts.
Import Driver Aggregator.

Lemma overallInTraining_fin (q : Q) :
  overallInTraining (Fin q) = Fin (inject_Z 25 + q / inject_Z 100 * inject_Z 35).
Proof. reflexivity. Qed.

Lemma overallInPreprocessing_fin (q : Q) :
  overallInPreprocessing (Fin q) = Fin (q / inject_Z 100 * inject_Z 25).
Proof. reflexivity. Qed.

Lemma overallInValidation_fin (q : Q) :
  overallInValidation (Fin q)
  = Fin (inject_Z 25 + inject_Z 35 + inject_Z 30 + q / inject_Z 100 * inject_Z 10).
Proof. reflexivity. Qed.

(** Evaluates the closed weights of a goal and leaves it to [lra]. *)
Ltac q_arith :=
  unfold overall;
  repeat match goal with
         | |- context [cumulative ?k] =>
             let v := eval vm_compute in (cumulative k) in
             change (cumulative k) with v
         | |- context [weightOf ?k] =>
             let v := eval vm_compute in (weightOf k) in
             change (weightOf k) with v
         | |- context [inject_Z ?z] =>
             let v := eval vm_compute in (inject_Z z) in
             change (inject_Z z) with v
         end;
  unfold Qdiv; change (/ 100) with (1 # 100);
  lra.

(** C8.  For a local progress [p] in [0,100], what the driver computes in
    preprocessing, training and validation (the phases in which it
    computes one) is the sum of the weights of the earlier phases plus
    [p / 100] of the weight of the phase itself, with the weights 25, 35,
    30 and 10; the value lies in [0,100]; and at [p = 100] it is the
    cumulative weight of the phases up to and including that phase.  These
    are the values the driver stores: on every training tick, and after
    every increment of the two simulated phases. *)
Theorem overall_progress_is_weighted_sum (p : Q) :
  0 <= p <= 100 ->
  (Js.eq (overallInPreprocessing (Fin p)) (Fin (overall 0 p)) /\
   Js.eq (overallInTraining (Fin p)) (Fin (overall 1 p)) /\
   Js.eq (overallInValidation (Fin p)) (Fin (overall 3 p)))
  /\
  (in_0_100 (overallInPreprocessing (Fin p)) /\
   in_0_100 (overallInTraining (Fin p)) /\
   in_0_100 (overallInValidation (Fin p)))
  /\
  (Js.eq (overallInPreprocessing (Fin 100)) (Fin (cumulative 1)) /\
   Js.eq (overallInTraining (Fin 100)) (Fin (cumulative 2)) /\
   Js.eq (overallInValidation (Fin 100)) (Fin (cumulative 4)))
  /\
  ((forall s t,
       overallProgress (onTick s t) = overallInTraining (Poller.tick_percent t))
   /\ (forall r s z,
          pc r = PreDelay z -> (z + 20 <= 100)%Z ->
          overallProgress (snd (resume r Timer s))
          = overallInPreprocessing (of_Z z))
   /\ (forall r s z,
          pc r = ValDelay z -> (z + 20 <= 100)%Z ->
          overallProgress (snd (resume r Timer s))
          = overallInValidation (of_Z z)))
  /\
  phaseWeights = [25; 35; 30; 10]%Z
  /\
  (forall k, (k < 4)%nat ->
             0 <= overall k p <= 100 /\ overall k 100 == cumulative (S k)).
Proof.
  intros [Hlo Hhi]. split; [|split; [|split; [|split; [|split]]]].
  - rewrite overallInPreprocessing_fin, overallInTraining_fin,
      overallInValidation_fin.
    repeat split; simpl; q_arith.
  - rewrite overallInPreprocessing_fin, overallInTraining_fin,
      overallInValidation_fin.
    repeat split; simpl; q_arith.
  - rewrite !overallInPreprocessing_fin, !overallInTraining_fin,
      !overallInValidation_fin.
    repeat split; simpl; q_arith.
  - split; [reflexivity|].
    split; intros r s z Hpc Hz; apply Z.leb_le in Hz;
      unfold resume, preprocessingLoop, validationLoop;
      rewrite Hpc, Hz; destruct (cancelled _ _); reflexivity.
  - reflexivity.
  - intros k Hk.
    destruct k as [|[|[|[|k]]]]; try lia; repeat split; q_arith.
Qed.

Lemma overall_progress_is_weighted_sum_witness :
  Js.eq (overallInTraining (Fin 40)) (Fin (overall 1 40))
  /\ in_0_100 (overallInTraining (Fin 40))
  /\ overall 1 100 == cumulative 2.
Proof.
  assert (H : 0 <= 40 <= 100) by (split; discriminate).
  split; [|split].
  - apply (proj1 (overall_progress_is_weighted_sum 40 H)).
  - apply (proj1 (proj2 (overall_progress_is_weighted_sum 40 H))).
  - apply (proj2 (proj2 (proj2 (proj2 (proj2
             (overall_progress_is_weighted_sum 40 H))))) 1%nat).
    lia.
Defined.

End AggregatorFacts.

(** ** The driver *)

Module DriverFacts.
Import Driver Scenario Spec.

Lemma assertCompleted_not_completed_stops (r : Run) (s : Store)
    (job : option string) (res : response Remote.StatusPayload) :
  pc r = SanityFetch job ->
  assertCompleted res = Normal false ->
  resume r (StatusResponse res) s = (goto r Returned, markError 1 s).
Proof. intros Hpc Ha. unfold resume. rewrite Hpc, Ha. reflexivity. Qed.

Lemma assertCompleted_throws_proceeds (r : Run) (s : Store)
    (job : option string) (res : response Remote.StatusPayload) (m : string) :
  pc r = SanityFetch job ->
  assertCompleted res = Throws m ->
  resume r (StatusResponse res) s = startGeneration r s.
Proof. intros Hpc Ha. unfold resume. rewrite Hpc, Ha. reflexivity. Qed.

(** A run that has returned does nothing more. *)
Lemma returned_is_final (r : Run) (s : Store) (events : list Event) :
  pc r = Returned -> feed r s events = (r, s).
Proof.
  intros Hpc. induction events as [|e rest IH]; simpl.
  - reflexivity.
  - unfold resume. rewrite Hpc. destruct e; exact IH.
Qed.

(** The guards of lines 183, 265 and 330 stop a run that is cancelled or
    superseded, and leave the store as it is. *)
Lemma guarded_checkpoints_stop (r : Run) (s : Store) :
  cancelled r s = true ->
  (forall p, (p <= 100)%Z -> preprocessingLoop r p s = (goto r Returned, s))
  /\ startGeneration r s = (goto r Returned, s)
  /\ (forall p, (p <= 100)%Z -> validationLoop r p s = (goto r Returned, s)).
Proof.
  intros Hc. unfold preprocessingLoop, startGeneration, validationLoop.
  rewrite Hc. repeat split; intros p Hp; apply Z.leb_le in Hp;
    rewrite Hp; reflexivity.
Qed.

(** The head of the poller's loop looks at the abort flag alone: a run
    that is superseded, with the flag down, fetches again. *)
Lemma poll_head_ignores_run_id (r : Run) (st : Poller.State) (s : Store) :
  abortRef s = false ->
  pollHead r st s = (goto r (TrainPollFetch st), s).
Proof. intros Ha. unfold pollHead. rewrite Ha. reflexivity. Qed.

(** What the guard of the render keeps from happening (see
    [Component.clickStart]).  Were [runGenerationPipeline] entered a second
    time on the same state and refs while a first run is suspended in the
    poller's fetch, the first run would not stop: the tick then delivered
    to it would be applied, phase 2 would show 50 percent and the overall
    progress 42.5, the head of the poller's loop would let it fetch again,
    and a completed status would make it mark phase 2 completed and set
    the overall progress to 60, in the store that the second run has
    reset. *)
Lemma second_entry_would_not_stop_a_polling_run :
  let (r0, s0) := runGenerationPipeline props mounted in
  let (r1, s1) := feed r0 s0 toPolling in
  let (r2, s2) := runGenerationPipeline props s1 in
  let (r1a, s3) := resume r1 (statusIs "running" 50) s2 in
  let (r1b, s4) := feed r1a s3 [Timer; statusIs "completed" 100] in
  (myRun r1 = 1%Z /\ pc r1 = TrainPollFetch (Poller.initial trainingPoll))
  /\ (runIdRef s2 = 2%Z /\ myRun r2 = 2%Z /\ cancelled r1 s2 = true
      /\ progressOf 1 s2 = Some (of_Z 0)
      /\ overallProgress s2 = of_Z 0)
  /\ (progressOf 1 s3 = Some (of_Z 50)
      /\ Js.eq (overallProgress s3) (Fin (85 # 2))
      /\ cancelled r1a s3 = true)
  /\ (pc r1b = TrainPause
      /\ statusOf 0 s4 = running
      /\ statusOf 1 s4 = completed
      /\ Js.eq (overallProgress s4) (Fin 60)).
Proof. vm_compute. repeat split. Qed.

(** C4 (the code departs from it).  When the re-fetch of the sanity
    re-check itself fails, the [catch] of line 261 only logs: the run goes
    on, marks phase 3 running and issues the generation request, and
    phase 2 stays completed. *)
Theorem failed_sanity_fetch_lets_generation_start :
  let (r0, s0) := runGenerationPipeline props mounted in
  let (r1, s1) := feed r0 s0 toSanity in
  let (r2, s2) := resume r1 (StatusResponse NetworkError) s1 in
  (pc r1 = SanityFetch (Some "j1"%string) /\ statusOf 1 s1 = completed)
  /\ pc r2 = GenFetch (Some "j1"%string) (of_Z 100000)
  /\ statusOf 1 s2 = completed
  /\ statusOf 2 s2 = running.
Proof. vm_compute. repeat split. Qed.

(** C5, as written, fails: a successful response whose body has no
    [job_id] does not stop the run.  The job id becomes the empty string,
    phase 2 stays running and the poller's first fetch is issued. *)
Lemma response_without_job_id_is_polled :
  let (r0, s0) := runGenerationPipeline props mounted in
  let (r1, s1) := feed r0 s0 (timers 7) in
  let (r2, s2) := resume r1 trainNoId s1 in
  pc r1 = TrainPost "adsgan" "d1"
  /\ pc r2 = TrainPollFetch (Poller.initial trainingPoll)
  /\ jobId r2 = Some EmptyString
  /\ jobIdRef s2 = Some EmptyString
  /\ statusOf 1 s2 = running.
Proof. vm_compute. repeat split. Qed.

(** *** Reading the steps after an update *)

Lemma nth_error_mapi_from {A B : Type} (f : A -> nat -> B) (l : list A) :
  forall i k,
    nth_error (mapi_from i f l) k
    = option_map (fun x => f x (i + k)%nat) (nth_error l k).
Proof.
  induction l as [|x l IH]; intros i k.
  - destruct k; reflexivity.
  - destruct k as [|k]; simpl.
    + rewrite Nat.add_0_r. reflexivity.
    + rewrite IH. rewrite Nat.add_succ_r. reflexivity.
Qed.

Lemma statusOf_setSteps (f : GenerationStep -> nat -> GenerationStep)
    (k : nat) (s : Store) :
  statusOf k (setSteps f s)
  = match nth_error (steps s) k with
    | Some st => status (f st k)
    | None => pending
    end.
Proof.
  unfold statusOf, setSteps, mapi. simpl.
  rewrite nth_error_mapi_from. simpl.
  destruct (nth_error (steps s) k); reflexivity.
Qed.

Lemma statusOf_markError_same (k : nat) (s : Store) :
  statusOf k s = running -> statusOf k (markError k s) = error.
Proof.
  unfold markError. rewrite statusOf_setSteps. unfold statusOf, at_index.
  destruct (nth_error (steps s) k); [|discriminate].
  rewrite Nat.eqb_refl. reflexivity.
Qed.

Lemma statusOf_markError_other (j k : nat) (s : Store) :
  k <> j -> statusOf k (markError j s) = statusOf k s.
Proof.
  intros Hk. unfold markError. rewrite statusOf_setSteps.
  unfold statusOf, at_index.
  destruct (nth_error (steps s) k); [|reflexivity].
  apply Nat.eqb_neq in Hk. rewrite Hk. reflexivity.
Qed.

(** C5, amended.  When the training request is rejected, answers with a
    non-success response, or answers with a body that is not JSON or is
    null, phase 2 goes from running to error, nothing else in the store
    changes, and the run has returned: no event makes it poll or start a
    later phase.  When the response is a success with a body, the run goes
    on to poll; the job id is the body's [job_id] when that is a string
    and the empty string otherwise. *)
Theorem rejected_training_start_is_hard_failure
    (r : Run) (s : Store) (m d : string) (res : response value) :
  pc r = TrainPost m d ->
  (startRejected res = true ->
   resume r (TrainResponse res) s = (goto r Returned, markError 1 s)
   /\ (statusOf 1 s = running -> statusOf 1 (markError 1 s) = error)
   /\ (forall k, k <> 1%nat -> statusOf k (markError 1 s) = statusOf k s)
   /\ overallProgress (markError 1 s) = overallProgress s
   /\ jobIdRef (markError 1 s) = jobIdRef s
   /\ forall events,
       feed (goto r Returned) (markError 1 s) events
       = (goto r Returned, markError 1 s))
  /\
  (startRejected res = false ->
   abortRef s = false ->
   exists j,
     trainingJobId res = Normal j
     /\ resume r (TrainResponse res) s
        = (goto (with_jobId r j) (TrainPollFetch (Poller.initial trainingPoll)),
           setJobIdRef (Some j) s)
     /\ forall data,
         res = Http true (Some data) ->
         (forall x, get data "job_id" <> Normal (Str x)) ->
         j = EmptyString).
Proof.
  intros Hpc. split.
  - intros Hrej.
    assert (Hthrow : exists msg, trainingJobId res = Throws msg).
    { destruct res as [|[|] [data|]]; simpl in *; eauto.
      destruct data; simpl in *; try discriminate; eauto. }
    destruct Hthrow as [msg Hthrow].
    repeat split.
    + unfold resume. rewrite Hpc, Hthrow. reflexivity.
    + apply statusOf_markError_same.
    + intros k Hk. apply statusOf_markError_other. exact Hk.
    + intros events. apply returned_is_final. reflexivity.
  - intros Hrej Habort.
    destruct res as [|[|] [data|]]; simpl in Hrej; try discriminate.
    assert (Hget : exists v, get data "job_id" = Normal v).
    { destruct data; simpl in *; try discriminate; eauto. }
    destruct Hget as [v Hget].
    exists (match v with Str j => j | _ => EmptyString end).
    assert (Hid : trainingJobId (Http true (Some data))
                  = Normal (match v with Str j => j | _ => EmptyString end)).
    { unfold trainingJobId. rewrite Hget. destruct v; reflexivity. }
    repeat split.
    + exact Hid.
    + unfold resume. rewrite Hpc, Hid. unfold pollHead.
      cbn [abortRef setJobIdRef]. rewrite Habort. reflexivity.
    + intros data' Heq Hno. inversion Heq; subst data'.
      destruct v as [| | | |x| |]; try reflexivity.
      exfalso. apply (Hno x). exact Hget.
Qed.

Lemma rejected_training_start_is_hard_failure_witness :
  let r := mkRun 1 "d1" "adsgan" (of_Z 1000) None (TrainPost "adsgan" "d1") in
  resume r (TrainResponse (Http false None)) mounted
  = (goto r Returned, markError 1 mounted)
  /\ exists j,
      trainingJobId (Http true (Some (Obj []))) = Normal j
      /\ resume r trainNoId mounted
         = (goto (with_jobId r j)
              (TrainPollFetch (Poller.initial trainingPoll)),
            setJobIdRef (Some j) mounted)
      /\ forall data,
          Http true (Some (Obj [])) = Http true (Some data) ->
          (forall x, get data "job_id" <> Normal (Str x)) ->
          j = EmptyString.
Proof.
  split.
  - apply (proj1 (rejected_training_start_is_hard_failure
                    (mkRun 1 "d1" "adsgan" (of_Z 1000) None
                       (TrainPost "adsgan" "d1"))
                    mounted "adsgan" "d1" (Http false None) eq_refl)).
    reflexivity.
  - apply (proj2 (rejected_training_start_is_hard_failure
                    (mkRun 1 "d1" "adsgan" (of_Z 1000) None
                       (TrainPost "adsgan" "d1"))
                    mounted "adsgan" "d1" (Http true (Some (Obj []))) eq_refl));
      reflexivity.
Defined.

(** *** Overall progress along a run *)

Lemma nondecreasing_at (l : list number) :
  forall n a b,
    nondecreasing l ->
    nth_error l n = Some a ->
    nth_error l (S n) = Some b ->
    Js.le a b.
Proof.
  induction l as [|x l IH]; intros n a b Hl Ha Hb.
  - destruct n; discriminate.
  - destruct l as [|y l]; [destruct n; discriminate|].
    destruct Hl as [Hxy Hrest].
    destruct n as [|n].
    + simpl in Ha, Hb. inversion Ha; inversion Hb; subst. exact Hxy.
    + apply (IH n); assumption.
Qed.

(** C9, as written, fails: the backend reports 80 percent and then 40
    percent, and the overall progress goes from 53 down to 39. *)
Lemma overall_progress_follows_backend_down :
  nth_error (map overallProgress (history props mounted backwards)) 10
  = Some (overallInTraining (Poller.clampPercent (Some (of_Z 80))))
  /\ nth_error (map overallProgress (history props mounted backwards)) 11
     = Some (overallInTraining (Poller.clampPercent (Some (of_Z 80))))
  /\ nth_error (map overallProgress (history props mounted backwards)) 12
     = Some (overallInTraining (Poller.clampPercent (Some (of_Z 40))))
  /\ Js.eq (overallInTraining (Poller.clampPercent (Some (of_Z 80)))) (Fin 53)
  /\ Js.eq (overallInTraining (Poller.clampPercent (Some (of_Z 40)))) (Fin 39)
  /\ ~ nondecreasing (map overallProgress (history props mounted backwards)).
Proof.
  split; [reflexivity|].
  split; [reflexivity|].
  split; [reflexivity|].
  split; [vm_compute; reflexivity|].
  split; [vm_compute; reflexivity|].
  intros Hmono.
  assert (Hle : Js.le (overallInTraining (Poller.clampPercent (Some (of_Z 80))))
                      (overallInTraining (Poller.clampPercent (Some (of_Z 40))))).
  { apply (nondecreasing_at _ 11 _ _ Hmono); reflexivity. }
  vm_compute in Hle. apply Hle. reflexivity.
Qed.

Lemma clampPercent_cases (p : option number) :
  Poller.clampPercent p = NaN \/ in_0_100 (Poller.clampPercent p).
Proof.
  destruct p as [[| |q|]|];
    try (left; reflexivity);
    right; apply PollerFacts.clampPercent_in_range; discriminate.
Qed.

Lemma delivered_try_block (o : Poller.Opts) (st : Poller.State)
    (f : completion Remote.StatusPayload) :
  fst (Poller.iteration o st f)
  = match f with
    | Normal raw =>
        [Poller.mkTick (Poller.clampPercent (Remote.percent raw))
           (safeLower (Str (Remote.status raw)))]
    | Throws _ => []
    end.
Proof.
  unfold Poller.iteration, Poller.try_block. destruct f as [raw|msg]; simpl.
  - repeat match goal with
           | |- context [if ?c then _ else _] => destruct c; simpl
           end; reflexivity.
  - reflexivity.
Qed.

(** An iteration never answers ["aborted"]: that is the loop head's. *)
Lemma iteration_not_aborted (o : Poller.Opts) (st : Poller.State)
    (f : completion Remote.StatusPayload) :
  snd (Poller.iteration o st f) <> Poller.Return Poller.Aborted.
Proof.
  destruct (Poller.iteration o st f) as [ts next] eqn:Hit. simpl.
  intros Hn. subst next.
  apply PollerFacts.iteration_return in Hit. destruct Hit as [Hr _].
  discriminate.
Qed.

Lemma inject_Z_range (p : Z) :
  (0 <= p <= 100)%Z -> 0 <= inject_Z p <= 100.
Proof.
  intros [H0 H100]. split.
  - change 0 with (inject_Z 0). rewrite <- Zle_Qle. exact H0.
  - change 100 with (inject_Z 100). rewrite <- Zle_Qle. exact H100.
Qed.

Ltac q_consts :=
  change (inject_Z 0) with 0 in *;
  change (inject_Z 10) with 10 in *;
  change (inject_Z 20) with 20 in *;
  change (inject_Z 25) with 25 in *;
  change (inject_Z 30) with 30 in *;
  change (inject_Z 35) with 35 in *;
  change (inject_Z 100) with 100 in *;
  unfold Qdiv in *;
  change (/ 100) with (1 # 100) in *.

Lemma ceiling_mono (lo lo' : Q) (l : Pc) (v : Q) :
  lo <= lo' -> ceiling lo l v -> ceiling lo' l v.
Proof.
  intros Hlo. destruct l; simpl; try tauto; intros H; q_consts; lra.
Qed.

Lemma percents_step (lo : Q) (e : Event) (rest : list Event) :
  0 <= lo <= 100 ->
  nondecreasing (Fin lo :: percentsOf (e :: rest)) ->
  exists lo',
    lo <= lo' /\ lo' <= 100
    /\ nondecreasing (Fin lo' :: percentsOf rest)
    /\ forall res raw,
        e = StatusResponse res ->
        fetchStatus res = Normal raw ->
        Poller.clampPercent (Remote.percent raw) = Fin lo'.
Proof.
  intros [H0 H100] Hmono.
  assert (Hsame : nondecreasing (Fin lo :: percentsOf rest) ->
                  (forall res raw, e = StatusResponse res ->
                                   fetchStatus res = Normal raw -> False) ->
                  exists lo',
                    lo <= lo' /\ lo' <= 100
                    /\ nondecreasing (Fin lo' :: percentsOf rest)
                    /\ forall res raw,
                        e = StatusResponse res ->
                        fetchStatus res = Normal raw ->
                        Poller.clampPercent (Remote.percent raw) = Fin lo').
  { intros Hm Hno. exists lo. repeat split; try assumption.
    - apply Qle_refl.
    - intros res raw He Hf. exfalso. eapply Hno; eassumption. }
  destruct e as [|res|res|res]; cbn [percentsOf] in Hmono;
    try (apply Hsame; [exact Hmono | intros ? ? He; discriminate He]).
  destruct (fetchStatus res) as [raw|msg] eqn:Hf.
  - cbn [nondecreasing] in Hmono. destruct Hmono as [Hle Hrest].
    destruct (clampPercent_cases (Remote.percent raw)) as [Hnan | Hin].
    + rewrite Hnan in Hle. simpl in Hle. contradiction.
    + destruct (in_0_100_fin _ Hin) as (q & Hq & Hq0 & Hq100).
      rewrite Hq in Hle, Hrest. simpl in Hle.
      exists q. repeat split; try assumption.
      intros res' raw' He Hf'. inversion He; subst res'.
      rewrite Hf in Hf'. inversion Hf'; subst raw'. exact Hq.
  - apply Hsame; [exact Hmono|].
    intros res' raw' He Hf'. inversion He; subst res'.
    rewrite Hf in Hf'. discriminate.
Qed.

Ltac q_close :=
  repeat split; try lia; try apply Qle_refl;
  rewrite ?inject_Z_plus; q_consts; try lra.

(** One resumption never lowers the overall progress, and leaves it below
    what the run sets next. *)
Lemma overall_step (lo lo' : Q) (r : Run) (s : Store) (v : Q) (e : Event) :
  0 <= lo -> lo <= lo' -> lo' <= 100 ->
  overallProgress s = Fin v ->
  ceiling lo (pc r) v ->
  (forall res raw,
      e = StatusResponse res ->
      fetchStatus res = Normal raw ->
      Poller.clampPercent (Remote.percent raw) = Fin lo') ->
  exists v',
    overallProgress (snd (resume r e s)) = Fin v'
    /\ v <= v'
    /\ ceiling lo' (pc (fst (resume r e s))) v'.
Proof.
  intros H0 Hlo H100 Hv Hceil Htick.
  assert (Hstay : ceiling lo' (pc r) v) by (eapply ceiling_mono; eassumption).
  unfold resume.
  destruct (pc r) as [p| |mn ds|st|st| |job|job count|p| |] eqn:Hpc;
    destruct e as [|res|res|res];
    try (exists v; cbn [fst snd]; rewrite Hpc;
         split; [exact Hv | split; [apply Qle_refl | exact Hstay]]).
  - (* PreDelay *)
    cbn [ceiling] in Hceil. destruct Hceil as [Hp Hvp].
    pose proof (inject_Z_range p Hp) as [Hq0 Hq100].
    unfold preprocessingLoop.
    destruct (p + 20 <=? 100)%Z eqn:Hnext;
      [apply Z.leb_le in Hnext; destruct (cancelled r _)|];
      eexists; cbn; (split; [reflexivity|]); q_close.
  - (* PrePause *)
    exists v. cbn. cbn [ceiling] in Hceil. q_close; assumption.
  - (* TrainPost *)
    cbn [ceiling] in Hceil.
    destruct (trainingJobId res) as [j|msg]; [unfold pollHead|];
      [destruct (abortRef _)|]; exists v; cbn; q_close; try assumption.
  - (* TrainPollFetch *)
    cbn [ceiling] in Hceil.
    pose proof (delivered_try_block trainingPoll st (fetchStatus res)) as Hticks.
    pose proof (iteration_not_aborted trainingPoll st (fetchStatus res)) as Hna.
    destruct (Poller.iteration trainingPoll st (fetchStatus res)) as [ticks next].
    cbn [fst snd] in Hticks, Hna. subst ticks.
    destruct (fetchStatus res) as [raw|msg] eqn:Hf.
    + rewrite (Htick res raw eq_refl Hf).
      destruct next as [st'|[|]|why];
        try (exfalso; apply Hna; reflexivity);
        eexists; cbn; (split; [reflexivity|]); q_close.
    + destruct next as [st'|[|]|why];
        try (exfalso; apply Hna; reflexivity);
        eexists; cbn; (split; [try exact Hv; reflexivity|]); q_close.
  - (* TrainPollSleep *)
    cbn [ceiling] in Hceil. unfold pollHead.
    destruct (abortRef s); exists v; cbn; q_close; assumption.
  - (* TrainPause *)
    exists v. cbn. cbn [ceiling] in Hceil. q_close; assumption.
  - (* SanityFetch *)
    cbn [ceiling] in Hceil.
    destruct (assertCompleted res) as [[|]|msg]; unfold startGeneration;
      try destruct (cancelled r s); exists v; cbn; q_close; assumption.
  - (* GenFetch *)
    cbn [ceiling] in Hceil.
    destruct (generationArtifact res) as [a|msg]; unfold validationLoop;
      [destruct (cancelled r _)|]; exists v; cbn; q_close; assumption.
  - (* ValDelay *)
    cbn [ceiling] in Hceil. destruct Hceil as [Hp Hvp].
    pose proof (inject_Z_range p Hp) as [Hq0 Hq100].
    unfold validationLoop.
    destruct (p + 20 <=? 100)%Z eqn:Hnext;
      [apply Z.leb_le in Hnext; destruct (cancelled r _)|];
      eexists; cbn; (split; [reflexivity|]); q_close.
  - (* ValPause *)
    exists v. cbn. q_close; assumption.
Qed.

Lemma overall_nondecreasing_from (events : list Event) :
  forall lo r s v,
    0 <= lo <= 100 ->
    overallProgress s = Fin v ->
    ceiling lo (pc r) v ->
    nondecreasing (Fin lo :: percentsOf events) ->
    nondecreasing (map overallProgress (s :: trace r s events)).
Proof.
  induction events as [|e rest IH]; intros lo r s v Hlo Hv Hceil Hmono.
  - exact I.
  - destruct (percents_step lo e rest Hlo Hmono)
      as (lo' & Hle & H100 & Hrest & Htick).
    destruct Hlo as [H0 _].
    destruct (overall_step lo lo' r s v e H0 Hle H100 Hv Hceil Htick)
      as (v' & Hv' & Hvv' & Hceil').
    cbn [trace]. destruct (resume r e s) as [r' s'].
    cbn [fst snd] in Hv', Hceil'.
    change (Js.le (overallProgress s) (overallProgress s')
            /\ nondecreasing (map overallProgress (s' :: trace r' s' rest))).
    split.
    + rewrite Hv, Hv'. exact Hvv'.
    + apply (IH lo' r' s' v'); try assumption.
      split; [apply (Qle_trans _ lo); assumption | assumption].
Qed.

(** C9, amended.  Every run starts with the overall progress at 0, and
    from there the overall progress never decreases from one suspension of
    the run to the next, whatever the events, provided that the percents
    the status endpoint reports are never NaN and never decrease. *)
Theorem overall_progress_nondecreasing_for_steady_backend
    (p : Props) (s : Store) (events : list Event) :
  steadyPercents events ->
  overallProgress (reset s) = of_Z 0
  /\ nondecreasing (map overallProgress (history p s events)).
Proof.
  intros Hsteady. split; [reflexivity|].
  unfold history. destruct (enter p (reset s)) as [r s1] eqn:Henter.
  assert (Hs1 : overallProgress s1 = Fin 0 /\ ceiling 0 (pc r) 0).
  { revert Henter. unfold enter, preprocessingLoop.
    change (0 <=? 100)%Z with true. cbv iota.
    destruct (cancelled _ _); intros H; inversion H; subst; cbn; q_close. }
  destruct Hs1 as [Hv Hceil].
  change (Js.le (overallProgress (reset s)) (overallProgress s1)
          /\ nondecreasing (map overallProgress (s1 :: trace r s1 events))).
  split.
  - rewrite Hv. simpl. discriminate.
  - apply (overall_nondecreasing_from events 0 r s1 0); try assumption.
    split; discriminate.
Qed.

Lemma overall_progress_nondecreasing_for_steady_backend_witness :
  steadyPercents happy
  /\ nondecreasing (map overallProgress (history props mounted happy)).
Proof.
  assert (H : steadyPercents happy).
  { cbv. repeat split; intro H; discriminate H. }
  split.
  - exact H.
  - apply (overall_progress_nondecreasing_for_steady_backend props mounted happy H).
Defined.

(** *** The statuses of the phases along a run *)

Ltac status_close :=
  split;
  [ do 4 eexists; split; [reflexivity | cbn in *; subst; auto]
  | intros k; unfold statusStep, statusOf;
    destruct k as [|[|[|[|k]]]]; cbn in *; subst; cbn;
    repeat split; intros; auto; try discriminate; try lia ].

Lemma status_step (r : Run) (s : Store) (e : Event) :
  fourSteps r s ->
  fourSteps (fst (resume r e s)) (snd (resume r e s))
  /\ forall k, statusStep k s (snd (resume r e s)).
Proof.
  intros (a & b & c & d & Hsteps & Hshape).
  destruct s as [steps0 ov jr ab ri gd nc]. cbn [steps] in Hsteps. subst steps0.
  destruct a as [ia na da sa pa], b as [ib nb db sb pb],
           c as [ic nc' dc sc pc0], d as [id0 nd dd sd pd].
  destruct r as [mr ds mn cnt jid l]. cbn [pc status] in Hshape.
  unfold resume. cbn [pc].
  destruct l as [p| |mn' ds'|st|st| |job|job count|p| |];
    destruct e as [|res|res|res];
    try (cbn [fst snd]; status_close).
  - (* PreDelay *)
    unfold preprocessingLoop.
    destruct (p + 20 <=? 100)%Z; [destruct (cancelled _ _)|];
      cbn [fst snd]; status_close.
  - (* TrainPost *)
    destruct (trainingJobId res) as [j|msg]; [unfold pollHead|];
      [destruct (abortRef _)|]; cbn [fst snd]; status_close.
  - (* TrainPollFetch *)
    pose proof (delivered_try_block trainingPoll st (fetchStatus res)) as Hticks.
    destruct (Poller.iteration trainingPoll st (fetchStatus res)) as [ticks next].
    cbn [fst] in Hticks. subst ticks.
    destruct (fetchStatus res) as [raw|msg];
      destruct next as [st'|[|]|why]; cbn [fst snd]; status_close.
  - (* TrainPollSleep *)
    unfold pollHead. destruct (abortRef _); cbn [fst snd]; status_close.
  - (* SanityFetch *)
    destruct (assertCompleted res) as [[|]|msg]; unfold startGeneration;
      try destruct (cancelled _ _); cbn [fst snd]; status_close.
  - (* GenFetch *)
    destruct (generationArtifact res) as [art|msg]; unfold validationLoop;
      [destruct (cancelled _ _)|]; cbn [fst snd]; status_close.
  - (* ValDelay *)
    unfold validationLoop.
    destruct (p + 20 <=? 100)%Z; [destruct (cancelled _ _)|];
      cbn [fst snd]; status_close.
Qed.

Lemma fourSteps_enter (p : Props) (s : Store) :
  fourSteps (fst (enter p (reset s))) (snd (enter p (reset s))).
Proof.
  unfold enter, preprocessingLoop. change (0 <=? 100)%Z with true. cbv iota.
  destruct (cancelled _ _); cbn [fst snd];
    do 4 eexists; (split; [reflexivity | cbn; auto]).
Qed.

Lemma statusOf_reset (k : nat) (s : Store) : statusOf k (reset s) = pending.
Proof.
  unfold statusOf. cbn [reset steps].
  destruct k as [|[|[|[|k]]]]; try reflexivity.
  destruct k; reflexivity.
Qed.

Lemma statusOf_enter (k : nat) (p : Props) (s : Store) :
  statusOf k (snd (enter p (reset s)))
  = match k with 0%nat => running | _ => pending end.
Proof.
  unfold enter, preprocessingLoop. change (0 <=? 100)%Z with true. cbv iota.
  destruct (cancelled _ _); cbn [fst snd]; unfold statusOf;
    destruct k as [|[|[|[|k]]]]; try reflexivity; destruct k; reflexivity.
Qed.

Lemma lifecycle_from (k : nat) (events : list Event) :
  (k < 3)%nat ->
  forall r s,
    fourSteps r s ->
    forall n st,
      nth_error (s :: trace r s events) n = Some st ->
      terminal (statusOf k st) = true ->
      terminal (statusOf k s) = true \/ ranBefore k (s :: trace r s events) n.
Proof.
  intros Hk. induction events as [|e rest IH]; intros r s H4 n st Hn Hterm.
  - destruct n as [|n].
    + inversion Hn; subst. left. exact Hterm.
    + destruct n; discriminate.
  - destruct n as [|n].
    + inversion Hn; subst. left. exact Hterm.
    + cbn [trace] in *.
      destruct (status_step r s e H4) as [H4' Hstep].
      destruct (resume r e s) as [r' s']. cbn [fst snd] in H4', Hstep.
      cbn [nth_error] in Hn.
      destruct (IH r' s' H4' n st Hn Hterm) as [Hnow | (m & st' & Hm & Hst' & Hrun)].
      * destruct (Hstep k) as [Hlife _].
        destruct (Hlife Hk Hnow) as [Hdone | Hrunning].
        -- left. exact Hdone.
        -- right. exists 0%nat, s. repeat split; [lia | exact Hrunning].
      * right. exists (S m), st'. repeat split; [lia | exact Hst' | exact Hrun].
Qed.

Lemma not_pending_from (k : nat) (events : list Event) :
  forall r s,
    fourSteps r s ->
    statusOf k s <> pending ->
    forall st, In st (trace r s events) -> statusOf k st <> pending.
Proof.
  induction events as [|e rest IH]; intros r s H4 Hnp st Hin.
  - contradiction.
  - cbn [trace] in Hin.
    destruct (status_step r s e H4) as [H4' Hstep].
    destruct (resume r e s) as [r' s']. cbn [fst snd] in H4', Hstep.
    destruct (Hstep k) as (_ & Hkeep & _).
    destruct Hin as [Heq | Hin].
    + subst st. apply Hkeep. exact Hnp.
    + apply (IH r' s' H4' (Hkeep Hnp) st Hin).
Qed.

Lemma never_pending_again_from (k : nat) (events : list Event) :
  forall r s, fourSteps r s -> neverPendingAgain k (s :: trace r s events).
Proof.
  induction events as [|e rest IH]; intros r s H4 n m a b Hnm Ha Hb Hnp.
  - destruct n as [|n]; [|destruct n; discriminate].
    destruct m as [|m]; [|destruct m; discriminate].
    cbn in Ha, Hb. congruence.
  - destruct n as [|n].
    + cbn in Ha. inversion Ha; subst a.
      destruct m as [|m].
      * cbn in Hb. inversion Hb; subst b. exact Hnp.
      * cbn [nth_error] in Hb. apply nth_error_In in Hb.
        apply (not_pending_from k (e :: rest) r s H4 Hnp b Hb).
    + destruct m as [|m]; [lia|].
      cbn [trace] in Ha, Hb.
      destruct (status_step r s e H4) as [H4' _].
      destruct (resume r e s) as [r' s']. cbn [fst snd] in H4'.
      cbn [nth_error] in Ha, Hb.
      apply (IH r' s' H4' n m a b); [lia | assumption..].
Qed.

Lemma validation_not_running_from (events : list Event) :
  forall r s,
    fourSteps r s ->
    statusOf 3 s <> running ->
    forall st, In st (trace r s events) -> statusOf 3 st <> running.
Proof.
  induction events as [|e rest IH]; intros r s H4 Hnr st Hin.
  - contradiction.
  - cbn [trace] in Hin.
    destruct (status_step r s e H4) as [H4' Hstep].
    destruct (resume r e s) as [r' s']. cbn [fst snd] in H4', Hstep.
    destruct (Hstep 3%nat) as (_ & _ & Hback).
    assert (Hnr' : statusOf 3 s' <> running) by (intros H; apply Hnr, Hback, H).
    destruct Hin as [Heq | Hin].
    + subst st. exact Hnr'.
    + apply (IH r' s' H4' Hnr' st Hin).
Qed.

(** Validation is never shown as running, in any run. *)
Lemma validation_never_running (p : Props) (s : Store) (events : list Event) :
  neverRunning 3 (history p s events).
Proof.
  unfold neverRunning, history. intros st Hin.
  pose proof (fourSteps_enter p s) as H4.
  pose proof (statusOf_enter 3 p s) as H3.
  destruct (enter p (reset s)) as [r s1]. cbn [fst snd] in H4, H3.
  destruct Hin as [Heq | [Heq | Hin]].
  - subst st. rewrite statusOf_reset. discriminate.
  - subst st. rewrite H3. discriminate.
  - apply (validation_not_running_from events r s1 H4); [|exact Hin].
    rewrite H3. discriminate.
Qed.

(** C10, as written, fails: in a run where everything succeeds,
    validation ends completed and was never running before. *)
Lemma validation_completes_without_running :
  option_map (statusOf 3) (nth_error (history props mounted happy) 26)
  = Some completed
  /\ ~ lifecycle 3 (history props mounted happy).
Proof.
  split; [reflexivity|].
  intros Hlife.
  destruct (nth_error (history props mounted happy) 26) as [st|] eqn:Hst;
    [|discriminate].
  assert (Hterm : terminal (statusOf 3 st) = true).
  { vm_compute in Hst. inversion Hst; subst st. reflexivity. }
  destruct (Hlife 26%nat st Hst Hterm) as (m & st' & _ & Hm & Hrun).
  apply nth_error_In in Hm.
  exact (validation_never_running props mounted happy st' Hm Hrun).
Qed.

(** C10, amended.  At the start of every run the four phases are reset to
    pending with progress 0.  From then on, in every run: preprocessing,
    training and generation are completed or in error only after they
    were running; no phase that has left pending is pending again; and
    validation is never running (it goes from pending to completed). *)
Theorem phases_lifecycle_except_validation
    (p : Props) (s : Store) (events : list Event) :
  (List.length (steps (reset s)) = 4%nat
   /\ Forall (fun st => status st = pending /\ progress st = of_Z 0)
        (steps (reset s)))
  /\ (forall k, (k < 3)%nat -> lifecycle k (history p s events))
  /\ (forall k, neverPendingAgain k (history p s events))
  /\ neverRunning 3 (history p s events).
Proof.
  split; [|split; [|split]].
  - split; [reflexivity|]. cbn [reset steps pendingSteps].
    repeat constructor.
  - intros k Hk. unfold lifecycle, history. intros n st Hn Hterm.
    pose proof (fourSteps_enter p s) as H4.
    pose proof (statusOf_enter k p s) as Hk1.
    destruct (enter p (reset s)) as [r s1]. cbn [fst snd] in H4, Hk1.
    destruct n as [|n].
    + cbn in Hn. inversion Hn; subst st.
      rewrite statusOf_reset in Hterm. discriminate.
    + cbn [nth_error] in Hn.
      destruct (lifecycle_from k events Hk r s1 H4 n st Hn Hterm)
        as [Hnow | (m & st' & Hm & Hst' & Hrun)].
      * rewrite Hk1 in Hnow. destruct k; discriminate.
      * exists (S m), st'. repeat split; [lia | exact Hst' | exact Hrun].
  - intros k. unfold neverPendingAgain, history. intros n m a b Hnm Ha Hb Hnp.
    pose proof (fourSteps_enter p s) as H4.
    destruct (enter p (reset s)) as [r s1]. cbn [fst snd] in H4.
    destruct n as [|n].
    + cbn in Ha. inversion Ha; subst a.
      rewrite statusOf_reset in Hnp. contradiction.
    + destruct m as [|m]; [lia|].
      cbn [nth_error] in Ha, Hb.
      apply (never_pending_again_from k events r s1 H4 n m a b);
        [lia | assumption..].
  - apply validation_never_running.
Qed.

Lemma phases_lifecycle_except_validation_witness :
  (2 < 3)%nat /\ lifecycle 2 (history props mounted happy).
Proof.
  split; [lia|].
  apply (proj1 (proj2 (phases_lifecycle_except_validation props mounted happy))).
  lia.
Defined.

End DriverFacts.

(** ** The component around the run *)

Module ComponentFacts.
Import Driver Component.

Lemma fold_onTick_refs (ticks : list Poller.Tick) :
  forall s,
    abortRef (fold_left onTick ticks s) = abortRef s
    /\ runIdRef (fold_left onTick ticks s) = runIdRef s.
Proof.
  induction ticks as [|t ticks IH]; intros s; cbn [fold_left].
  - split; reflexivity.
  - destruct (IH (onTick s t)) as [Ha Hr]. rewrite Ha, Hr. split; reflexivity.
Qed.

(** No resumption writes the abort flag or the run id, and a run keeps
    its own id. *)
Lemma resume_keeps_refs (r : Run) (e : Event) (s : Store) :
  abortRef (snd (resume r e s)) = abortRef s
  /\ runIdRef (snd (resume r e s)) = runIdRef s
  /\ myRun (fst (resume r e s)) = myRun r.
Proof.
  unfold resume, preprocessingLoop, pollHead, startGeneration, validationLoop.
  destruct (pc r) eqn:Hpc; destruct e; try (repeat split; reflexivity).
  all: repeat match goal with
           | |- context [let (_, _) := ?x in _] => destruct x
           | |- context [fold_left onTick ?t ?s] =>
               let Ha := fresh in let Hr := fresh in
               destruct (fold_onTick_refs t s) as [Ha Hr];
               generalize dependent (fold_left onTick t s); intros
           | |- context [match ?x with _ => _ end] => destruct x eqn:?
           end;
    cbn; repeat split; congruence.
Qed.

Lemma Forall_replace {A : Type} (P : A -> Prop) (x : A) (l : list A) :
  forall k, Forall P l -> P x -> Forall P (replace k x l).
Proof.
  induction l as [|y l IH]; intros k Hl Hx; [destruct k; constructor|].
  inversion Hl; subst. destruct k as [|k]; cbn [replace].
  - constructor; assumption.
  - constructor; [assumption | apply IH; assumption].
Qed.

Lemma length_replace {A : Type} (x : A) (l : list A) :
  forall k, List.length (replace k x l) = List.length l.
Proof.
  induction l as [|y l IH]; intros k; [destruct k; reflexivity|].
  destruct k as [|k]; cbn [replace List.length]; [reflexivity|].
  rewrite IH. reflexivity.
Qed.

Lemma In_replace {A : Type} (x y : A) (l : list A) :
  forall k, In y (replace k x l) -> In y l \/ y = x.
Proof.
  induction l as [|z l IH]; intros k Hin; [destruct k; contradiction|].
  destruct k as [|k]; cbn [replace] in Hin; destruct Hin as [<- | Hin].
  - right. reflexivity.
  - left. right. exact Hin.
  - left. left. reflexivity.
  - destruct (IH k Hin) as [H | H]; [left; right; exact H | right; exact H].
Qed.

Lemma oneLiveRun_mount : oneLiveRun mount.
Proof. unfold oneLiveRun. cbn. repeat split; auto. Qed.

(** The run that a click starts is the live one, with the abort flag
    down. *)
Lemma runGenerationPipeline_refs (props : Props) (s : Store) :
  abortRef (snd (runGenerationPipeline props s)) = false
  /\ runIdRef (snd (runGenerationPipeline props s))
     = myRun (fst (runGenerationPipeline props s)).
Proof.
  unfold runGenerationPipeline, enter, preprocessingLoop.
  change (0 <=? 100)%Z with true. cbv iota.
  unfold cancelled. cbn [abortRef runIdRef myRun reset setSteps orb].
  rewrite Z.eqb_refl. cbn. split; reflexivity.
Qed.

Lemma oneLiveRun_step (i : Instance) (x : Input) :
  oneLiveRun i -> oneLiveRun (step i x).
Proof.
  intros (Habort & Hidle & Hlen & Hids).
  destruct x as [props | k e]; cbn [step].
  - unfold clickStart. destruct (isGenerating i) eqn:Hgen.
    + repeat split; try assumption. congruence.
    + rewrite (Hidle eq_refl).
      destruct (runGenerationPipeline_refs props (store i)) as [Ha Hr].
      destruct (runGenerationPipeline props (store i)) as [r s].
      cbn [fst snd] in Ha, Hr.
      unfold resetWhenIdle, oneLiveRun. cbn. repeat split; auto.
      discriminate.
  - unfold settle. destruct (nth_error (runs i) k) as [r|] eqn:Hk.
    2:{ repeat split; assumption. }
    destruct (resume_keeps_refs r e (store i)) as (Ha & Hr & Hm).
    destruct (resume r e (store i)) as [r' s']. cbn [fst snd] in Ha, Hr, Hm.
    unfold oneLiveRun. cbn [store isGenerating runs].
    assert (Hin : In r (runs i)) by (eapply nth_error_In; exact Hk).
    repeat split.
    + congruence.
    + intros Hgen. rewrite (Hidle Hgen) in Hin. contradiction.
    + rewrite length_replace. exact Hlen.
    + rewrite Hr. apply Forall_replace; [exact Hids|].
      rewrite Forall_forall in Hids. rewrite Hm. apply Hids. exact Hin.
Qed.


(** The second click changes nothing: the run of the first click is
    still the live one when its poll is answered, and the tick is its
    own. *)
Lemma second_click_finds_no_button :
  let i := exec clickedTwice in
  List.length (runs i) = 1%nat
  /\ runIdRef (store i) = 1%Z
  /\ map myRun (runs i) = [1%Z]
  /\ progressOf 1 (store i) = Some (of_Z 50)
  /\ Js.eq (overallProgress (store i)) (Fin (85 # 2)).
Proof. vm_compute. repeat split. Qed.


End ComponentFacts.

(** ** More on the poller *)

Module PollerMore.
Import Poller PollerSpec.

(** X1.  Whenever the abort flag is up at the head of the loop, the poller
    returns ["aborted"]: it has fetched nothing more and delivered no tick
    beyond those of the iterations before, whatever the status capability
    would have answered.  This includes a flag that is up before the first
    iteration. *)
Theorem abort_stops_before_fetch
    (o : Opts) (script : list Observation) (ticks : list Tick) (st : State)
    (unused : completion Remote.StatusPayload) (rest : list Observation) :
  pollUntilDone o script = (ticks, Polling st) ->
  pollUntilDone o (script ++ mkObs true unused :: rest) = (ticks, Done Aborted).
Proof.
  intros Hrun. unfold pollUntilDone in *.
  rewrite (PollerFacts.loop_app _ _ _ _ _ _ Hrun).
  cbn [loop abort_set fst snd]. rewrite app_nil_r. reflexivity.
Qed.

Lemma abort_stops_before_fetch_witness :
  pollUntilDone defaults (mkObs true (Throws "unused") :: [ok "completed" None])
  = ([], Done Aborted)
  /\ pollUntilDone defaults
       ([ok "running" None] ++ mkObs true (Normal (Remote.mkPayload "completed" None)) :: [])
     = ([mkTick (of_Z 0) "running"], Done Aborted).
Proof.
  split.
  - apply (abort_stops_before_fetch defaults [] [] (initial defaults)).
    reflexivity.
  - apply (abort_stops_before_fetch defaults [ok "running" None]
             [mkTick (of_Z 0) "running"] (mkState 0 true 0)).
    reflexivity.
Defined.

(** One iteration that sleeps: what it does to the error count. *)
Lemma iteration_errors (o : Opts) (st st' : State) (ob : Observation)
    (ts : list Tick) :
  iteration o st (fetched ob) = (ts, Sleep st') ->
  errors st' = (if endsInCatch ob then errors st + 1 else 0)%Z
  /\ (endsInCatch ob = true -> (errors st + 1 < maxConsecutiveErrors o)%Z).
Proof.
  unfold iteration, try_block, catch_block, endsInCatch.
  destruct (fetched ob) as [raw | msg]; cbn [delivered vars ending].
  - set (s := safeLower (Str (Remote.status raw))).
    destruct (String.eqb s "failed" || String.eqb s "error"); cbn [delivered vars ending].
    + destruct (hasDebug o); cbn [errors];
        destruct (_ <=? _)%Z eqn:Hle; try discriminate;
        apply Z.leb_gt in Hle;
        intros H; inversion H; subst; cbn [errors]; split; auto.
    + destruct (String.eqb s "completed" && _); cbn [delivered vars ending];
        [discriminate|].
      intros H; inversion H; subst; cbn [errors]. split; [reflexivity|discriminate].
  - destruct (_ <=? _)%Z eqn:Hle; [discriminate|]. apply Z.leb_gt in Hle.
    intros H; inversion H; subst; cbn [errors]; split; auto.
Qed.

Lemma loop_errors (o : Opts) (script : list Observation) :
  forall st ts st',
    (0 < maxConsecutiveErrors o)%Z ->
    (0 <= errors st < maxConsecutiveErrors o)%Z ->
    loop o st script = (ts, Polling st') ->
    errors st' = consecutive script (errors st)
    /\ (0 <= errors st' < maxConsecutiveErrors o)%Z.
Proof.
  induction script as [|ob rest IH]; intros st ts st' Hmax Hst; cbn [loop].
  - intros H; inversion H; subst. split; [reflexivity | exact Hst].
  - destruct (abort_set ob); [discriminate|].
    destruct (iteration o st (fetched ob)) as [ts1 next] eqn:Hit.
    destruct next as [st1| r | m']; try discriminate.
    destruct (loop o st1 rest) as [ts' out] eqn:Hl.
    intros H; inversion H; subst.
    destruct (iteration_errors _ _ _ _ _ Hit) as [Herr Hlt].
    unfold consecutive. cbn [fold_left]. fold (consecutive rest).
    rewrite <- Herr. apply (IH st1 ts' st' Hmax); [|exact Hl].
    rewrite Herr. destruct (endsInCatch ob); [|lia].
    specialize (Hlt eq_refl). lia.
Qed.

(** X2.  The error count is the number of iterations in a row, up to now, that
    ended in the [catch] block (a thrown fetch, or a failed or error
    status); it stays below the threshold while the poller polls; and one
    more such iteration ends the poll exactly when it brings the count to
    the threshold. *)
Theorem errors_count_consecutive_failures
    (o : Opts) (script : list Observation) (ticks : list Tick) (st : State)
    (ob : Observation) :
  (0 < maxConsecutiveErrors o)%Z ->
  pollUntilDone o script = (ticks, Polling st) ->
  errors st = consecutive script 0
  /\ (0 <= errors st < maxConsecutiveErrors o)%Z
  /\ (abort_set ob = false ->
      endsInCatch ob = true ->
      snd (pollUntilDone o (script ++ [ob]))
      = if (maxConsecutiveErrors o <=? errors st + 1)%Z
        then Failed "Too many polling errors"
        else Polling (mkState (errors st + 1) (seenRunning st)
                        (if hasDebug o
                         then match fetched ob with
                              | Normal _ => (tick st + 1)%Z
                              | Throws _ => tick st
                              end
                         else tick st))).
Proof.
  intros Hmax Hrun. unfold pollUntilDone in *.
  assert (H0 : (0 <= errors (initial o) < maxConsecutiveErrors o)%Z)
    by (cbn [initial errors]; lia).
  destruct (loop_errors o script _ _ _ Hmax H0 Hrun) as [Hcount Hrange].
  cbn [initial errors] in Hcount.
  repeat split; try assumption; try lia.
  intros Habort Hcatch.
  rewrite (PollerFacts.loop_app _ _ _ _ _ _ Hrun). cbn [snd loop].
  rewrite Habort.
  revert Hcatch. unfold endsInCatch, iteration, try_block, catch_block.
  destruct (fetched ob) as [raw|msg]; cbn [delivered vars ending].
  - intros Hcatch. rewrite Hcatch. cbn [delivered vars ending].
    destruct (hasDebug o); cbn [errors seenRunning tick];
      destruct (_ <=? _)%Z; destruct st; reflexivity.
  - intros _. destruct (_ <=? _)%Z; destruct (hasDebug o); destruct st; reflexivity.
Qed.

Lemma errors_count_consecutive_failures_witness :
  (0 <= errors (mkState 2 true 0) < 5)%Z
  /\ snd (pollUntilDone defaults ([failure; failure] ++ [failure]))
     = Polling (mkState 3 true 0).
Proof.
  assert (Hmax : (0 < maxConsecutiveErrors defaults)%Z) by reflexivity.
  assert (Hrun : pollUntilDone defaults [failure; failure]
                 = ([], Polling (mkState 2 true 0))) by reflexivity.
  split.
  - apply (errors_count_consecutive_failures defaults [failure; failure] []
             (mkState 2 true 0) failure Hmax Hrun).
  - apply (errors_count_consecutive_failures defaults [failure; failure] []
             (mkState 2 true 0) failure Hmax Hrun); reflexivity.
Defined.

Lemma iteration_quiet (o : Opts) (st : State) (ob : Observation)
    (raw : Remote.StatusPayload) :
  quiet ob = true ->
  fetched ob = Normal raw ->
  exists st',
    iteration o st (fetched ob)
    = ([mkTick (clampPercent (Remote.percent raw))
          (safeLower (Str (Remote.status raw)))], Sleep st')
    /\ errors st' = 0%Z.
Proof.
  intros Hq Hf. unfold quiet in Hq. rewrite Hf in *.
  apply andb_true_iff in Hq. destruct Hq as [_ Hq].
  apply andb_true_iff in Hq. destruct Hq as [Hq Hc].
  apply andb_true_iff in Hq. destruct Hq as [Hfa He].
  apply negb_true_iff in Hfa, He, Hc.
  unfold iteration, try_block. rewrite Hfa, He, Hc.
  cbn [orb andb delivered vars ending]. eexists. split; reflexivity.
Qed.

Lemma loop_quiet (o : Opts) (script : list Observation) :
  forall st,
    Forall (fun ob => quiet ob = true) script ->
    (errors st = 0)%Z ->
    exists st',
      loop o st script = (ticksOf script, Polling st') /\ errors st' = 0%Z.
Proof.
  induction script as [|ob rest IH]; intros st Hall Hst; cbn [loop ticksOf].
  - exists st. split; [reflexivity | exact Hst].
  - inversion Hall as [|? ? Hq Hrest]; subst.
    assert (Habort : abort_set ob = false).
    { unfold quiet in Hq. apply andb_true_iff in Hq. destruct Hq as [Ha _].
      apply negb_true_iff in Ha. exact Ha. }
    rewrite Habort.
    destruct (fetched ob) as [raw|msg] eqn:Hf.
    + destruct (iteration_quiet o st ob raw Hq Hf) as (st1 & Hit & Herr).
      rewrite Hf in Hit. rewrite Hit.
      destruct (IH st1 Hrest Herr) as (st' & Hl & Herr').
      rewrite Hl. exists st'. split; [reflexivity | exact Herr'].
    + unfold quiet in Hq. rewrite Hf in Hq. rewrite andb_false_r in Hq.
      discriminate.
Qed.

(** X3.  The poller has no timeout of its own: as long as the abort flag is
    down and every fetch succeeds with a status other than failed, error
    and completed, it is still polling after any number of iterations,
    with one tick delivered per iteration and its error count at 0. *)
Theorem polls_on_without_timeout (o : Opts) (script : list Observation) :
  Forall (fun ob => quiet ob = true) script ->
  exists st,
    pollUntilDone o script = (ticksOf script, Polling st)
    /\ errors st = 0%Z
    /\ List.length (ticksOf script) = List.length script.
Proof.
  intros Hall.
  destruct (loop_quiet o script (initial o) Hall eq_refl) as (st & Hl & Herr).
  exists st. repeat split; try assumption.
  clear Hl. induction script as [|ob rest IH]; [reflexivity|].
  inversion Hall as [|? ? Hq Hrest]; subst. cbn [ticksOf].
  destruct (fetched ob) as [raw|msg] eqn:Hf.
  - cbn [List.length]. rewrite (IH Hrest). reflexivity.
  - unfold quiet in Hq. rewrite Hf in Hq. rewrite andb_false_r in Hq.
    discriminate.
Qed.

Lemma polls_on_without_timeout_witness :
  exists st,
    pollUntilDone defaults (repeat (ok "queued" (Some (of_Z 10))) 3)
    = (ticksOf (repeat (ok "queued" (Some (of_Z 10))) 3), Polling st)
    /\ errors st = 0%Z
    /\ List.length (ticksOf (repeat (ok "queued" (Some (of_Z 10))) 3))
       = List.length (repeat (ok "queued" (Some (of_Z 10))) 3).
Proof.
  apply (polls_on_without_timeout defaults
           (repeat (ok "queued" (Some (of_Z 10))) 3)).
  repeat constructor.
Defined.

Lemma loop_ticks (o : Opts) (script : list Observation) :
  forall st ts out,
    loop o st script = (ts, out) ->
    exists n, ts = ticksOf (firstn n script).
Proof.
  induction script as [|ob rest IH]; intros st ts out; cbn [loop].
  - intros H; inversion H; subst. exists 0%nat. reflexivity.
  - destruct (abort_set ob).
    + intros H; inversion H; subst. exists 0%nat. reflexivity.
    + pose proof (DriverFacts.delivered_try_block o st (fetched ob)) as Hd.
      destruct (iteration o st (fetched ob)) as [ts1 next].
      cbn [fst] in Hd.
      assert (Hone : ts1 = ticksOf [ob]).
      { rewrite Hd. cbn [ticksOf]. destruct (fetched ob); reflexivity. }
      destruct next as [st1| r | m'].
      * destruct (loop o st1 rest) as [ts' out'] eqn:Hl.
        intros H; inversion H; subst.
        destruct (IH _ _ _ Hl) as [n Hn].
        exists (S n). cbn [firstn ticksOf]. rewrite Hn.
        destruct (fetched ob); reflexivity.
      * intros H; inversion H; subst. exists 1%nat.
        cbn [firstn]. reflexivity.
      * intros H; inversion H; subst. exists 1%nat.
        cbn [firstn]. reflexivity.
Qed.

(** X4.  Every tick the poller delivers is the clamped percent and the
    lower-cased status of one successful fetch, in the order of the
    fetches; and as long as no payload carries NaN as its percent, every
    delivered percent lies in [0,100]. *)
Theorem ticks_are_clamped (o : Opts) (script : list Observation) :
  noNaN script ->
  (exists n, fst (pollUntilDone o script) = ticksOf (firstn n script))
  /\ Forall (fun t => in_0_100 (tick_percent t)) (fst (pollUntilDone o script)).
Proof.
  intros Hnan. unfold pollUntilDone.
  destruct (loop o (initial o) script) as [ts out] eqn:Hl. cbn [fst].
  destruct (loop_ticks _ _ _ _ _ Hl) as [n Hn].
  split; [exists n; exact Hn|].
  subst ts.
  assert (Hsub : forall ob, In ob (firstn n script) -> In ob script).
  { intros ob Hin. rewrite <- (firstn_skipn n script). apply in_or_app. auto. }
  revert Hsub. generalize (firstn n script) as l.
  induction l as [|ob rest IH]; intros Hsub; cbn [ticksOf].
  - constructor.
  - destruct (fetched ob) as [raw|msg] eqn:Hf.
    + constructor.
      * cbn [tick_percent]. apply PollerFacts.clampPercent_in_range.
        apply (Hnan ob raw); [apply Hsub; left; reflexivity | exact Hf].
      * apply IH. intros ob' Hin. apply Hsub. right. exact Hin.
    + apply IH. intros ob' Hin. apply Hsub. right. exact Hin.
Qed.

Lemma ticks_are_clamped_witness :
  Forall (fun t => in_0_100 (tick_percent t))
    (fst (pollUntilDone defaults
            [ok "running" (Some (of_Z (-5))); ok "running" (Some PosInf);
             failure; ok "completed" (Some (of_Z 250))])).
Proof.
  apply (ticks_are_clamped defaults
           [ok "running" (Some (of_Z (-5))); ok "running" (Some PosInf);
            failure; ok "completed" (Some (of_Z 250))]).
  intros ob raw Hin Hf.
  repeat (destruct Hin as [Heq | Hin];
          [subst ob; cbn in Hf; inversion Hf; subst raw; discriminate|]).
  contradiction.
Defined.

End PollerMore.

(** ** One run on its own *)

Module RunFacts.
Import Driver RunSpec.

Lemma trained_more (past : list Event) (e : Event) (j : string) :
  trained past j -> trained (past ++ [e]) j.
Proof.
  intros (res & Hin & Hj). exists res. split; [|exact Hj].
  apply in_or_app. left. exact Hin.
Qed.

Lemma generated_more (past : list Event) (e : Event) (a : Artifact) :
  generated past a -> generated (past ++ [e]) a.
Proof.
  intros (res & Hin & Ha). exists res. split; [|exact Ha].
  apply in_or_app. left. exact Hin.
Qed.

Lemma jobKnown_more (past : list Event) (e : Event) (r r' : Run) (s s' : Store) :
  jobId r' = jobId r -> jobIdRef s' = jobIdRef s ->
  jobKnown past r s -> jobKnown (past ++ [e]) r' s'.
Proof.
  intros Hr Hs (j & Hj & Href & Ht). exists j.
  rewrite Hr, Hs. repeat split; try assumption. apply trained_more. exact Ht.
Qed.

Lemma handed_more (past : list Event) (e : Event) (s s' : Store) :
  generatedData s' = generatedData s ->
  handed past s -> handed (past ++ [e]) s'.
Proof.
  intros Hs (a & Ha & Hg). exists a. rewrite Hs.
  split; [exact Ha | apply generated_more; exact Hg].
Qed.

Lemma aloneInv_start (p : Props) (s0 : Store) :
  aloneInv p s0 [] (fst (runGenerationPipeline p s0))
    (snd (runGenerationPipeline p s0)).
Proof.
  unfold runGenerationPipeline, enter, preprocessingLoop.
  change (0 <=? 100)%Z with true. cbv iota.
  unfold cancelled. cbn [abortRef runIdRef myRun reset setSteps orb].
  rewrite Z.eqb_refl. cbn [negb].
  unfold aloneInv, atAwait, untouched. cbn. repeat split.
Qed.


Lemma atAwait_more (p : Props) (s0 : Store) (past : list Event) (e : Event)
    (r : Run) (s : Store) :
  atAwait p s0 past r s -> atAwait p s0 (past ++ [e]) r s.
Proof.
  unfold atAwait, untouched.
  destruct (pc r); intros H;
    repeat match goal with
           | H : _ /\ _ |- _ => destruct H
           | H : _ \/ _ |- _ => destruct H
           end;
    try (repeat split; try assumption;
         try (eapply jobKnown_more; [reflexivity | reflexivity | eassumption]);
         try (eapply handed_more; [reflexivity | eassumption]); fail).
  - left. repeat split; assumption.
  - right. left. repeat split; assumption.
  - right. right. repeat split; try assumption.
    eapply handed_more; [reflexivity | eassumption].
Qed.

(** Takes the store and the run apart, down to the fields of the four
    steps. *)
Ltac open_store s r Hids :=
  destruct s as [steps0 ov jr ab ri gd nc];
  unfold ids in Hids; cbn [steps] in Hids;
  destruct steps0 as [|[ia na da sa pa] [|[ib nb db sb pb]
                     [|[ic nc' dc sc pc0] [|[id0 nd dd sd pd] [|extra more]]]]];
  try discriminate Hids;
  destruct r as [mr ds mn cnt jid l].

Ltac begin_case s r Hids Hat Hpc :=
  unfold atAwait in Hat; rewrite Hpc in Hat;
  open_store s r Hids;
  unfold untouched, statuses, cancelled in *;
  cbn [steps map status id pc myRun sampleCount jobId abortRef runIdRef
       nextCalls generatedData jobIdRef overallProgress] in *;
  repeat match goal with
         | H : _ /\ _ |- _ => destruct H
         end;
  repeat match goal with
         | H : _ :: _ = _ :: _ |- _ => injection H as ?; subst
         end;
  subst.

Ltac finish :=
  unfold aloneInv, atAwait, untouched, ids, statuses, cancelled;
  cbn; rewrite ?Z.eqb_refl; cbn; repeat split; auto.

Lemma aloneInv_step (p : Props) (s0 : Store) (past : list Event)
    (r : Run) (s : Store) (e : Event) :
  aloneInv p s0 past r s ->
  aloneInv p s0 (past ++ [e]) (fst (resume r e s)) (snd (resume r e s)).
Proof.
  intros (Hids & Habort & Hrid & Hcnt & Hat).
  assert (Hkeep : aloneInv p s0 (past ++ [e]) r s).
  { repeat split; try assumption. apply atAwait_more. exact Hat. }
  assert (Hc : cancelled r s = false).
  { unfold cancelled. rewrite Habort, Hrid, Z.eqb_refl. reflexivity. }
  unfold resume.
  destruct (pc r) as [z| |mn' ds'|st|st| |job|job count|z| |] eqn:Hpc;
    destruct e as [|res|res|res]; try exact Hkeep; clear Hkeep.
  - (* PreDelay *)
    begin_case s r Hids Hat Hpc.
    unfold preprocessingLoop, cancelled. cbn [abortRef runIdRef myRun setSteps setOverallProgress orb].
    rewrite Z.eqb_refl. cbn [negb].
    destruct (z + 20 <=? 100)%Z; finish.
  - (* PrePause *)
    begin_case s r Hids Hat Hpc. finish.
  - (* TrainPost *)
    begin_case s r Hids Hat Hpc.
    destruct (trainingJobId res) as [j|msg] eqn:Hj.
    + unfold pollHead. cbn [abortRef setJobIdRef]. finish.
      exists j. repeat split. exists res. split; [|exact Hj].
      apply in_or_app. right. left. reflexivity.
    + finish.
  - (* TrainPollFetch *)
    begin_case s r Hids Hat Hpc.
    pose proof (DriverFacts.delivered_try_block trainingPoll st (fetchStatus res))
      as Hticks.
    pose proof (DriverFacts.iteration_not_aborted trainingPoll st (fetchStatus res))
      as Hna.
    destruct (Poller.iteration trainingPoll st (fetchStatus res)) as [ticks next].
    cbn [fst snd] in Hticks, Hna. subst ticks.
    destruct (fetchStatus res) as [raw|msg];
      destruct next as [st'|[|]|why];
      try (exfalso; apply Hna; reflexivity);
      finish;
      try (eapply jobKnown_more; [reflexivity | reflexivity | eassumption]);
      try (left; repeat split; assumption).
  - (* TrainPollSleep *)
    begin_case s r Hids Hat Hpc.
    unfold pollHead. cbn [abortRef]. finish.
    eapply jobKnown_more; [reflexivity | reflexivity | eassumption].
  - (* TrainPause *)
    begin_case s r Hids Hat Hpc. finish.
    + eapply jobKnown_more; [reflexivity | reflexivity | eassumption].
    + match goal with H : jobKnown _ _ _ |- _ =>
        destruct H as (j & Hj & Href & _); cbn in Hj, Href; congruence end.
  - (* SanityFetch *)
    begin_case s r Hids Hat Hpc.
    destruct (assertCompleted res) as [[|]|msg]; unfold startGeneration, cancelled;
      cbn [abortRef runIdRef myRun orb]; rewrite ?Z.eqb_refl; cbn [negb];
      finish;
      try (eapply jobKnown_more; [reflexivity | reflexivity | eassumption]);
      try (left; repeat split; assumption);
      try (match goal with H : jobKnown _ _ _ |- _ =>
             destruct H as (j & Hj & Href & _); cbn in Hj, Href; congruence end);
      try congruence.
  - (* GenFetch *)
    begin_case s r Hids Hat Hpc.
    destruct (generationArtifact res) as [art|msg] eqn:Hart.
    + unfold validationLoop, cancelled.
      cbn [abortRef runIdRef myRun setGeneratedData orb].
      rewrite Z.eqb_refl. cbn [negb]. change (0 <=? 100)%Z with true. finish.
      exists art. split; [reflexivity|]. exists res. split; [|exact Hart].
      apply in_or_app. right. left. reflexivity.
    + finish.
  - (* ValDelay *)
    begin_case s r Hids Hat Hpc.
    unfold validationLoop, cancelled.
    cbn [abortRef runIdRef myRun setSteps setOverallProgress orb].
    rewrite Z.eqb_refl. cbn [negb].
    destruct (z + 20 <=? 100)%Z; finish;
      try (eapply handed_more; [reflexivity | eassumption]).
  - (* ValPause *)
    begin_case s r Hids Hat Hpc. finish.
    right. right. repeat split; try assumption; try reflexivity.
    eapply handed_more; [reflexivity | eassumption].
Qed.


Lemma aloneInv_feed (p : Props) (s0 : Store) (events : list Event) :
  forall past r s,
    aloneInv p s0 past r s ->
    aloneInv p s0 (past ++ events) (fst (feed r s events)) (snd (feed r s events)).
Proof.
  induction events as [|e rest IH]; intros past r s Hinv.
  - rewrite app_nil_r. exact Hinv.
  - cbn [feed].
    pose proof (aloneInv_step p s0 past r s e Hinv) as Hstep.
    destruct (resume r e s) as [r' s']. cbn [fst snd] in Hstep.
    replace (past ++ e :: rest) with ((past ++ [e]) ++ rest)
      by (rewrite <- app_assoc; reflexivity).
    apply IH. exact Hstep.
Qed.

Lemma aloneInv_run (p : Props) (s0 : Store) (events : list Event) :
  aloneInv p s0 events (fst (runAlone p s0 events)) (snd (runAlone p s0 events)).
Proof.
  unfold runAlone.
  pose proof (aloneInv_start p s0) as Hstart.
  destruct (runGenerationPipeline p s0) as [r s]. cbn [fst snd] in Hstart.
  apply (aloneInv_feed p s0 events [] r s Hstart).
Qed.

Lemma Math_min_cap (n : number) :
  n <> NaN -> Js.le (Math_min (of_Z 100000) n) (of_Z 100000).
Proof.
  destruct n as [| |q|]; intros Hn; try congruence; cbn.
  - exact I.
  - destruct (Qle_bool (inject_Z 100000) q) eqn:Hq; cbn.
    + apply Qle_refl.
    + apply Qle_bool_false in Hq. apply Qlt_le_weak. exact Hq.
  - apply Qle_refl.
Qed.

Lemma Math_min_below (n : number) :
  Js.le n (of_Z 100000) -> Js.eq (Math_min (of_Z 100000) n) n \/ n = NegInf.
Proof.
  destruct n as [| |q|]; cbn; try tauto.
  intros Hq. left.
  destruct (Qle_bool (inject_Z 100000) q) eqn:Hb; cbn.
  - apply Qle_bool_iff in Hb. apply Qle_antisym; assumption.
  - apply Qeq_refl.
Qed.

(** X5.  The count of the generation request is [Math.min(100000, samples)]
    for the [samples] of the props at the start of the run: it is at most
    100000 whenever [samples] is a number, and equal to [samples] whenever
    that is a finite number up to 100000 (zero and negative counts are sent
    as they are). *)
Theorem generation_count_is_capped
    (p : Props) (s0 : Store) (events : list Event)
    (job : option string) (count : number) :
  pc (fst (runAlone p s0 events)) = GenFetch job count ->
  count = Math_min (of_Z 100000) (samples p)
  /\ (samples p <> NaN -> Js.le count (of_Z 100000))
  /\ (forall q, samples p = Fin q -> q <= 100000 -> Js.eq count (Fin q)).
Proof.
  intros Hpc.
  destruct (aloneInv_run p s0 events) as (_ & _ & _ & _ & Hat).
  unfold atAwait in Hat. rewrite Hpc in Hat.
  destruct Hat as (_ & _ & _ & _ & Hcount & _).
  subst count. repeat split.
  - apply Math_min_cap.
  - intros q Hq Hle. rewrite Hq.
    destruct (Math_min_below (Fin q)) as [Heq | Hinf]; [exact Hle | exact Heq | discriminate].
Qed.

Lemma generation_count_is_capped_witness :
  Math_min (of_Z 100000) (samples Scenario.props) = of_Z 100000.
Proof.
  symmetry.
  apply (generation_count_is_capped Scenario.props mounted
           (Scenario.toSanity ++ [Scenario.statusIs "completed" 100])
           (Some "j1"%string)
           (of_Z 100000)).
  reflexivity.
Defined.

(** X6.  The sanity re-check and the generation request are made for the job id
    that the training request was answered with. *)
Theorem later_requests_use_the_training_job
    (p : Props) (s0 : Store) (events : list Event) (job : option string) :
  (pc (fst (runAlone p s0 events)) = SanityFetch job
   \/ exists count, pc (fst (runAlone p s0 events)) = GenFetch job count) ->
  exists j, job = Some j /\ trained events j.
Proof.
  intros Hpc.
  destruct (aloneInv_run p s0 events) as (_ & _ & _ & _ & Hat).
  unfold atAwait in Hat.
  destruct Hpc as [Hpc | [count Hpc]]; rewrite Hpc in Hat.
  - destruct Hat as (_ & _ & (j & Hj & _ & Ht) & Hjob & _).
    exists j. split; [congruence | exact Ht].
  - destruct Hat as (_ & _ & (j & Hj & _ & Ht) & Hjob & _).
    exists j. split; [congruence | exact Ht].
Qed.

Lemma later_requests_use_the_training_job_witness :
  exists j, Some "j1"%string = Some j /\ trained Scenario.toSanity j.
Proof.
  apply (later_requests_use_the_training_job Scenario.props mounted
           Scenario.toSanity (Some "j1"%string)).
  left. reflexivity.
Defined.

Lemma statuses_shape_and_ids (p : Props) (s0 : Store) (events : list Event) :
  In (statuses (snd (runAlone p s0 events))) shapes
  /\ ids (snd (runAlone p s0 events)) = phaseIds.
Proof.
  destruct (aloneInv_run p s0 events) as (Hids & _ & _ & _ & Hat).
  unfold atAwait in Hat. split; [|exact Hids].
  destruct (pc (fst (runAlone p s0 events)));
    repeat match goal with
           | H : _ /\ _ |- _ => destruct H
           | H : _ \/ _ |- _ => destruct H
           end;
    match goal with H : statuses _ = _ |- _ => rewrite H end;
    cbn; auto 12.
Qed.

(** X7.  A run calls [onNext] at most once, and when it has called it, the run
    has returned, the generation artifact of this run is what the parent
    holds, preprocessing, training and validation are completed, and the
    overall progress is 100. *)
Theorem completion_is_signalled_once_after_handover
    (p : Props) (s0 : Store) (events : list Event) :
  nextCalls (snd (runAlone p s0 events)) = nextCalls s0
  \/ (nextCalls (snd (runAlone p s0 events)) = S (nextCalls s0)
      /\ pc (fst (runAlone p s0 events)) = Returned
      /\ statuses (snd (runAlone p s0 events))
         = [completed; completed; running; completed]
      /\ Js.eq (overallProgress (snd (runAlone p s0 events))) (Fin 100)
      /\ handed events (snd (runAlone p s0 events))).
Proof.
  destruct (aloneInv_run p s0 events) as (_ & _ & _ & _ & Hat).
  unfold atAwait, untouched in Hat.
  destruct (pc (fst (runAlone p s0 events))) eqn:Hpc;
    try (left; tauto).
  destruct Hat as [Hat | [Hat | Hat]]; [left; tauto | left; tauto |].
  right. tauto.
Qed.

(** The order in the eight vectors. *)
Lemma shapes_are_ordered (st : list StepStatus) :
  In st shapes ->
  (forall k x,
      (k < 3)%nat -> nth_error st k = Some x -> x <> pending ->
      Forall (fun y => y = completed) (firstn k st))
  /\ (forall x,
        nth_error st 3 = Some x -> x <> pending ->
        st = [completed; completed; running; completed])
  /\ (forall i j,
        nth_error st i = Some error -> nth_error st j = Some error -> i = j).
Proof.
  intros Hin. cbn in Hin.
  repeat (destruct Hin as [<- | Hin]; [|]); try contradiction;
    (split; [|split]);
    try (intros k x Hk Hx Hne;
         destruct k as [|[|[|k]]]; try lia; cbn in Hx;
         injection Hx as <-; try (contradiction Hne; reflexivity);
         cbn; repeat constructor);
    try (intros x Hx Hne; cbn in Hx; injection Hx as <-;
         try reflexivity; contradiction Hne; reflexivity);
    try (intros i j Hi Hj;
         destruct i as [|[|[|[|i]]]]; cbn in Hi; try discriminate Hi;
         try (destruct i; discriminate Hi);
         destruct j as [|[|[|[|j]]]]; cbn in Hj; try discriminate Hj;
         try (destruct j; discriminate Hj);
         reflexivity).
Qed.

(** X8.  At every await of a run the four statuses form one of eight
    vectors.  Preprocessing, training and generation are past pending only
    when every phase before them is completed.  Validation is past pending
    only in the vector completed, completed, running, completed, that is,
    while generation is still shown running: a run marks validation
    completed and never marks generation completed.  At most one phase is
    in error, and then the run has returned; and the ids of the four steps
    are those of the start. *)
Theorem statuses_follow_the_phase_order
    (p : Props) (s0 : Store) (events : list Event) :
  let st := statuses (snd (runAlone p s0 events)) in
  In st shapes
  /\ (forall k x,
        (k < 3)%nat -> nth_error st k = Some x -> x <> pending ->
        Forall (fun y => y = completed) (firstn k st))
  /\ (forall x,
        nth_error st 3 = Some x -> x <> pending ->
        st = [completed; completed; running; completed])
  /\ (forall i j,
        nth_error st i = Some error -> nth_error st j = Some error -> i = j)
  /\ (In error st -> pc (fst (runAlone p s0 events)) = Returned)
  /\ ids (snd (runAlone p s0 events)) = phaseIds.
Proof.
  cbv zeta.
  destruct (aloneInv_run p s0 events) as (Hids & _ & _ & _ & Hat).
  unfold atAwait in Hat.
  pose proof (statuses_shape_and_ids p s0 events) as [Hshape _].
  destruct (shapes_are_ordered _ Hshape) as (Hord & Hval & Herr).
  split; [exact Hshape|]. split; [exact Hord|]. split; [exact Hval|].
  split; [exact Herr|]. split; [|exact Hids].
  destruct (pc (fst (runAlone p s0 events))); try reflexivity;
    repeat match goal with
           | H : _ /\ _ |- _ => destruct H
           end;
    match goal with H : statuses _ = _ |- _ => rewrite H end;
    cbn; intros Hin;
    repeat (destruct Hin as [Hin | Hin]; [discriminate|]); contradiction.
Qed.
(** X9.  The generation phase is never marked completed, so the alert of line
    383 never shows, whatever [seenRunningGeneration] holds. *)
Theorem suspicious_alert_never_shows
    (p : Props) (s0 : Store) (events : list Event) (seen : bool) :
  suspiciousFastGeneration (steps (snd (runAlone p s0 events))) seen = false
  /\ nth_error (statuses (snd (runAlone p s0 events))) 2 <> Some completed.
Proof.
  destruct (statuses_shape_and_ids p s0 events) as [Hshape Hids].
  revert Hshape Hids. unfold statuses, ids.
  destruct (steps (snd (runAlone p s0 events)))
    as [|[ia na da sa pa] [|[ib nb db sb pb]
       [|[ic nc' dc sc pc0] [|[id0 nd dd sd pd] [|extra more]]]]];
    intros Hshape Hids; try discriminate Hids.
  cbn in Hids. injection Hids as -> -> -> ->.
  cbn in Hshape.
  unfold suspiciousFastGeneration. cbn.
  repeat (destruct Hshape as [Hshape | Hshape];
          [injection Hshape as <- <- <- <-; split; [reflexivity | discriminate]|]).
  contradiction.
Qed.

End RunFacts.

(** ** The debug log *)

Module DebugLogFacts.
Import DebugLog.

Lemma firstn_app_firstn {A : Type} (n m : nat) (l1 l2 : list A) :
  (n <= List.length l1 + m)%nat ->
  firstn n (l1 ++ firstn m l2) = firstn n (l1 ++ l2).
Proof.
  intros Hn. rewrite !firstn_app, firstn_firstn.
  replace (Nat.min (n - List.length l1) m) with (n - List.length l1)%nat
    by lia.
  reflexivity.
Qed.

Lemma pushAll_nonempty (calls : list (string * string)) :
  forall c log,
    pushAll (c :: calls) log
    = firstn 200 (rev (map entry (c :: calls)) ++ log).
Proof.
  induction calls as [|c' rest IH]; intros c log.
  - reflexivity.
  - change (pushAll (c :: c' :: rest) log)
      with (pushAll (c' :: rest) (pushLog (fst c) (snd c) log)).
    rewrite IH. unfold pushLog. fold (entry c).
    change (map entry (c :: c' :: rest))
      with (entry c :: map entry (c' :: rest)).
    cbn [rev]. rewrite <- (app_assoc _ [entry c] log). cbn [app].
    change (entry c :: firstn 199 log) with (firstn 200 (entry c :: log)).
    apply firstn_app_firstn. lia.
Qed.

(** X13.  After any series of [pushLog] calls on any log, the log holds the
    entries of the calls, the latest first, followed by what was there
    before, cut to its first 200 lines: it never has more than 200 lines,
    and the oldest lines are the ones dropped. *)
Theorem debug_log_keeps_latest_200
    (c : string * string) (calls : list (string * string))
    (log : list string) :
  pushAll (c :: calls) log = firstn 200 (rev (map entry (c :: calls)) ++ log)
  /\ (List.length (pushAll (c :: calls) log) <= 200)%nat
  /\ (List.length (pushAll (c :: calls) log)
      = Nat.min 200 (S (List.length calls) + List.length log))%nat.
Proof.
  rewrite pushAll_nonempty. split; [reflexivity|].
  rewrite length_firstn, length_app, length_rev, length_map. cbn [List.length].
  split; lia.
Qed.

End DebugLogFacts.

(** ** The wizard *)

Module WizardFacts.
Import Wizard.

(** X15.  The sidebar: exactly the current step is active and exactly the steps
    before it are completed; a click on a step takes the wizard there when
    the step is the current one or an earlier one and does nothing
    otherwise, so a click never moves the wizard forward; and it changes
    nothing but the current step. *)
Theorem sidebar_never_moves_forward (st : State) (step : WorkflowStep) :
  (getStepStatus st step = active <-> step = currentStep st)
  /\ (getStepStatus st step = completed
      <-> (indexOf order step < indexOf order (currentStep st))%Z)
  /\ sidebarClick step st = handleStepClick step st
  /\ (indexOf order (currentStep (sidebarClick step st))
      <= indexOf order (currentStep st))%Z
  /\ (currentStep (sidebarClick step st)
      = if (indexOf order step <=? indexOf order (currentStep st))%Z
        then step else currentStep st)
  /\ sidebarClick step st
     = setCurrentStep (currentStep (sidebarClick step st)) st.
Proof.
  destruct st as [cs uf sm ps gd ig].
  unfold sidebarClick, getStepStatus, handleStepClick, setCurrentStep.
  cbn [currentStep uploadedFile selectedModel params generatedData isGenerating].
  destruct cs, step; cbn; repeat split; intros; try discriminate;
    try reflexivity; try lia; try congruence.
Qed.

End WizardFacts.

(** ** The wizard and its generation pages *)

Module AppFacts.
Import Wizard App.

Lemma handedOver_underWay (r : Driver.Run) :
  handedOver r = true -> underWay r = true.
Proof.
  unfold handedOver, underWay, returned. destruct (Driver.pc r); auto.
Qed.

(** A run that has returned stays so. *)
Lemma resume_underWay (r : Driver.Run) (e : Driver.Event) (s : Driver.Store) :
  underWay (fst (Driver.resume r e s)) = true -> underWay r = true.
Proof.
  unfold underWay, returned. destruct (Driver.pc r) eqn:Hpc; auto.
  unfold Driver.resume. rewrite Hpc. destruct e; cbn; rewrite Hpc; auto.
Qed.

(** The calls a resumption makes to its parent: none, [setGeneratedData]
    on the answer of the generation request, or [onNext] after the pause
    of line 338. *)
Lemma parentCalls_cases (r : Driver.Run) (e : Driver.Event) :
  parentCalls r e = []
  \/ (exists a, parentCalls r e = [SetGeneratedData a])
  \/ (parentCalls r e = [OnNext] /\ Driver.pc r = Driver.ValPause).
Proof.
  unfold parentCalls. destruct (Driver.pc r); destruct e; auto.
  destruct (Driver.generationArtifact res); eauto.
Qed.

Lemma fold_onTick_parent (ticks : list Poller.Tick) :
  forall s,
    Driver.generatedData (fold_left Driver.onTick ticks s)
    = Driver.generatedData s
    /\ Driver.nextCalls (fold_left Driver.onTick ticks s) = Driver.nextCalls s.
Proof.
  induction ticks as [|t ticks IH]; intros s; cbn [fold_left].
  - split; reflexivity.
  - destruct (IH (Driver.onTick s t)) as [Hg Hn]. rewrite Hg, Hn.
    split; reflexivity.
Qed.

(** [parentCalls] lists the calls of [Driver.resume] to the parent: the
    store records the artifact of a [SetGeneratedData] and counts an
    [OnNext], and nothing else touches either. *)
Lemma parentCalls_are_the_calls (r : Driver.Run) (e : Driver.Event)
    (s : Driver.Store) :
  match parentCalls r e with
  | [SetGeneratedData a] =>
      Driver.generatedData (snd (Driver.resume r e s)) = Some a
      /\ Driver.nextCalls (snd (Driver.resume r e s)) = Driver.nextCalls s
  | [OnNext] =>
      Driver.generatedData (snd (Driver.resume r e s)) = Driver.generatedData s
      /\ Driver.nextCalls (snd (Driver.resume r e s)) = S (Driver.nextCalls s)
  | _ =>
      Driver.generatedData (snd (Driver.resume r e s)) = Driver.generatedData s
      /\ Driver.nextCalls (snd (Driver.resume r e s)) = Driver.nextCalls s
  end.
Proof.
  unfold parentCalls, Driver.resume, Driver.preprocessingLoop,
    Driver.pollHead, Driver.startGeneration, Driver.validationLoop.
  destruct (Driver.pc r) eqn:Hpc; destruct e; try (split; reflexivity).
  all: repeat match goal with
           | |- context [let (_, _) := ?x in _] => destruct x
           | |- context [fold_left Driver.onTick ?t ?s] =>
               let Hg := fresh in let Hn := fresh in
               destruct (fold_onTick_parent t s) as [Hg Hn];
               generalize dependent (fold_left Driver.onTick t s); intros
           | |- context [match ?x with _ => _ end] =>
               lazymatch x with
               | context [match _ with _ => _ end] => fail
               | _ => destruct x eqn:?
               end
           end;
    cbn; split; congruence.
Qed.

(** A run enters the validation phase by handing its data over. *)
Lemma resume_handedOver (r : Driver.Run) (e : Driver.Event) (s : Driver.Store) :
  handedOver (fst (Driver.resume r e s)) = true ->
  handedOver r = true \/ exists a, parentCalls r e = [SetGeneratedData a].
Proof.
  unfold handedOver, parentCalls, Driver.resume, Driver.preprocessingLoop,
    Driver.pollHead, Driver.startGeneration, Driver.validationLoop.
  destruct (Driver.pc r) eqn:Hpc; destruct e; cbn [fst]; try rewrite Hpc;
    auto;
    repeat match goal with
           | |- context [let (_, _) := ?x in _] => destruct x
           | |- context [match ?x with _ => _ end] =>
               lazymatch x with
               | context [match _ with _ => _ end] => fail
               | _ => destruct x eqn:?
               end
           end;
    cbn; try discriminate; eauto.
Qed.

Lemma sound_comps (st : State) (comps comps' : list Component.Instance) :
  (someRun underWay comps' -> someRun underWay comps) ->
  (someRun handedOver comps' -> someRun handedOver comps) ->
  sound st comps -> sound st comps'.
Proof.
  intros Hu Hh (J1 & J2 & J3 & J4 & J5). repeat split; auto.
  - apply J3. auto.
  - apply J3. auto.
Qed.

Lemma someRun_fewer (P : Driver.Run -> bool)
    (comps comps' : list Component.Instance) :
  (forall i, In i comps' -> In i comps \/ Component.runs i = []) ->
  someRun P comps' -> someRun P comps.
Proof.
  intros Hsub (i & r & Hi & Hr & HP).
  destruct (Hsub i Hi) as [Hin | Hnil].
  - exists i, r. auto.
  - rewrite Hnil in Hr. contradiction.
Qed.

Lemma busy_someRun (w : World) :
  busy w = false -> ~ someRun underWay (components w).
Proof.
  intros Hb (i & r & Hi & Hr & Hu).
  assert (Ht : busy w = true).
  { unfold busy. apply existsb_exists. exists i. split; [exact Hi|].
    apply existsb_exists. exists r. auto. }
  congruence.
Qed.

(** The world's invariant: the wizard and the runs agree, and a
    mounted generation page means the generate step. *)
Lemma render_components (w : World) (i : Component.Instance) :
  In i (components (render w)) ->
  In i (components w) \/ Component.runs i = [].
Proof.
  destruct w as [st up [c|] gn]. all: unfold render, components; cbn.
  all: destruct (currentStep st); cbn; intros H; auto.
  destruct H as [H | H]; [subst i; right; reflexivity | left; exact H].
Qed.

Lemma render_ui (w : World) : ui (render w) = ui w.
Proof.
  destruct w as [st up [c|] gn]; unfold render; cbn;
    destruct (currentStep st); reflexivity.
Qed.

Lemma render_page (w : World) :
  page (render w) <> None -> currentStep (ui (render w)) = generate.
Proof.
  destruct w as [st up [c|] gn]; unfold render; cbn;
    destruct (currentStep st) eqn:Hs; cbn;
    intros H; try (contradiction H; reflexivity); exact Hs.
Qed.

Lemma render_settled (w : World) :
  sound (ui w) (components w) -> settled (render w).
Proof.
  intros Hs. split; [|apply render_page].
  rewrite render_ui.
  apply (sound_comps (ui w) (components w)); [| |exact Hs];
    apply someRun_fewer; apply render_components.
Qed.

(** The callbacks the user sets off. *)
Lemma user_sound (st : State) (comps : list Component.Instance) (a : Action) :
  sound st comps ->
  offered st a = true ->
  (a = NewProject -> ~ someRun underWay comps) ->
  sound (apply a st) comps.
Proof.
  intros (J1 & J2 & J3 & J4 & J5) Hoff Hreset.
  destruct st as [cs uf sm ps gd ig].
  unfold sound in *.
  cbn [currentStep uploadedFile selectedModel generatedData] in *.
  assert (J3a : someRun underWay comps -> uf <> None) by (intros H; apply J3; exact H).
  assert (J3b : someRun underWay comps -> sm <> None) by (intros H; apply J3; exact H).
  destruct a as [f|m|p|p|d| |step|]; unfold offered, shown in Hoff;
    cbn [currentStep uploadedFile selectedModel generatedData] in Hoff;
    cbn [apply handleFileUpload handleModelSelect setParameters
         handleParametersSet handleResultsView setGeneratedData
         resetWorkflow setCurrentStep currentStep uploadedFile
         selectedModel params generatedData isGenerating].
  - destruct cs; try discriminate; try (destruct uf; discriminate);
      try (destruct sm; discriminate); try (destruct gd; discriminate).
  - destruct cs; try discriminate; try (destruct sm; discriminate);
      try (destruct gd; discriminate).
    destruct uf; [|discriminate].
    repeat split; intros; try discriminate; auto.
  - repeat split; auto.
  - destruct cs; try discriminate; try (destruct uf; discriminate);
      try (destruct gd; discriminate).
    destruct sm; [|discriminate].
    repeat split; intros; try discriminate; auto.
    all: apply J1; discriminate.
  - destruct cs; try discriminate; try (destruct uf; discriminate);
      try (destruct sm; discriminate); try (destruct gd; discriminate).
  - destruct cs; try discriminate; try (destruct uf; discriminate);
      try (destruct sm; discriminate); try (destruct gd; discriminate).
  - unfold sidebarClick, getStepStatus, handleStepClick, setCurrentStep.
    cbn [currentStep uploadedFile selectedModel params generatedData isGenerating].
    destruct cs, step; cbn; repeat split; intros; auto;
      try discriminate;
      try (apply J1; discriminate); try (apply J2; discriminate).
  - pose proof (Hreset eq_refl) as Hnone.
    repeat split; intros; try discriminate;
      try (exfalso; auto; fail).
    exfalso. apply Hnone.
    match goal with H : someRun handedOver _ |- _ =>
      destruct H as (i & r & Hi & Hr & Hh) end.
    exists i, r. repeat split; auto. apply handedOver_underWay. exact Hh.
Qed.

(** A late or timely [onFileUpload]. *)
Lemma upload_sound (st : State) (comps : list Component.Instance)
    (f : UploadedFile) :
  sound st comps -> sound (apply (OnFileUpload f) st) comps.
Proof.
  intros (J1 & J2 & J3 & J4 & J5).
  unfold sound.
  cbn [apply handleFileUpload currentStep uploadedFile selectedModel
       generatedData].
  split; [intros _; discriminate|].
  split; [intros _ H; contradiction H; reflexivity|].
  split; [intros H; split; [discriminate | apply J3; exact H]|].
  split; [exact J4 | discriminate].
Qed.

(** The calls of a run to its parent. *)
Lemma calls_sound (st : State) (comps comps' : list Component.Instance)
    (i : Component.Instance) (r : Driver.Run) (e : Driver.Event) :
  sound st comps ->
  In i comps -> In r (Component.runs i) ->
  (someRun underWay comps' -> someRun underWay comps) ->
  (someRun handedOver comps' ->
   someRun handedOver comps \/ exists a, parentCalls r e = [SetGeneratedData a]) ->
  sound (fold_left (fun st' a => apply a st') (parentCalls r e) st) comps'.
Proof.
  intros (J1 & J2 & J3 & J4 & J5) Hi Hr Hu Hh.
  destruct (parentCalls_cases r e) as [Hc | [(a & Hc) | (Hc & Hpc)]];
    rewrite Hc in *; cbn [fold_left apply].
  - repeat split; auto; try (apply J3; auto).
    intros H. destruct (Hh H) as [Hold | (a & Ha)]; [auto | discriminate Ha].
  - unfold sound.
    cbn [setGeneratedData currentStep uploadedFile selectedModel generatedData].
    repeat split; auto; try (apply J3; auto); intros; discriminate.
  - assert (Hrun : someRun underWay comps).
    { exists i, r. repeat split; auto.
      unfold underWay, returned. rewrite Hpc. reflexivity. }
    assert (Hhand : someRun handedOver comps).
    { exists i, r. repeat split; auto.
      unfold handedOver. rewrite Hpc. reflexivity. }
    unfold sound.
    cbn [handleResultsView setCurrentStep currentStep uploadedFile
         selectedModel generatedData].
    repeat split; intros; auto; try (apply J3; auto).
Qed.

Lemma fold_act (calls : list Action) :
  forall w,
    ui (fold_left (fun w' a => act a w') calls w)
    = fold_left (fun st' a => apply a st') calls (ui w).
Proof.
  induction calls as [|a calls IH]; intros w; cbn [fold_left]; [reflexivity|].
  rewrite IH. unfold act. rewrite render_ui. reflexivity.
Qed.

Lemma settle_runs (k : nat) (e : Driver.Event) (i : Component.Instance)
    (r r2 : Driver.Run) :
  nth_error (Component.runs i) k = Some r ->
  In r2 (Component.runs (Component.settle k e i)) ->
  In r2 (Component.runs i)
  \/ r2 = fst (Driver.resume r e (Component.store i)).
Proof.
  intros Hk. unfold Component.settle. rewrite Hk.
  destruct (Driver.resume r e (Component.store i)) as [r' s'].
  cbn [Component.runs fst]. apply ComponentFacts.In_replace.
Qed.

(** What the settlement of an [await] of one run changes about the runs
    that are under way and about those that have handed their data over. *)
Lemma settle_someRun (comps comps' : list Component.Instance)
    (i : Component.Instance) (k : nat) (r : Driver.Run) (e : Driver.Event) :
  In i comps ->
  nth_error (Component.runs i) k = Some r ->
  (forall j, In j comps' -> In j comps \/ j = Component.settle k e i) ->
  (someRun underWay comps' -> someRun underWay comps)
  /\ (someRun handedOver comps' ->
      someRun handedOver comps
      \/ exists a, parentCalls r e = [SetGeneratedData a]).
Proof.
  intros Hi Hk Hsub.
  assert (Hr : In r (Component.runs i)) by (eapply nth_error_In; exact Hk).
  split; intros (j & r2 & Hj & Hr2 & HP).
  - destruct (Hsub j Hj) as [Hold | ->]; [exists j, r2; auto|].
    destruct (settle_runs k e i r r2 Hk Hr2) as [Hin | ->].
    + exists i, r2. auto.
    + exists i, r. repeat split; auto. eapply resume_underWay. exact HP.
  - destruct (Hsub j Hj) as [Hold | ->]; [left; exists j, r2; auto|].
    destruct (settle_runs k e i r r2 Hk Hr2) as [Hin | ->].
    + left. exists i, r2. auto.
    + destruct (resume_handedOver r e (Component.store i) HP) as [Hh | Hcall].
      * left. exists i, r. auto.
      * right. exact Hcall.
Qed.

Lemma clickStart_handedOver (props : Driver.Props) (i : Component.Instance)
    (r : Driver.Run) :
  In r (Component.runs (Component.clickStart props i)) ->
  handedOver r = true ->
  In r (Component.runs i).
Proof.
  unfold Component.clickStart.
  destruct (Component.isGenerating i); [auto|].
  unfold Driver.runGenerationPipeline, Driver.enter, Driver.preprocessingLoop.
  change (0 <=? 100)%Z with true. cbv iota.
  match goal with
  | |- context [if ?c then _ else _] => destruct c
  end;
    cbn [Component.resetWhenIdle Component.isGenerating Component.runs];
    intros Hin Hh; apply in_app_or in Hin;
    destruct Hin as [Hin | [<- | []]]; auto; discriminate Hh.
Qed.

(** The settlement of an [await] of a run of the component [i], which
    is among the components, in a world whose components then are
    [comps']. *)
Lemma settle_settled (w w1 : World) (i : Component.Instance) (k : nat)
    (e : Driver.Event) :
  settled w ->
  In i (components w) ->
  ui w1 = ui w ->
  (page w1 <> None -> page w <> None) ->
  (forall j, In j (components w1) ->
             In j (components w) \/ j = fst (settleIn k e i)) ->
  settled (fold_left (fun w' a => act a w') (snd (settleIn k e i)) w1).
Proof.
  intros [Hsound Hpage] Hi Hui Hpg Hsub. unfold settleIn in *.
  destruct (nth_error (Component.runs i) k) as [r|] eqn:Hk; cbn [fst snd] in *.
  2:{ cbn [fold_left]. split.
      - rewrite Hui. apply (sound_comps (ui w) (components w)); [| |exact Hsound];
          apply someRun_fewer; intros j Hj;
          destruct (Hsub j Hj) as [H | ->]; auto.
      - intros H. rewrite Hui. auto. }
  assert (Hr : In r (Component.runs i)) by (eapply nth_error_In; exact Hk).
  destruct (settle_someRun (components w) (components w1) i k r e Hi Hk Hsub)
    as [Hu Hh].
  pose proof (calls_sound (ui w) (components w) (components w1) i r e
                Hsound Hi Hr Hu Hh) as Hafter.
  destruct (parentCalls_cases r e) as [Hc | [(a & Hc) | (Hc & Hpc)]];
    rewrite Hc in *; cbn [fold_left] in *.
  - split; [rewrite Hui; exact Hafter|]. intros H. rewrite Hui. auto.
  - unfold act. apply render_settled. cbn [ui]. rewrite Hui.
    destruct w1; exact Hafter.
  - unfold act. apply render_settled. cbn [ui]. rewrite Hui.
    destruct w1; exact Hafter.
Qed.

Lemma step_settled (w : World) (x : Input) :
  settled w ->
  (resets w x = true -> busy w = false) ->
  settled (step w x).
Proof.
  intros Hw Hcalm. pose proof Hw as [Hsound Hpage].
  destruct x as [a| |f| |[n|] k e]; cbn [step].
  - destruct (offered (ui w) a) eqn:Hoff; [|exact Hw].
    unfold act. apply render_settled. destruct w as [st up pg gn].
    apply user_sound; [exact Hsound | exact Hoff |].
    intros ->. apply busy_someRun. apply Hcalm. exact Hoff.
  - destruct (shown (ui w)); exact Hw.
  - destruct (uploads w) as [|m] eqn:Hup; [exact Hw|].
    unfold act. apply render_settled. destruct w as [st up pg gn].
    apply upload_sound. exact Hsound.
  - destruct w as [st up [i|] gn]; [|exact Hw].
    unfold settled, components in *. cbn [ui page gone] in *.
    assert (Hgen : currentStep st = generate) by (apply Hpage; discriminate).
    split; [|intros _; exact Hgen].
    destruct Hsound as (J1 & J2 & J3 & J4 & J5).
    repeat split; auto.
    + apply J1. rewrite Hgen. discriminate.
    + apply J2; rewrite Hgen; discriminate.
    + intros (j & r & Hj & Hr & Hh). apply J4.
      destruct Hj as [<- | Hj].
      * exists i, r. repeat split; auto.
        -- left. reflexivity.
        -- eapply clickStart_handedOver; eassumption.
      * exists j, r. repeat split; auto. right. exact Hj.
  - destruct (nth_error (gone w) n) as [i|] eqn:Hn; [|exact Hw].
    pose proof (settle_settled w
                  (mkWorld (ui w) (uploads w) (page w)
                     (Component.replace n (fst (settleIn k e i)) (gone w)))
                  i k e Hw) as H.
    destruct (settleIn k e i) as [i' calls]. cbn [fst snd] in H.
    apply H.
    + unfold components. apply nth_error_In in Hn.
      destruct (page w); [right|]; exact Hn.
    + reflexivity.
    + auto.
    + unfold components. cbn [page gone]. intros j Hj.
      destruct (page w) as [c|].
      * destruct Hj as [<- | Hj]; [left; left; reflexivity|].
        apply ComponentFacts.In_replace in Hj.
        destruct Hj as [Hj | ->]; [left; right; exact Hj | right; reflexivity].
      * apply ComponentFacts.In_replace in Hj.
        destruct Hj as [Hj | ->]; [left; exact Hj | right; reflexivity].
  - destruct (page w) as [i|] eqn:Hp; [|exact Hw].
    pose proof (settle_settled w
                  (mkWorld (ui w) (uploads w) (Some (fst (settleIn k e i)))
                     (gone w))
                  i k e Hw) as H.
    destruct (settleIn k e i) as [i' calls]. cbn [fst snd] in H.
    apply H.
    + unfold components. rewrite Hp. left. reflexivity.
    + reflexivity.
    + intros _. rewrite Hp. discriminate.
    + unfold components. cbn [page gone]. rewrite Hp. intros j Hj.
      destruct Hj as [<- | Hj]; [right; reflexivity | left; right; exact Hj].
Qed.

Lemma exec_settled (inputs : list Input) :
  forall w, settled w -> calm w inputs -> settled (fold_left step inputs w).
Proof.
  induction inputs as [|x rest IH]; intros w Hw Hcalm; cbn [fold_left].
  - exact Hw.
  - destruct Hcalm as [Hx Hrest]. apply IH; [|exact Hrest].
    apply step_settled; assumption.
Qed.

Lemma start_settled : settled start.
Proof.
  unfold settled, sound, start. cbn.
  repeat split; intros; try discriminate;
    try (exfalso; auto; fail);
    try (match goal with H : someRun _ [] |- _ =>
           destruct H as (i & r & [] & _) end).
Qed.

(** X14.  As long as the workflow is not reset while a run of a generation
    page is under way, the wizard never shows a blank pane and the
    generation page always gets a file and a model, wherever the user
    goes with the sidebar and whenever the callbacks of uploads and of
    runs arrive, also after their page is gone: past the upload step
    there is an uploaded file, past the model step a selected model, and
    on the results step the generated data. *)
Theorem wizard_pages_have_their_inputs (inputs : list Input) :
  calm start inputs ->
  shown (ui (exec inputs)) <> Blank
  /\ (forall f m,
        shown (ui (exec inputs)) = DataGenerationPage f m ->
        f <> None /\ m <> None)
  /\ (page (exec inputs) <> None ->
      currentStep (ui (exec inputs)) = generate).
Proof.
  intros Hcalm.
  destruct (exec_settled inputs start start_settled Hcalm)
    as [(J1 & J2 & _ & _ & J5) Hpage].
  fold (exec inputs) in J1, J2, J5, Hpage.
  split; [|split; [|exact Hpage]].
  - unfold shown. destruct (currentStep (ui (exec inputs))) eqn:Hcs;
      try discriminate.
    + destruct (uploadedFile (ui (exec inputs))); [discriminate|].
      exfalso. apply J1; [discriminate | reflexivity].
    + destruct (selectedModel (ui (exec inputs))); [discriminate|].
      exfalso. apply J2; [discriminate | discriminate | reflexivity].
    + destruct (generatedData (ui (exec inputs))); [discriminate|].
      exfalso. apply J5; reflexivity.
  - intros f m. unfold shown.
    destruct (currentStep (ui (exec inputs))) eqn:Hcs; try discriminate;
      try (destruct (uploadedFile (ui (exec inputs))); discriminate);
      try (destruct (selectedModel (ui (exec inputs))); discriminate);
      try (destruct (generatedData (ui (exec inputs))); discriminate).
    intros H. inversion H; subst. split; [apply J1 | apply J2]; discriminate.
Qed.

(** *** Every generation page is a component of its own

    Each mount starts from fresh state and refs, so what holds of one
    mounted component holds of all that a session mounts. *)

Lemma render_mounts (w : World) (i : Component.Instance) :
  In i (components (render w)) ->
  In i (components w) \/ i = Component.mount.
Proof.
  destruct w as [st up [c|] gn]. all: unfold render, components; cbn.
  all: destruct (currentStep st); cbn; intros H; auto.
  destruct H as [H | H]; [subst i; right; reflexivity | left; exact H].
Qed.

Lemma act_mounts (a : Action) (w : World) (i : Component.Instance) :
  In i (components (act a w)) ->
  In i (components w) \/ i = Component.mount.
Proof.
  unfold act. intros H. apply render_mounts in H.
  destruct w as [st up pg gn]. exact H.
Qed.

Lemma fold_act_mounts (calls : list Action) :
  forall w i,
    In i (components (fold_left (fun w' a => act a w') calls w)) ->
    In i (components w) \/ i = Component.mount.
Proof.
  induction calls as [|a calls IH]; intros w i H; cbn [fold_left] in H.
  - left. exact H.
  - destruct (IH _ _ H) as [Hin | Hm]; [|right; exact Hm].
    apply act_mounts in Hin. exact Hin.
Qed.

Lemma settleIn_settle (k : nat) (e : Driver.Event) (i : Component.Instance) :
  fst (settleIn k e i) = Component.step i (Component.Settle k e).
Proof.
  unfold settleIn, Component.step, Component.settle.
  destruct (nth_error (Component.runs i) k); reflexivity.
Qed.

Lemma step_components (w : World) (x : Input) :
  Forall Component.oneLiveRun (components w) ->
  Forall Component.oneLiveRun (components (step w x)).
Proof.
  intros Hw. rewrite Forall_forall in Hw. apply Forall_forall. intros j Hj.
  assert (Hmount : forall c, In c (components w) \/ c = Component.mount ->
                   Component.oneLiveRun c).
  { intros c [Hc | ->]; [apply Hw; exact Hc|].
    apply ComponentFacts.oneLiveRun_mount. }
  destruct x as [a| |f| |[n|] k e]; cbn [step] in Hj.
  - destruct (offered (ui w) a); [|apply Hw; exact Hj].
    apply Hmount. apply (act_mounts a). exact Hj.
  - destruct (shown (ui w)); apply Hw; exact Hj.
  - destruct (uploads w) as [|m]; [apply Hw; exact Hj|].
    apply Hmount. apply act_mounts in Hj. destruct w; exact Hj.
  - destruct w as [st up [i|] gn]; [|apply Hw; exact Hj].
    unfold components in *. cbn [page gone] in *.
    destruct Hj as [<- | Hj]; [|apply Hw; right; exact Hj].
    apply (ComponentFacts.oneLiveRun_step i (Component.ClickStart _)).
    apply Hw. left. reflexivity.
  - destruct (nth_error (gone w) n) as [i|] eqn:Hn; [|apply Hw; exact Hj].
    pose proof (settleIn_settle k e i) as Hfst.
    destruct (settleIn k e i) as [i' calls]. cbn [fst] in Hfst.
    apply fold_act_mounts in Hj.
    destruct Hj as [Hj | ->]; [|apply ComponentFacts.oneLiveRun_mount].
    assert (Hi : Component.oneLiveRun i).
    { apply Hw. unfold components. apply nth_error_In in Hn.
      destruct (page w); [right|]; exact Hn. }
    assert (Hi' : Component.oneLiveRun i').
    { rewrite Hfst. apply ComponentFacts.oneLiveRun_step. exact Hi. }
    unfold components in Hj, Hw. cbn [page gone] in Hj.
    destruct (page w) as [c|].
    + destruct Hj as [<- | Hj]; [apply Hw; left; reflexivity|].
      apply ComponentFacts.In_replace in Hj.
      destruct Hj as [Hj | ->]; [apply Hw; right; exact Hj | exact Hi'].
    + apply ComponentFacts.In_replace in Hj.
      destruct Hj as [Hj | ->]; [apply Hw; exact Hj | exact Hi'].
  - destruct (page w) as [i|] eqn:Hp; [|apply Hw; exact Hj].
    pose proof (settleIn_settle k e i) as Hfst.
    destruct (settleIn k e i) as [i' calls]. cbn [fst] in Hfst.
    apply fold_act_mounts in Hj.
    destruct Hj as [Hj | ->]; [|apply ComponentFacts.oneLiveRun_mount].
    unfold components in Hj, Hw. cbn [page gone] in Hj. rewrite Hp in Hw.
    destruct Hj as [<- | Hj]; [|apply Hw; right; exact Hj].
    rewrite Hfst. apply ComponentFacts.oneLiveRun_step.
    apply Hw. left. reflexivity.
Qed.

(** In a whole session, whatever pages are mounted and left: every
    component has started at most one run, and that run is the live one of
    its component, with the abort flag down. *)
Lemma every_component_has_one_live_run (inputs : list Input) :
  Forall Component.oneLiveRun (components (exec inputs)).
Proof.
  unfold exec.
  assert (H : forall w, Forall Component.oneLiveRun (components w) ->
                   Forall Component.oneLiveRun
                     (components (fold_left step inputs w))).
  { induction inputs as [|x rest IH]; intros w Hw; cbn [fold_left].
    - exact Hw.
    - apply IH. apply step_components. exact Hw. }
  apply H. constructor.
Qed.

Lemma wizard_pages_have_their_inputs_witness :
  shown (ui (exec session)) <> Blank
  /\ (forall f m,
        shown (ui (exec session)) = DataGenerationPage f m ->
        f <> None /\ m <> None)
  /\ (page (exec session) <> None ->
      currentStep (ui (exec session)) = generate).
Proof.
  apply (wizard_pages_have_their_inputs session).
  vm_compute. repeat split; intros H; try discriminate H; reflexivity.
Defined.

(** The results of the session are on the screen before the new project
    is begun, and the upload page after it. *)
Lemma session_shows_results :
  shown (ui (exec (removelast session)))
  = ResultsDisplayPage
      (Driver.mkArtifact (Str "j1") (Arr []))
  /\ busy (exec (removelast session)) = false
  /\ shown (ui (exec session)) = FileUploadPage.
Proof. vm_compute. repeat split. Qed.

(** The proviso is needed.  When a new project is begun under a run, the
    run still hands its data over and calls [onNext]: the wizard is taken
    to the results step with no file and no model, and a click on the
    sidebar then shows the generation page without them. *)
Lemma reset_under_a_run_orphans_its_results :
  let w := exec orphaning in
  ~ calm start orphaning
  /\ currentStep (ui w) = results
  /\ uploadedFile (ui w) = None
  /\ selectedModel (ui w) = None
  /\ shown (ui (step w (User (SidebarClick generate))))
     = DataGenerationPage None None.
Proof.
  cbv zeta. split; [|vm_compute; repeat split].
  intros H. vm_compute in H.
  repeat match goal with
         | H : _ /\ _ |- _ => destruct H
         end.
  match goal with
  | H : true = true -> true = false |- _ => discriminate (H eq_refl)
  end.
Qed.

End AppFacts.

(** ** The step bar *)

Module StepBarFacts.
Import StepBar.

(** X16.  The step bar and the sidebar sort every step the same way with
    respect to the current one: completed, current (active) or upcoming
    (pending), and each step falls in exactly one of the three. *)
Theorem step_bar_agrees_with_sidebar (st : Wizard.State)
    (step : Wizard.WorkflowStep) :
  let index := Wizard.indexOf stepIds step in
  (isCompleted (Wizard.currentStep st) index = true
   <-> Wizard.getStepStatus st step = Wizard.completed)
  /\ (isCurrent (Wizard.currentStep st) index = true
      <-> Wizard.getStepStatus st step = Wizard.active)
  /\ (isUpcoming (Wizard.currentStep st) index = true
      <-> Wizard.getStepStatus st step = Wizard.pending)
  /\ (index <> (-1)%Z /\ currentIndex (Wizard.currentStep st) <> (-1)%Z).
Proof.
  destruct st as [cs uf sm ps gd ig].
  unfold isCompleted, isCurrent, isUpcoming, currentIndex, Wizard.getStepStatus.
  cbn [Wizard.currentStep].
  destruct cs, step; cbn; repeat split; intros; try discriminate;
    try reflexivity.
Qed.

End StepBarFacts.

(** ** The CSV export *)

Module CsvFacts.
Import Csv.
















Section Text.

Variable numberToString : number -> string.
Variable JSON_stringify : value -> string.
Variable functionToString : string -> string.
Variable prototype : string -> option any.




End Text.

Lemma addKey_spec (set : list string) (k x : string) :
  In x (addKey set k) <-> In x set \/ x = k.
Proof.
  unfold addKey. destruct (existsb (String.eqb k) set) eqn:He.
  - apply existsb_exists in He. destruct He as (y & Hy & Hky).
    apply String.eqb_eq in Hky. subst y.
    split; [auto | intros [H | H]; [exact H | subst; exact Hy]].
  - rewrite in_app_iff. cbn. split; intros [H | H]; auto.
    + destruct H as [H | []]. auto.
Qed.

Lemma addKey_NoDup (set : list string) (k : string) :
  NoDup set -> NoDup (addKey set k).
Proof.
  intros Hnd. unfold addKey. destruct (existsb (String.eqb k) set) eqn:He.
  - exact Hnd.
  - apply NoDup_app; [exact Hnd | constructor; [intros [] | constructor] |].
    intros x Hx [Hk | []]. subst x.
    assert (Ht : existsb (String.eqb k) set = true).
    { apply existsb_exists. exists k. split; [exact Hx | apply String.eqb_refl]. }
    congruence.
Qed.

Lemma addKeys_spec (ks : list string) :
  forall set x, In x (fold_left addKey ks set) <-> In x set \/ In x ks.
Proof.
  induction ks as [|k ks IH]; intros set x; cbn [fold_left].
  - cbn. tauto.
  - rewrite IH, addKey_spec. cbn. split; intros H; intuition (subst; auto).
Qed.

Lemma addKeys_NoDup (ks : list string) :
  forall set, NoDup set -> NoDup (fold_left addKey ks set).
Proof.
  induction ks as [|k ks IH]; intros set Hnd; cbn [fold_left].
  - exact Hnd.
  - apply IH. apply addKey_NoDup. exact Hnd.
Qed.

Lemma headers_from (rows : list Row) :
  forall set,
    NoDup set ->
    NoDup (fold_left (fun acc r => fold_left addKey (keys r) acc) rows set)
    /\ forall x,
        In x (fold_left (fun acc r => fold_left addKey (keys r) acc) rows set)
        <-> In x set \/ exists r, In r rows /\ In x (keys r).
Proof.
  induction rows as [|r rows IH]; intros set Hnd; cbn [fold_left].
  - split; [exact Hnd|]. intros x. split; [auto | intros [H | (r & [] & _)]; exact H].
  - destruct (IH (fold_left addKey (keys r) set) (addKeys_NoDup _ _ Hnd))
      as [Hnd' Hin].
    split; [exact Hnd'|].
    intros x. rewrite Hin, addKeys_spec. split.
    + intros [[H | H] | (r' & Hr' & Hx)]; auto.
      * right. exists r. split; [left; reflexivity | exact H].
      * right. exists r'. split; [right; exact Hr' | exact Hx].
    + intros [H | (r' & [Heq | Hr'] & Hx)]; auto.
      * subst r'. auto.
      * right. exists r'. auto.
Qed.

(** X18.  The column names are the keys that occur in some row, each once. *)
Theorem headers_are_the_keys_once (rows : list Row) :
  NoDup (headers rows)
  /\ forall k, In k (headers rows) <-> exists r, In r rows /\ In k (keys r).
Proof.
  destruct (headers_from rows [] (NoDup_nil _)) as [Hnd Hin].
  split; [exact Hnd|].
  intros k. unfold headers. rewrite Hin. split; [intros [[] | H]; exact H | auto].
Qed.

End CsvFacts.


(** ** The model page *)

Module CatalogFacts.
Import Wizard Catalog.




(** X20.  A file that matches an entry of the dropzone's [accept] table in both
    its MIME type and its extension is never detected as an image, and so
    is offered at least one model. *)
Theorem accepted_files_are_offered_a_model
    (mime ext name content : string) (exts : list string) (size : Z)
    (d : option string) :
  In (mime, exts) accept ->
  In ext exts ->
  endsWith ext name = true ->
  getDataType (mkFile name size mime content d) <> image
  /\ recommendedModels (mkFile name size mime content d) <> [].
Proof.
  intros Hmime Hext Hname.
  unfold recommendedModels, getDataType. cbn [file_type file_name].
  unfold accept in Hmime. cbn [In] in Hmime.
  repeat (destruct Hmime as [Hmime | Hmime];
          [injection Hmime as <- <-; cbn [In] in Hext;
           destruct Hext as [<- | []]; rewrite ?Hname|]);
    try contradiction;
    generalize (endsWith ".csv" name) (endsWith ".xlsx" name)
               (endsWith ".txt" name) (endsWith ".json" name);
    intros b1 b2 b3 b4; try (destruct b1, b2, b3; vm_compute; split; discriminate);
    try (destruct b1, b2, b3, b4; vm_compute; split; discriminate).
Qed.

Lemma accepted_files_are_offered_a_model_witness :
  getDataType (mkFile "sales.json" 120 "application/json" EmptyString None)
  <> image
  /\ recommendedModels
       (mkFile "sales.json" 120 "application/json" EmptyString None)
     <> [].
Proof.
  apply (accepted_files_are_offered_a_model "application/json" ".json"
           "sales.json" EmptyString [".json"%string] 120 None).
  - right. left. reflexivity.
  - left. reflexivity.
  - reflexivity.
Defined.

End CatalogFacts.

(** ** From the wizard's inputs to the run's requests *)

Module RequestFacts.
Import Driver RunSpec.

Lemma orZero_number (n : number) : Controls.orZero n <> NaN.
Proof.
  destruct n as [| |q|]; cbn; try discriminate.
  destruct (Qeq_bool q 0); discriminate.
Qed.

(** X12.  Whatever is typed into the samples box, the sample count that is
    stored is a number, never NaN; so a run that takes it as its [samples]
    asks the backend for a count that is a number of at most 100000. *)
Theorem typed_sample_count_is_sent_capped
    (parseInt : string -> number) (value : string)
    (localParams : Wizard.GenerationParameters)
    (p : Props) (s0 : Store) (events : list Event)
    (job : option string) (count : number) :
  samples p
  = Wizard.samples (Controls.handleSamplesChange parseInt value localParams) ->
  pc (fst (runAlone p s0 events)) = GenFetch job count ->
  samples p <> NaN
  /\ Js.le count (of_Z 100000)
  /\ (Js.eq (parseInt value) (of_Z 0) \/ parseInt value = NaN
      \/ samples p = parseInt value).
Proof.
  intros Hs Hpc. cbn [Controls.handleSamplesChange Wizard.samples] in Hs.
  assert (Hn : samples p <> NaN) by (rewrite Hs; apply orZero_number).
  split; [exact Hn|]. split.
  - destruct (RunFacts.aloneInv_run p s0 events) as (_ & _ & _ & _ & Hat).
    unfold atAwait in Hat. rewrite Hpc in Hat.
    destruct Hat as (_ & _ & _ & _ & Hcount & _).
    subst count. apply RunFacts.Math_min_cap. exact Hn.
  - rewrite Hs. destruct (parseInt value) as [| |q|]; cbn; auto.
    destruct (Qeq_bool q 0) eqn:Hq; auto.
    left. apply Qeq_bool_iff in Hq. exact Hq.
Qed.

Lemma typed_sample_count_is_sent_capped_witness :
  samples Scenario.props <> NaN
  /\ Js.le (of_Z 100000) (of_Z 100000)
  /\ (Js.eq (of_Z 250000) (of_Z 0) \/ of_Z 250000 = NaN
      \/ samples Scenario.props = of_Z 250000).
Proof.
  apply (typed_sample_count_is_sent_capped (fun _ => of_Z 250000) "250000"
           (Wizard.params Wizard.initial) Scenario.props mounted
           (Scenario.toSanity ++ [Scenario.statusIs "completed" 100])
           (Some "j1"%string) (of_Z 100000)); reflexivity.
Defined.

Lemma resume_locals (r : Run) (e : Event) (s : Store) :
  modelName (fst (resume r e s)) = modelName r
  /\ datasetId (fst (resume r e s)) = datasetId r
  /\ forall m d,
      pc (fst (resume r e s)) = TrainPost m d ->
      pc r = TrainPost m d \/ (m = modelName r /\ d = datasetId r).
Proof.
  unfold resume, preprocessingLoop, pollHead, startGeneration, validationLoop.
  destruct (pc r) eqn:Hpc; destruct e;
    repeat match goal with
           | |- context [let (_, _) := ?x in _] => destruct x
           | |- context [match ?x with _ => _ end] => destruct x
           end;
    cbn [fst snd goto with_jobId modelName datasetId pc];
    repeat split; intros; try discriminate; auto;
    try (right; split; congruence);
    try (left; congruence).
Qed.

Lemma feed_locals (events : list Event) :
  forall r s,
    modelName (fst (feed r s events)) = modelName r
    /\ datasetId (fst (feed r s events)) = datasetId r
    /\ forall m d,
        pc (fst (feed r s events)) = TrainPost m d ->
        pc r = TrainPost m d \/ (m = modelName r /\ d = datasetId r).
Proof.
  induction events as [|e rest IH]; intros r s; cbn [feed].
  - cbn [fst]. repeat split. auto.
  - destruct (resume_locals r e s) as (Hm & Hd & Hpc).
    destruct (resume r e s) as [r' s']. cbn [fst] in Hm, Hd, Hpc.
    destruct (IH r' s') as (Hm' & Hd' & Hpc').
    repeat split; try congruence.
    intros m d Hpost. destruct (Hpc' m d Hpost) as [Hbefore | [Hmm Hdd]].
    + destruct (Hpc m d Hbefore) as [H | H]; auto.
    + right. split; congruence.
Qed.

(** X11.  The training request always names the model adsgan, whichever model
    was selected in the wizard, and the dataset id of the uploaded file,
    or the empty string when the file has none. *)
Theorem training_request_ignores_the_selected_model
    (st : Wizard.State) (s0 : Store) (events : list Event)
    (m d : string) :
  pc (fst (runAlone (Controls.propsOf st) s0 events)) = TrainPost m d ->
  m = "adsgan"%string
  /\ d = match Wizard.uploadedFile st with
         | Some f =>
             match Wizard.dataset_id f with
             | Some x => x
             | None => EmptyString
             end
         | None => EmptyString
         end.
Proof.
  unfold runAlone, runGenerationPipeline, enter, preprocessingLoop.
  change (0 <=? 100)%Z with true. cbv iota.
  set (r0 := {| myRun := _; datasetId := _; modelName := _; sampleCount := _;
                jobId := _; pc := _ |}).
  set (s1 := setSteps _ _).
  intros Hpc.
  assert (Hstart : forall r, (r = goto r0 Returned \/ r = goto r0 (PreDelay 0)) ->
                   pc (fst (feed r s1 events)) = TrainPost m d ->
                   m = modelName r0 /\ d = datasetId r0).
  { intros r Hr Hpost.
    destruct (feed_locals events r s1) as (_ & _ & Hloc).
    destruct (Hloc m d Hpost) as [Hbefore | Hmd].
    - destruct Hr as [-> | ->]; discriminate Hbefore.
    - destruct Hr as [-> | ->]; exact Hmd. }
  destruct (cancelled r0 s1);
    [destruct (Hstart (goto r0 Returned)) as [Hm Hd]; auto
    |destruct (Hstart (goto r0 (PreDelay 0))) as [Hm Hd]; auto];
    subst m d; cbn; split; try reflexivity;
    unfold Controls.propsOf; cbn;
    destruct (Wizard.uploadedFile st) as [f|]; try reflexivity;
    destruct (Wizard.dataset_id f); reflexivity.
Qed.

Lemma training_request_ignores_the_selected_model_witness :
  "adsgan"%string = "adsgan"%string
  /\ EmptyString = match Wizard.uploadedFile Wizard.initial with
                   | Some f =>
                       match Wizard.dataset_id f with
                       | Some x => x
                       | None => EmptyString
                       end
                   | None => EmptyString
                   end.
Proof.
  apply (training_request_ignores_the_selected_model Wizard.initial mounted
           (Scenario.timers 7)).
  reflexivity.
Defined.

End RequestFacts.

(** ** Progress values stay in range *)

Module RangeFacts.
Import Driver RunSpec.

Lemma Forall_mapi_from {A : Type} (P : A -> Prop) (f : A -> nat -> A)
    (l : list A) :
  (forall x i, P x -> P (f x i)) ->
  forall n, Forall P l -> Forall P (mapi_from n f l).
Proof.
  intros Hf. induction l as [|x l IH]; intros n Hl; cbn [mapi_from].
  - constructor.
  - inversion Hl; subst. constructor; [apply Hf; assumption | apply IH; assumption].
Qed.

Lemma inRange_steps (f : GenerationStep -> nat -> GenerationStep) (s : Store) :
  (forall st i, in_0_100 (progress st) -> in_0_100 (progress (f st i))) ->
  inRange s -> inRange (setSteps f s).
Proof.
  intros Hf [Hsteps Hov]. split; [|exact Hov].
  cbn [setSteps steps]. apply Forall_mapi_from; assumption.
Qed.

Lemma inRange_overall (v : number) (s : Store) :
  in_0_100 v -> inRange s -> inRange (setOverallProgress v s).
Proof. intros Hv [Hsteps _]. split; assumption. Qed.

Lemma in_0_100_of_Z (z : Z) : (0 <= z <= 100)%Z -> in_0_100 (of_Z z).
Proof. intros Hz. cbn. apply DriverFacts.inject_Z_range. exact Hz. Qed.

Lemma overall_in_range (q : Q) :
  0 <= q <= 100 ->
  in_0_100 (overallInPreprocessing (Fin q))
  /\ in_0_100 (overallInTraining (Fin q))
  /\ in_0_100 (overallInValidation (Fin q)).
Proof.
  intros [H0 H100].
  rewrite AggregatorFacts.overallInPreprocessing_fin,
    AggregatorFacts.overallInTraining_fin,
    AggregatorFacts.overallInValidation_fin.
  cbn [in_0_100]. DriverFacts.q_consts. repeat split; lra.
Qed.

(** Closes the side conditions on the step updaters. *)
Ltac updater :=
  let st := fresh "st" in
  let i := fresh "i" in
  let H := fresh "H" in
  intros st i H; unfold at_index;
  try match goal with |- context [Nat.eqb ?a ?b] => destruct (Nat.eqb a b) end;
  cbn [progress with_progress with_status]; try exact H;
  try (apply in_0_100_of_Z; lia).

Lemma range_step (r : Run) (s : Store) (e : Event) :
  loopBound r -> inRange s -> numeric e ->
  loopBound (fst (resume r e s)) /\ inRange (snd (resume r e s)).
Proof.
  intros Hb Hs He. unfold loopBound in Hb. unfold resume.
  destruct (pc r) as [z| |mn ds|st|st| |job|job count|z| |] eqn:Hpc;
    destruct e as [|res|res|res];
    try (cbn [fst snd]; split; [unfold loopBound; rewrite Hpc; exact Hb | exact Hs]).
  - (* PreDelay *)
    destruct (overall_in_range (inject_Z z) (DriverFacts.inject_Z_range z Hb))
      as (Hov & _ & _).
    unfold preprocessingLoop.
    destruct (z + 20 <=? 100)%Z eqn:Hz;
      [apply Z.leb_le in Hz; destruct (cancelled r _)|];
      cbn [fst snd]; unfold loopBound; cbn [pc goto];
      (split; [try exact I; try lia|]);
      repeat first [ apply inRange_overall; [first [exact Hov | apply in_0_100_of_Z; cbn; lia]|]
                   | apply inRange_steps; [updater|]
                   | exact Hs ].
  - (* PrePause *)
    cbn [fst snd]. split; [exact I|].
    apply inRange_steps; [|exact Hs].
    intros x i H. cbn [progress]. destruct (Nat.eqb i 1); [apply in_0_100_of_Z; lia | exact H].
  - (* TrainPost *)
    destruct (trainingJobId res) as [j|msg]; [unfold pollHead; destruct (abortRef _)|];
      cbn [fst snd]; (split; [exact I|]);
      try (apply inRange_steps; [updater|]); exact Hs.
  - (* TrainPollFetch *)
    pose proof (DriverFacts.delivered_try_block trainingPoll st (fetchStatus res))
      as Hticks.
    destruct (Poller.iteration trainingPoll st (fetchStatus res)) as [ticks next].
    cbn [fst] in Hticks. subst ticks.
    assert (Hfold : inRange
                      (fold_left onTick
                         match fetchStatus res with
                         | Normal raw =>
                             [Poller.mkTick (Poller.clampPercent (Remote.percent raw))
                                (safeLower (Str (Remote.status raw)))]
                         | Throws _ => []
                         end s)).
    { destruct (fetchStatus res) as [raw|msg] eqn:Hf; cbn [fold_left]; [|exact Hs].
      assert (Hc : in_0_100 (Poller.clampPercent (Remote.percent raw))).
      { apply PollerFacts.clampPercent_in_range. apply (He res raw eq_refl Hf). }
      destruct (in_0_100_fin _ Hc) as (q & Hq & Hrange).
      unfold onTick. cbn [Poller.tick_percent]. rewrite Hq.
      destruct (overall_in_range q Hrange) as (_ & Hov & _).
      apply inRange_overall; [exact Hov|].
      apply inRange_steps; [|exact Hs].
      intros x i H. unfold at_index. destruct (Nat.eqb i 1); [exact Hrange | exact H]. }
    destruct next as [st'|[|]|why]; cbn [fst snd]; (split; [exact I|]);
      try exact Hfold.
    + apply inRange_overall; [cbn; split; discriminate|].
      apply inRange_steps; [updater | exact Hfold].
    + apply inRange_steps; [updater | exact Hfold].
  - (* TrainPollSleep *)
    unfold pollHead. destruct (abortRef s); cbn [fst snd]; split; try exact I; exact Hs.
  - (* TrainPause *)
    cbn [fst snd]. split; [exact I | exact Hs].
  - (* SanityFetch *)
    destruct (assertCompleted res) as [[|]|msg]; unfold startGeneration;
      try destruct (cancelled r s); cbn [fst snd]; (split; [exact I|]);
      try exact Hs;
      try (apply inRange_steps; [updater | exact Hs]);
      (apply inRange_steps; [|exact Hs];
       intros x i H; cbn [progress];
       destruct (Nat.eqb i 2); [apply in_0_100_of_Z; lia | exact H]).
  - (* GenFetch *)
    destruct (generationArtifact res) as [a|msg]; unfold validationLoop;
      [change (0 <=? 100)%Z with true; cbv iota; destruct (cancelled r _)|];
      cbn [fst snd]; unfold loopBound; cbn [pc goto];
      (split; [try exact I; try lia|]);
      try (apply inRange_steps; [updater | exact Hs]);
      destruct Hs as [Hsteps Hov]; split; assumption.
  - (* ValDelay *)
    destruct (overall_in_range (inject_Z z) (DriverFacts.inject_Z_range z Hb))
      as (_ & _ & Hov).
    unfold validationLoop.
    destruct (z + 20 <=? 100)%Z eqn:Hz;
      [apply Z.leb_le in Hz; destruct (cancelled r _)|];
      cbn [fst snd]; unfold loopBound; cbn [pc goto];
      (split; [try exact I; try lia|]);
      repeat first [ apply inRange_overall; [first [exact Hov | apply in_0_100_of_Z; cbn; lia]|]
                   | apply inRange_steps; [updater|]
                   | exact Hs ].
  - (* ValPause *)
    cbn [fst snd]. split; [exact I|].
    destruct Hs as [Hsteps Hov]; split; assumption.
Qed.

Lemma range_feed (events : list Event) :
  forall r s,
    loopBound r -> inRange s -> Forall numeric events ->
    inRange (snd (feed r s events)).
Proof.
  induction events as [|e rest IH]; intros r s Hb Hs Hev; cbn [feed].
  - exact Hs.
  - inversion Hev as [|? ? He Hrest]; subst.
    destruct (range_step r s e Hb Hs He) as [Hb' Hs'].
    destruct (resume r e s) as [r' s']. cbn [fst snd] in Hb', Hs'.
    apply IH; assumption.
Qed.

(** X10.  As long as the status endpoint never answers with NaN as its percent,
    the progress of each of the four phases and the overall progress lie
    in [0,100] at every await of a run, whatever the events. *)
Theorem progress_stays_in_range
    (p : Props) (s0 : Store) (events : list Event) :
  Forall numeric events ->
  inRange (snd (runAlone p s0 events)).
Proof.
  intros Hev. unfold runAlone, runGenerationPipeline, enter, preprocessingLoop.
  change (0 <=? 100)%Z with true. cbv iota.
  assert (Hstart : inRange
                     (setSteps
                        (fun st i =>
                           mkStep (id st) (name st) (description st)
                             (if Nat.eqb i 0 then running else pending)
                             (if Nat.eqb i 0 then of_Z 0 else progress st))
                        (reset s0))).
  { apply inRange_steps.
    - intros x i H. cbn [progress]. destruct (Nat.eqb i 0); [apply in_0_100_of_Z; lia | exact H].
    - split; [cbn [reset steps pendingSteps]; repeat constructor; discriminate
             | cbn; split; discriminate]. }
  destruct (cancelled _ _); apply range_feed; try assumption;
    unfold loopBound; cbn [pc goto]; try exact I; lia.
Qed.

Lemma progress_stays_in_range_witness :
  inRange (snd (runAlone Scenario.props mounted Scenario.backwards)).
Proof.
  apply (progress_stays_in_range Scenario.props mounted Scenario.backwards).
  repeat constructor; intros res raw He Hf; try discriminate He;
    inversion He; subst res; cbn in Hf; inversion Hf; subst raw; discriminate.
Defined.

End RangeFacts.
